(** * Fund-report ingestion pipeline: table parser, chunker, vector store
      and orchestrator

    A shallow embedding of
      - [backend/app/services/table_parser.py]      (class [TableParser]),
      - [backend/app/services/document_processor.py] (class [DocumentProcessor]),
      - [backend/app/services/vector_store.py]      (class [VectorStore]),
      - [backend/app/tasks/document_tasks.py]       ([process_document_task]),
    followed by the properties proved about them.

    Conventions.  A Python [str] is a [string]; only ASCII text is
    interpreted (white space, digits, letter case), any other character is
    an ordinary character.  A Python [None]-or-value is an [option].
    Code that raises returns [Raise msg], where [msg] is [str(e)]. *)

From Stdlib Require Import ZArith NArith Lia Bool Ascii String List DecimalString Sorted.
From stdpp Require Import base option list gmap strings.

Local Open Scope Z_scope.

(* ===================================================================== *)
(** ** Python string primitives *)
(* ===================================================================== *)

Module PyStr.

Definition code (c : ascii) : N := N_of_ascii c.

(** [c.isspace()] on ASCII: TAB, LF, VT, FF, CR, FS, GS, RS, US, SPACE.
    This is also the class matched by [\s] in a [str] pattern. *)
Definition isspace (c : ascii) : bool :=
  let n := code c in
  ((9 <=? n) && (n <=? 13) || (28 <=? n) && (n <=? 32))%N.

(** [\d] on ASCII. *)
Definition isdigit (c : ascii) : bool :=
  let n := code c in ((48 <=? n) && (n <=? 57))%N.

Definition digit_val (c : ascii) : N := (code c - 48)%N.

Definition lower_char (c : ascii) : ascii :=
  let n := code c in
  if ((65 <=? n) && (n <=? 90))%N then ascii_of_N (n + 32) else c.

(** [s.lower()] *)
Fixpoint lower (s : string) : string :=
  match s with
  | EmptyString => EmptyString
  | String c s' => String (lower_char c) (lower s')
  end.

(** [s.startswith(p)] *)
Fixpoint startswith (p s : string) : bool :=
  match p, s with
  | EmptyString, _ => true
  | String a p', String b s' => Ascii.eqb a b && startswith p' s'
  | String _ _, EmptyString => false
  end.

(** [k in s] *)
Fixpoint contains (k s : string) : bool :=
  startswith k s ||
  match s with
  | EmptyString => false
  | String _ s' => contains k s'
  end.

Fixpoint rev_acc (s acc : string) : string :=
  match s with
  | EmptyString => acc
  | String c s' => rev_acc s' (String c acc)
  end.

Definition rev (s : string) : string := rev_acc s EmptyString.

(** [s.endswith(p)] *)
Definition endswith (p s : string) : bool := startswith (rev p) (rev s).

(** Every character is white space (the empty string included). *)
Fixpoint all_space (s : string) : bool :=
  match s with
  | EmptyString => true
  | String c s' => isspace c && all_space s'
  end.

(** [s.lstrip()], [s.rstrip()], [s.strip()] *)
Fixpoint lstrip (s : string) : string :=
  match s with
  | EmptyString => EmptyString
  | String c s' => if isspace c then lstrip s' else s
  end.

Definition rstrip (s : string) : string := rev (lstrip (rev s)).

Definition strip (s : string) : string := rstrip (lstrip s).

(** [sep.join(l)] *)
Fixpoint join (sep : string) (l : list string) : string :=
  match l with
  | [] => EmptyString
  | [x] => x
  | x :: rest => x +:+ sep +:+ join sep rest
  end.

(** [len(s)] *)
Definition len (s : string) : Z := Z.of_nat (String.length s).

(** The one-character string of a line feed. *)
Definition newline : string := String (ascii_of_N 10) EmptyString.

(** [any(k in s for k in keywords)] *)
Definition any_in (keywords : list string) (s : string) : bool :=
  existsb (fun k => contains k s) keywords.

(** Removal of every character satisfying [p]
    ([re.sub] of a character class by the empty string). *)
Fixpoint remove_chars (p : ascii -> bool) (s : string) : string :=
  match s with
  | EmptyString => EmptyString
  | String c s' => if p c then remove_chars p s' else String c (remove_chars p s')
  end.

End PyStr.

(* ===================================================================== *)
(** ** Tables as extracted by pdfplumber *)
(* ===================================================================== *)

(** A cell is [None] or a [str]. *)
Definition cell := option string.

(** Truth value of a cell ([if h], [if cell]): [None] and [''] are false. *)
Definition truthy (c : cell) : bool :=
  match c with
  | Some (String _ _) => true
  | _ => false
  end.

(** [str(c)] *)
Definition str_of_cell (c : cell) : string :=
  match c with
  | Some s => s
  | None => "None"
  end.

(** The [table_info] dictionary built by [extract_tables_from_pdf]
    ([raw_data] is [headers :: rows] and is not read again). *)
Record table_info := {
  page : Z;
  table_number : Z;
  headers : list cell;
  rows : list (list cell)
}.

(** The table types ['capital_calls'], ['distributions'], ['adjustments']. *)
Inductive table_type := CapitalCalls | Distributions | Adjustments.

Module Classifier.

Import PyStr.

Definition CAPITAL_CALL_KEYWORDS : list string :=
  ["capital call"; "call number"; "capital contribution"; "capital drawdown"].
Definition DISTRIBUTION_KEYWORDS : list string :=
  ["distribution"; "return of capital"; "dividend"; "recallable"].
Definition ADJUSTMENT_KEYWORDS : list string :=
  ["adjustment"; "rebalance"; "recalled distribution"; "capital call adjustment"].

(** [' '.join(str(c) for c in cells if c)] *)
Definition join_cells (cells : list cell) : string :=
  join " " (map str_of_cell (filter (fun c => truthy c = true) cells)).

(** The lower-cased blob of the headers and the first five rows. *)
Definition text_to_check (t : table_info) : string :=
  lower (join " " [ join_cells (headers t);
                    join " " (map join_cells (take 5 (rows t))) ]).

Definition classify_table_type (t : table_info) : option table_type :=
  let text := text_to_check t in
  if any_in CAPITAL_CALL_KEYWORDS text then Some CapitalCalls
  else if any_in DISTRIBUTION_KEYWORDS text then Some Distributions
  else if any_in ADJUSTMENT_KEYWORDS text then Some Adjustments
  else None.

End Classifier.

(* ===================================================================== *)
(** ** Outcomes of code that may raise *)
(* ===================================================================== *)

(** [Ok a] is a normal return, [Raise e] an exception whose [str(e)] is [e]. *)
Inductive result (A : Type) : Type :=
| Ok (a : A)
| Raise (e : string).
Arguments Ok {A} a.
Arguments Raise {A} e.

(** [try: v = r  except Exception: v = None] *)
Definition or_none {A} (r : result A) : option A :=
  match r with
  | Ok a => Some a
  | Raise _ => None
  end.

(* ===================================================================== *)
(** ** [decimal.Decimal] under the default context *)
(* ===================================================================== *)

Module PyDecimal.

Import PyStr.

(** A decimal is finite ([(-1)^sign * coeff * 10^exp]), an infinity or a
    (quiet or signalling) NaN with a payload. *)
Inductive t :=
| Finite (sign : bool) (coeff : N) (exp : Z)
| Inf (sign : bool)
| NaN (sign : bool) (signalling : bool) (payload : N).

(** Default context: 28 digits, ROUND_HALF_EVEN, exponents within
    [-999999, 999999], no clamping; InvalidOperation and Overflow trap. *)
Definition prec : Z := 28.
Definition Emax : Z := 999999.
Definition Emin : Z := -999999.
Definition Etiny : Z := Emin - prec + 1.
Definition Etop : Z := Emax - prec + 1.

(** [len(str(n))] *)
Definition ndigits (n : N) : Z :=
  Z.of_nat (Decimal.nb_digits (N.to_uint n)).

(** Leading run of digits and the rest. *)
Fixpoint span_digits (s : string) : string * string :=
  match s with
  | EmptyString => (EmptyString, EmptyString)
  | String c s' =>
      if isdigit c
      then let '(d, r) := span_digits s' in (String c d, r)
      else (EmptyString, s)
  end.

(** [int(s)] for a run of digits ([0] for the empty run). *)
Fixpoint digits_val_acc (s : string) (acc : N) : N :=
  match s with
  | EmptyString => acc
  | String c s' => digits_val_acc s' (10 * acc + digit_val c)%N
  end.
Definition digits_val (s : string) : N := digits_val_acc s 0%N.

Definition is_underscore (c : ascii) : bool := Ascii.eqb c "_".

(** The optional exponent part [(E[-+]?\d+)?] followed by the end of the
    input; the text is already lower-cased. *)
Definition parse_exponent (s : string) : option Z :=
  match s with
  | EmptyString => Some 0
  | String "e" s1 =>
      let '(neg, s2) :=
        match s1 with
        | String "-" r => (true, r)
        | String "+" r => (false, r)
        | _ => (false, s1)
        end in
      match span_digits s2 with
      | (String c d, EmptyString) =>
          let v := Z.of_N (digits_val (String c d)) in
          Some (if neg then - v else v)
      | _ => None
      end
  | _ => None
  end.

(** The numeric-string grammar of the constructor, after the sign. *)
Definition parse_body (sign : bool) (s : string) : option t :=
  if String.eqb s "inf" || String.eqb s "infinity" then Some (Inf sign)
  else if startswith "nan" s then
    match span_digits (String.substring 3 (String.length s - 3) s) with
    | (d, EmptyString) => Some (NaN sign false (digits_val d))
    | _ => None
    end
  else if startswith "snan" s then
    match span_digits (String.substring 4 (String.length s - 4) s) with
    | (d, EmptyString) => Some (NaN sign true (digits_val d))
    | _ => None
    end
  else
    let '(intpart, r1) := span_digits s in
    let '(fracpart, r2) :=
      match r1 with
      | String "." r => span_digits r
      | _ => (EmptyString, r1)
      end in
    match intpart +:+ fracpart with
    | EmptyString => None
    | String _ _ =>
        match parse_exponent r2 with
        | Some e =>
            Some (Finite sign (digits_val (intpart +:+ fracpart))
                         (e - len fracpart))
        | None => None
        end
    end.

(** [Decimal(s)] for a [str]; [None] stands for the InvalidOperation the
    constructor raises on a malformed numeral. *)
Definition of_string (s : string) : option t :=
  let s := lower (remove_chars is_underscore (strip s)) in
  match s with
  | String "-" r => parse_body true r
  | String "+" r => parse_body false r
  | _ => parse_body false s
  end.

(** [Decimal(str(z))] for an [int]. *)
Definition of_int (z : Z) : t := Finite (z <? 0) (Z.to_N (Z.abs z)) 0.

(** [Decimal._fix]: rounding of a finite value to the context. *)
Definition fix_finite (sign : bool) (coeff : N) (exp : Z) : result t :=
  if (coeff =? 0)%N then
    Ok (Finite sign 0 (Z.min (Z.max exp Etiny) Emax))
  else
    let exp_min0 := ndigits coeff + exp - prec in
    if exp_min0 >? Etop then Raise "Overflow" else
    let exp_min := if exp_min0 <? Etiny then Etiny else exp_min0 in
    if exp <? exp_min then
      let drop := Z.to_N (exp_min - exp) in
      let q := (coeff / 10 ^ drop)%N in
      let r := (coeff mod 10 ^ drop)%N in
      let half := (5 * 10 ^ (drop - 1))%N in
      let up := ((half <? r) || ((r =? half) && N.odd q))%N in
      let c1 := if up then (q + 1)%N else q in
      let '(c2, e2) :=
        if ndigits c1 >? prec then ((c1 / 10)%N, exp_min + 1)
        else (c1, exp_min) in
      if e2 >? Etop then Raise "Overflow" else Ok (Finite sign c2 e2)
    else Ok (Finite sign coeff exp).

(** Unary minus, [-d]. *)
Definition neg (d : t) : result t :=
  match d with
  | NaN _ true _ => Raise "InvalidOperation"
  | NaN s false p => Ok (NaN s false (p mod 10 ^ 28)%N)
  | Inf s => Ok (Inf (negb s))
  | Finite s c e =>
      if (c =? 0)%N then fix_finite false c e
      else fix_finite (negb s) c e
  end.

(** [d <= 0]; an ordered comparison with a NaN raises. *)
Definition le_zero (d : t) : result bool :=
  match d with
  | NaN _ _ _ => Raise "InvalidOperation"
  | Inf s => Ok s
  | Finite s c _ => Ok ((c =? 0)%N || s)
  end.

Definition is_nan (d : t) : bool :=
  match d with
  | NaN _ _ _ => true
  | _ => false
  end.

(** Two finite decimals denote the same number ([1000000] and
    [1000000.00] do). *)
Definition same_value (a b : t) : bool :=
  match a, b with
  | Finite s1 c1 e1, Finite s2 c2 e2 =>
      let m := Z.min e1 e2 in
      (Z.of_N c1 * 10 ^ (e1 - m) =? Z.of_N c2 * 10 ^ (e2 - m))
      && (Bool.eqb s1 s2 || (c1 =? 0)%N)
  | _, _ => false
  end.

End PyDecimal.

(** Values reaching [_parse_amount]: [None], an [int] or a [str]
    (table cells are [None] or [str]; the [float] and [Decimal] inputs of
    the numeric branch are not modelled). *)
Inductive amount_input :=
| ANone
| AInt (z : Z)
| AStr (s : string).

Definition amount_of_cell (c : cell) : amount_input :=
  match c with
  | None => ANone
  | Some s => AStr s
  end.

Module Amount.

Import PyStr.

(** The character class of [re.sub(r'[$,()]', '', amount_str)]. *)
Definition is_amount_symbol (c : ascii) : bool :=
  Ascii.eqb c "$" || Ascii.eqb c "," || Ascii.eqb c "(" || Ascii.eqb c ")".

(** [s[1:]] *)
Definition drop_first (s : string) : string :=
  match s with
  | EmptyString => EmptyString
  | String _ r => r
  end.

Definition _parse_amount (v : amount_input) : option PyDecimal.t :=
  match v with
  | ANone => None
  | AInt z => Some (PyDecimal.of_int z)
  | AStr s =>
      let amount_str := strip s in
      match amount_str with
      | EmptyString => None
      | String _ _ =>
          let is_negative :=
            startswith "(" amount_str && endswith ")" amount_str in
          let amount_str := remove_chars is_amount_symbol amount_str in
          let '(is_negative, amount_str) :=
            if startswith "-" amount_str
            then (true, drop_first amount_str)
            else (is_negative, amount_str) in
          match PyDecimal.of_string amount_str with
          | Some amount =>
              if is_negative then or_none (PyDecimal.neg amount)
              else Some amount
          | None => None
          end
      end
  end.

End Amount.

(* ===================================================================== *)
(** ** [datetime.strptime] for the formats of [_parse_date] *)
(* ===================================================================== *)

(** A [datetime]; every value built by [strptime] here is at midnight, so
    only the calendar date is kept. *)
Record datetime := { year : Z; month : Z; day : Z }.

Inductive date_input :=
| DNone
| DDatetime (d : datetime)
| DStr (s : string).

Definition date_of_cell (c : cell) : date_input :=
  match c with
  | None => DNone
  | Some s => DStr s
  end.

Module Strptime.

Import PyStr.

(** The pieces a format string is compiled to: the directives used by
    the parser, a run of white space ([\s+]) and literal characters. *)
Inductive directive :=
| dir_Y | dir_m | dir_d | dir_B | dir_b
| white
| lit (c : ascii).

(** [TimeRE.pattern]: white-space runs become [\s+], [%x] a directive;
    [None] for a directive this model does not cover. *)
Fixpoint compile (fmt : string) : option (list directive) :=
  match fmt with
  | EmptyString => Some []
  | String "%" (String x rest) =>
      match compile rest with
      | None => None
      | Some ds =>
          match x with
          | "Y" => Some (dir_Y :: ds)
          | "m" => Some (dir_m :: ds)
          | "d" => Some (dir_d :: ds)
          | "B" => Some (dir_B :: ds)
          | "b" => Some (dir_b :: ds)
          | _ => None
          end%char
      end
  | String c rest =>
      match compile rest with
      | None => None
      | Some ds =>
          if isspace c then
            match ds with
            | white :: _ => Some ds
            | _ => Some (white :: ds)
            end
          else Some (lit c :: ds)
      end
  end.

Definition month_names : list string :=
  ["january"; "february"; "march"; "april"; "may"; "june"; "july";
   "august"; "september"; "october"; "november"; "december"].
Definition month_abbrs : list string :=
  ["jan"; "feb"; "mar"; "apr"; "may"; "jun"; "jul"; "aug"; "sep"; "oct";
   "nov"; "dec"].

(** The fields collected by the named groups. *)
Record fields := { f_year : Z; f_month : Z; f_day : Z }.
Definition fields0 : fields := {| f_year := 1900; f_month := 1; f_day := 1 |}.
Definition set_year (f : fields) (v : Z) : fields :=
  {| f_year := v; f_month := f_month f; f_day := f_day f |}.
Definition set_month (f : fields) (v : Z) : fields :=
  {| f_year := f_year f; f_month := v; f_day := f_day f |}.
Definition set_day (f : fields) (v : Z) : fields :=
  {| f_year := f_year f; f_month := f_month f; f_day := v |}.

Definition in_range (lo hi c : ascii) : bool :=
  ((code lo <=? code c) && (code c <=? code hi))%N.
Definition dv (c : ascii) : Z := Z.of_N (digit_val c).

(** Each matcher lists the ways its pattern can match a prefix of the
    input, in the order the backtracking matcher tries them, with the
    value read and the remaining input. *)

(** [%Y] is [\d\d\d\d]. *)
Definition match_Y (s : string) : list (Z * string) :=
  match s with
  | String a (String b (String c (String d r))) =>
      if isdigit a && isdigit b && isdigit c && isdigit d
      then [(1000 * dv a + 100 * dv b + 10 * dv c + dv d, r)]
      else []
  | _ => []
  end.

(** [%m] is [1[0-2]|0[1-9]|[1-9]]. *)
Definition match_m (s : string) : list (Z * string) :=
  match s with
  | String a r =>
      (match r with
       | String b r' =>
           (if Ascii.eqb a "1" && in_range "0" "2" b then [(10 + dv b, r')] else [])
           ++ (if Ascii.eqb a "0" && in_range "1" "9" b then [(dv b, r')] else [])
       | EmptyString => []
       end)
      ++ (if in_range "1" "9" a then [(dv a, r)] else [])
  | EmptyString => []
  end.

(** [%d] is [3[0-1]|[1-2]\d|0[1-9]|[1-9]| [1-9]]. *)
Definition match_d (s : string) : list (Z * string) :=
  match s with
  | String a r =>
      (match r with
       | String b r' =>
           (if Ascii.eqb a "3" && in_range "0" "1" b then [(30 + dv b, r')] else [])
           ++ (if in_range "1" "2" a && isdigit b then [(10 * dv a + dv b, r')] else [])
           ++ (if Ascii.eqb a "0" && in_range "1" "9" b then [(dv b, r')] else [])
       | EmptyString => []
       end)
      ++ (if in_range "1" "9" a then [(dv a, r)] else [])
      ++ (match r with
          | String b r' =>
              if Ascii.eqb a " " && in_range "1" "9" b then [(dv b, r')] else []
          | EmptyString => []
          end)
  | EmptyString => []
  end.

(** [s[n:]] *)
Fixpoint drop_chars (n : nat) (s : string) : string :=
  match n, s with
  | O, _ => s
  | S n', String _ r => drop_chars n' r
  | S _, EmptyString => EmptyString
  end.

(** A month name, compared without case; the alternatives are tried
    longest first, in calendar order among names of one length. *)
Definition by_length_desc (names : list (Z * string)) : list (Z * string) :=
  flat_map (fun n => filter (fun p => String.length (snd p) = n) names)
           (List.rev (seq 0%nat 10%nat)).

Fixpoint number_from (i : Z) (names : list string) : list (Z * string) :=
  match names with
  | [] => []
  | n :: rest => (i, n) :: number_from (i + 1) rest
  end.

Definition match_name (names : list string) (s : string) : list (Z * string) :=
  flat_map (fun p => if startswith (snd p) (lower s)
                     then [(fst p, drop_chars (String.length (snd p)) s)]
                     else [])
           (by_length_desc (number_from 1 names)).

(** [\s+]: the longest run first, then shorter ones. *)
Fixpoint match_white_after (s : string) : list string :=
  match s with
  | String c r => if isspace c then match_white_after r ++ [r] else []
  | EmptyString => []
  end.

Definition match_lit (c : ascii) (s : string) : list string :=
  match s with
  | String a r => if Ascii.eqb (lower_char a) (lower_char c) then [r] else []
  | EmptyString => []
  end.

(** All matches of a compiled format against a prefix of the input, in
    the matcher's order. *)
Fixpoint match_format (ds : list directive) (f : fields) (s : string)
  : list (fields * string) :=
  match ds with
  | [] => [(f, s)]
  | d :: ds' =>
      match d with
      | dir_Y => flat_map (fun p => match_format ds' (set_year f (fst p)) (snd p)) (match_Y s)
      | dir_m => flat_map (fun p => match_format ds' (set_month f (fst p)) (snd p)) (match_m s)
      | dir_d => flat_map (fun p => match_format ds' (set_day f (fst p)) (snd p)) (match_d s)
      | dir_B => flat_map (fun p => match_format ds' (set_month f (fst p)) (snd p))
                          (match_name month_names s)
      | dir_b => flat_map (fun p => match_format ds' (set_month f (fst p)) (snd p))
                          (match_name month_abbrs s)
      | white => flat_map (match_format ds' f) (match_white_after s)
      | lit c => flat_map (match_format ds' f) (match_lit c s)
      end
  end.

Definition is_leap (y : Z) : bool :=
  (y mod 4 =? 0) && (negb (y mod 100 =? 0) || (y mod 400 =? 0)).

Definition days_in_month (y m : Z) : Z :=
  if m =? 2 then (if is_leap y then 29 else 28)
  else if (m =? 4) || (m =? 6) || (m =? 9) || (m =? 11) then 30
  else 31.

(** The check made when the [date] is built from the fields. *)
Definition valid_date (f : fields) : bool :=
  (1 <=? f_year f) && (f_year f <=? 9999) &&
  (1 <=? f_month f) && (f_month f <=? 12) &&
  (1 <=? f_day f) && (f_day f <=? days_in_month (f_year f) (f_month f)).

(** [datetime.strptime(s, fmt)]; [None] is the [ValueError] raised when
    the pattern does not match, when the match leaves unconverted data,
    or when the fields are not a calendar date. *)
Definition strptime (s fmt : string) : option datetime :=
  match compile fmt with
  | None => None
  | Some ds =>
      match match_format ds fields0 s with
      | (f, EmptyString) :: _ =>
          if valid_date f
          then Some {| year := f_year f; month := f_month f; day := f_day f |}
          else None
      | _ => None
      end
  end.

End Strptime.

Module DateParser.

Import PyStr.

Definition date_formats : list string :=
  ["%Y-%m-%d"; "%m/%d/%Y"; "%d/%m/%Y"; "%Y/%m/%d"; "%m-%d-%Y"; "%d-%m-%Y";
   "%B %d, %Y"; "%b %d, %Y"; "%Y%m%d"].

(** The loop [for fmt in formats: try: return strptime(..) except
    ValueError: continue], ending in [None]. *)
Fixpoint try_formats (formats : list string) (s : string) : option datetime :=
  match formats with
  | [] => None
  | fmt :: rest =>
      match Strptime.strptime s fmt with
      | Some d => Some d
      | None => try_formats rest s
      end
  end.

Definition _parse_date (v : date_input) : option datetime :=
  match v with
  | DNone => None
  | DDatetime d => Some d
  | DStr s =>
      let date_str := strip s in
      match date_str with
      | EmptyString => None
      | String _ _ => try_formats date_formats date_str
      end
  end.

End DateParser.

(* ===================================================================== *)
(** ** Parsed records *)
(* ===================================================================== *)

(** The dictionaries built by the three table parsers and by the text
    fallback.  A field that holds [None] is [None] here. *)
Inductive entry :=
| CallEntry (call_date : option datetime) (call_type : string)
            (amount : option PyDecimal.t) (description : string)
| DistEntry (distribution_date : option datetime) (distribution_type : string)
            (amount : option PyDecimal.t) (is_recallable : bool)
            (description : string)
| AdjEntry (adjustment_date : option datetime) (adjustment_type : string)
           (category : string) (amount : option PyDecimal.t)
           (is_contribution_adjustment : bool) (description : string).

(** [entry.get('call_date')] and its siblings: [None] also when the key
    is not in the dictionary. *)
Definition get_call_date (e : entry) : option datetime :=
  match e with
  | CallEntry d _ _ _ => d
  | _ => None
  end.
Definition get_distribution_date (e : entry) : option datetime :=
  match e with
  | DistEntry d _ _ _ _ => d
  | _ => None
  end.
Definition get_adjustment_date (e : entry) : option datetime :=
  match e with
  | AdjEntry d _ _ _ _ _ => d
  | _ => None
  end.
Definition get_amount (e : entry) : option PyDecimal.t :=
  match e with
  | CallEntry _ _ a _ => a
  | DistEntry _ _ a _ _ => a
  | AdjEntry _ _ _ a _ _ => a
  end.

Module TableParser.

Import PyStr.
Export Classifier Amount DateParser.

(** [[str(h).strip().lower() if h else '' for h in headers]] *)
Definition normalize_headers (hs : list cell) : list string :=
  map (fun h => if truthy h then lower (strip (str_of_cell h)) else EmptyString) hs.

Fixpoint find_from (idx : nat) (hs : list string) (keywords : list string)
  : option nat :=
  match hs with
  | [] => None
  | header :: rest =>
      if any_in keywords header then Some idx
      else find_from (S idx) rest keywords
  end.

Definition _find_column_index (hs : list string) (keywords : list string)
  : option nat :=
  find_from 0 hs keywords.

Definition _parse_boolean (v : cell) : bool :=
  match v with
  | None => false
  | Some s =>
      let value_str := lower (strip s) in
      existsb (String.eqb value_str) ["yes"; "true"; "1"; "y"; "t"]
  end.

Definition _classify_adjustment_category (adjustment_type : string) : string :=
  if contains "recallable" adjustment_type || contains "recalled" adjustment_type
  then "recallable_distribution"
  else if contains "capital call" adjustment_type then "capital_call_adjustment"
  else if contains "contribution" adjustment_type then "contribution_adjustment"
  else if contains "fee" adjustment_type then "fee_adjustment"
  else if contains "expense" adjustment_type then "expense_adjustment"
  else "other".

(** [row[idx]]; [None] is the IndexError of a row that is too short. *)
Definition row_at (row : list cell) (idx : nat) : option cell := row !! idx.

(** [row[idx] if idx is not None else default] *)
Definition cell_or (row : list cell) (idx : option nat) (default : cell)
  : option cell :=
  match idx with
  | None => Some default
  | Some i => row_at row i
  end.

(** [str(row[idx]).strip() if idx is not None and row[idx] else default] *)
Definition text_or (row : list cell) (idx : option nat) (default : string)
  : option string :=
  match idx with
  | None => Some default
  | Some i =>
      c ← row_at row i;
      Some (if truthy c then strip (str_of_cell c) else default)
  end.

(** [all(cell is None or str(cell).strip() == '' for cell in row)] *)
Definition blank_row (row : list cell) : bool :=
  forallb (fun c => match c with
                    | None => true
                    | Some s => String.eqb (strip s) EmptyString
                    end) row.

(** The [try] body for one row: [None] when an exception is raised (the
    row is then skipped), otherwise the dictionary built. *)
Definition call_row (date_idx amount_idx call_type_idx description_idx : option nat)
           (row : list cell) : option entry :=
  d ← cell_or row date_idx None;
  ct ← text_or row call_type_idx "Standard Call";
  a ← cell_or row amount_idx None;
  ds ← text_or row description_idx EmptyString;
  Some (CallEntry (_parse_date (date_of_cell d)) ct
                  (_parse_amount (amount_of_cell a)) ds).

Definition dist_row (date_idx amount_idx type_idx recallable_idx description_idx : option nat)
           (row : list cell) : option entry :=
  d ← cell_or row date_idx None;
  ty ← text_or row type_idx "Distribution";
  a ← cell_or row amount_idx None;
  rc ← cell_or row recallable_idx (Some "No");
  ds ← text_or row description_idx EmptyString;
  Some (DistEntry (_parse_date (date_of_cell d)) ty
                  (_parse_amount (amount_of_cell a)) (_parse_boolean rc) ds).

Definition adj_row (date_idx amount_idx type_idx description_idx : option nat)
           (row : list cell) : option entry :=
  adj_type ← lower <$> text_or row type_idx EmptyString;
  d ← cell_or row date_idx None;
  ty ← text_or row type_idx "Adjustment";
  a ← cell_or row amount_idx None;
  ds ← text_or row description_idx EmptyString;
  Some (AdjEntry (_parse_date (date_of_cell d)) ty
                 (_classify_adjustment_category adj_type)
                 (_parse_amount (amount_of_cell a))
                 (contains "capital call" adj_type || contains "contribution" adj_type)
                 ds).

(** The required-field test made on each built dictionary. *)
Definition has_required (date : option datetime) (amount : option PyDecimal.t) : bool :=
  match date, amount with
  | Some _, Some _ => true
  | _, _ => false
  end.

Definition entry_date (e : entry) : option datetime :=
  match e with
  | CallEntry d _ _ _ => d
  | DistEntry d _ _ _ _ => d
  | AdjEntry d _ _ _ _ _ => d
  end.

(** The loop over the rows shared by the three parsers. *)
Definition parse_rows (build : list cell -> option entry) (rs : list (list cell))
  : list entry :=
  flat_map (fun row =>
              match row with
              | [] => []
              | _ :: _ =>
                  if blank_row row then []
                  else match build row with
                       | Some e =>
                           if has_required (entry_date e) (get_amount e)
                           then [e] else []
                       | None => []
                       end
              end) rs.

Definition parse_capital_call_table (t : table_info) : list entry :=
  let hs := normalize_headers (headers t) in
  let date_idx := _find_column_index hs ["date"] in
  let amount_idx := _find_column_index hs ["amount"] in
  let call_type_idx := _find_column_index hs ["call number"; "type"; "call"] in
  let description_idx := _find_column_index hs ["description"; "desc"; "notes"] in
  parse_rows (call_row date_idx amount_idx call_type_idx description_idx) (rows t).

Definition parse_distribution_table (t : table_info) : list entry :=
  let hs := normalize_headers (headers t) in
  let date_idx := _find_column_index hs ["date"] in
  let amount_idx := _find_column_index hs ["amount"] in
  let type_idx := _find_column_index hs ["type"; "distribution type"] in
  let recallable_idx := _find_column_index hs ["recallable"; "recall"] in
  let description_idx := _find_column_index hs ["description"; "desc"; "notes"] in
  parse_rows (dist_row date_idx amount_idx type_idx recallable_idx description_idx)
             (rows t).

Definition parse_adjustment_table (t : table_info) : list entry :=
  let hs := normalize_headers (headers t) in
  let date_idx := _find_column_index hs ["date"] in
  let amount_idx := _find_column_index hs ["amount"] in
  let type_idx := _find_column_index hs ["type"; "adjustment type"] in
  let description_idx := _find_column_index hs ["description"; "desc"; "notes"] in
  parse_rows (adj_row date_idx amount_idx type_idx description_idx) (rows t).

(** What the validation loop does with one entry. *)
Inductive verdict :=
| Dropped                  (* [continue]: the entry is not appended *)
| Kept (warned : bool).    (* appended; [warned] when a warning was logged *)

(** The [try] body for one entry; the comparison [entry['amount'] <= 0]
    may raise. *)
Definition check_entry (ty : table_type) (e : entry) : result verdict :=
  match ty with
  | CapitalCalls =>
      match get_call_date e, get_amount e with
      | Some _, Some a =>
          match PyDecimal.le_zero a with
          | Ok w => Ok (Kept w)
          | Raise err => Raise err
          end
      | _, _ => Ok Dropped
      end
  | Distributions =>
      match get_distribution_date e, get_amount e with
      | Some _, Some a =>
          match PyDecimal.le_zero a with
          | Ok w => Ok (Kept w)
          | Raise err => Raise err
          end
      | _, _ => Ok Dropped
      end
  | Adjustments =>
      match get_adjustment_date e, get_amount e with
      | Some _, Some _ => Ok (Kept false)
      | _, _ => Ok Dropped
      end
  end.

(** An entry is appended unless it was dropped or its check raised
    ([except Exception: continue]). *)
Definition retained (ty : table_type) (e : entry) : bool :=
  match check_entry ty e with
  | Ok (Kept _) => true
  | Ok Dropped => false
  | Raise _ => false
  end.

Definition warned_about (ty : table_type) (e : entry) : bool :=
  match check_entry ty e with
  | Ok (Kept w) => w
  | _ => false
  end.

Definition validate_and_clean_data (data : list entry) (ty : table_type)
  : list entry :=
  flat_map (fun e => if retained ty e then [e] else []) data.

(** The entries for which the non-positive-amount warning is logged. *)
Definition validation_warnings (data : list entry) (ty : table_type)
  : list entry :=
  flat_map (fun e => if warned_about ty e then [e] else []) data.

End TableParser.

(* ===================================================================== *)
(** ** The chunker of [DocumentProcessor] *)
(* ===================================================================== *)

(** One element of [text_content]. *)
Record page_text := {
  pt_page : Z;
  pt_text : string;
  pt_total_pages : Z
}.

(** One element of the list returned by [_chunk_text]. *)
Record chunk := {
  text : string;
  chunk_page : Z;
  chunk_index : Z;
  char_count : Z
}.

Module Chunker.

Import PyStr.

Definition is_terminator (c : ascii) : bool :=
  Ascii.eqb c "." || Ascii.eqb c "!" || Ascii.eqb c "?".

(** [re.split(r'(?<=[.!?])\s+', text)].  [cur] is the piece being read,
    reversed; [after_term] tells that the previous character is one of
    [.!?]; [in_sep] that a separator is being consumed. *)
Fixpoint re_split (s : string) (cur : string) (after_term in_sep : bool)
  : list string :=
  match s with
  | EmptyString => [rev cur]
  | String c r =>
      if in_sep && isspace c then re_split r cur false true
      else if after_term && isspace c then rev cur :: re_split r EmptyString false true
      else re_split r (String c cur) (is_terminator c) false
  end.

(** [[s.strip() for s in sentences if s.strip()]] *)
Definition _split_into_sentences (text : string) : list string :=
  flat_map (fun s => match strip s with
                     | EmptyString => []
                     | String c r => [String c r]
                     end)
           (re_split text EmptyString false false).

(** [sum(len(s) for s in l)], the quantity tracked in [current_length]
    and [overlap_length]. *)
Definition total_len (l : list string) : Z :=
  fold_right (fun s acc => len s + acc) 0 l.

(** The overlap loop: [rest] is [reversed(current_chunk)] still to be
    visited, [acc] the sentences kept so far. *)
Fixpoint overlap_loop (chunk_overlap : Z) (rest : list string)
         (overlap_sentences : list string) (overlap_length : Z)
  : list string * Z :=
  match rest with
  | [] => (overlap_sentences, overlap_length)
  | sent :: rest' =>
      if overlap_length + len sent <=? chunk_overlap
      then overlap_loop chunk_overlap rest' (sent :: overlap_sentences)
                        (overlap_length + len sent)
      else (overlap_sentences, overlap_length)
  end.

Definition make_chunk (page_num : Z) (index : Z) (sentences : list string) : chunk :=
  let chunk_text := join " " sentences in
  {| text := chunk_text; chunk_page := page_num;
     chunk_index := index; char_count := len chunk_text |}.

(** The local variables of the loop over the sentences of one page;
    [emitted] is the part of [chunks] appended for this page. *)
Record loop_state := {
  emitted : list chunk;
  current_chunk : list string;
  current_length : Z;
  next_index : Z
}.

Definition loop_init : loop_state :=
  {| emitted := []; current_chunk := []; current_length := 0; next_index := 0 |}.

(** One iteration of [for sentence in sentences]. *)
Definition loop_step (chunk_size chunk_overlap page_num : Z)
           (st : loop_state) (sentence : string) : loop_state :=
  let sentence_length := len sentence in
  let st :=
    match current_chunk st with
    | _ :: _ =>
        if current_length st + sentence_length >? chunk_size then
          let '(overlap_sentences, overlap_length) :=
            overlap_loop chunk_overlap (List.rev (current_chunk st)) [] 0 in
          {| emitted := emitted st ++
                        [make_chunk page_num (next_index st) (current_chunk st)];
             current_chunk := overlap_sentences;
             current_length := overlap_length;
             next_index := next_index st + 1 |}
        else st
    | [] => st
    end in
  {| emitted := emitted st;
     current_chunk := current_chunk st ++ [sentence];
     current_length := current_length st + sentence_length;
     next_index := next_index st |}.

(** The chunks of one page: the loop, then the final chunk. *)
Definition chunk_sentences (chunk_size chunk_overlap page_num : Z)
           (sentences : list string) : list chunk :=
  let st := fold_left (loop_step chunk_size chunk_overlap page_num)
                      sentences loop_init in
  match current_chunk st with
  | _ :: _ => emitted st ++ [make_chunk page_num (next_index st) (current_chunk st)]
  | [] => emitted st
  end.

Definition chunk_one_page (chunk_size chunk_overlap : Z) (p : page_text)
  : list chunk :=
  chunk_sentences chunk_size chunk_overlap (pt_page p)
                  (_split_into_sentences (pt_text p)).

Definition _chunk_text (chunk_size chunk_overlap : Z)
           (text_content : list page_text) : list chunk :=
  flat_map (chunk_one_page chunk_size chunk_overlap) text_content.

(** The sentence groups behind the chunks of one page: the same loop,
    recording [current_chunk] where the code joins it into a chunk.
    Used to state properties about the sentences of a chunk. *)
Record group_state := {
  g_closed : list (list string);
  g_current : list string;
  g_length : Z
}.

Definition group_init : group_state :=
  {| g_closed := []; g_current := []; g_length := 0 |}.

Definition group_step (chunk_size chunk_overlap : Z)
           (st : group_state) (sentence : string) : group_state :=
  let sentence_length := len sentence in
  let st :=
    match g_current st with
    | _ :: _ =>
        if g_length st + sentence_length >? chunk_size then
          let '(overlap_sentences, overlap_length) :=
            overlap_loop chunk_overlap (List.rev (g_current st)) [] 0 in
          {| g_closed := g_closed st ++ [g_current st];
             g_current := overlap_sentences;
             g_length := overlap_length |}
        else st
    | [] => st
    end in
  {| g_closed := g_closed st;
     g_current := g_current st ++ [sentence];
     g_length := g_length st + sentence_length |}.

Definition sentence_groups (chunk_size chunk_overlap : Z)
           (sentences : list string) : list (list string) :=
  let st := fold_left (group_step chunk_size chunk_overlap)
                      sentences group_init in
  match g_current st with
  | _ :: _ => g_closed st ++ [g_current st]
  | [] => g_closed st
  end.

End Chunker.

(* ===================================================================== *)
(** ** State, exceptions and the outside world *)
(* ===================================================================== *)

(** A computation over a mutable state [S]: it returns or raises, and in
    both cases leaves a state behind (what was mutated before an exception
    stays mutated). *)
Definition M (S A : Type) : Type := S -> result A * S.

#[global] Instance M_ret {S} : MRet (M S) :=
  fun A (a : A) s => (Ok a, s).
#[global] Instance M_bind {S} : MBind (M S) :=
  fun A B (f : A -> M S B) (m : M S A) s =>
    match m s with
    | (Ok a, s') => f a s'
    | (Raise e, s') => (Raise e, s')
    end.

Definition raise {S A} (e : string) : M S A := fun s => (Raise e, s).

(** [try: m  except Exception as e: h e] *)
Definition try_catch {S A} (m : M S A) (h : string -> M S A) : M S A :=
  fun s =>
    match m s with
    | (Ok a, s') => (Ok a, s')
    | (Raise e, s') => h e s'
    end.

Definition get {S} : M S S := fun s => (Ok s, s).
Definition modify {S} (f : S -> S) : M S unit := fun s => (Ok tt, f s).

(** [for x in l: body x] *)
Fixpoint for_each {S A} (l : list A) (body : A -> M S unit) : M S unit :=
  match l with
  | [] => mret tt
  | x :: rest => body x ;; for_each rest body
  end.

(** [[f x for x in l]] where [f] may raise. *)
Fixpoint map_m {S A B} (f : A -> M S B) (l : list A) : M S (list B) :=
  match l with
  | [] => mret []
  | x :: rest => y ← f x; ys ← map_m f rest; mret (y :: ys)
  end.

(** [str(z)] for an [int]. *)
Definition str_of_int (z : Z) : string :=
  DecimalString.NilEmpty.string_of_int (Z.to_int z).

(** Embedding components and similarity scores are floating-point numbers;
    the model never computes with them and keeps them as opaque numerals. *)
Definition embedding := list Z.
Definition score := Z.

(** A page of the PDF: its text and its tables (each a list of rows). *)
Record pdf_page := {
  page_text_of : option string;
  page_tables : list (list (list cell))
}.

(** The calls into collaborators that may raise. *)
Inductive ext_op :=
| OpOpenPdf (path : string)
| OpExtractTables (page_num : Z)
| OpExtractText (page_num : Z)
| OpEmbed (text : string)
| OpLLM (text : string)
| OpDbQuery
| OpDbExecute
| OpDbCommit.

(** Rows of the relational store. *)
Record document := {
  parsing_status : string;
  error_message : option string
}.

Record metadata := {
  md_document_id : option Z;
  md_fund_id : option Z;
  md_page : Z;
  md_chunk_index : Z;
  md_source : string
}.

Record embedding_row := {
  er_id : Z;
  er_document_id : option Z;
  er_fund_id : option Z;
  er_content : string;
  er_embedding : embedding;
  er_metadata : metadata
}.

Record store := {
  documents : gmap Z document;
  transactions : list (Z * entry);        (* fund id and record *)
  document_embeddings : list embedding_row
}.

(** A row answered to the search query; the score is NULL when the
    database could not compute it. *)
Record search_row := {
  sr_id : Z;
  sr_document_id : option Z;
  sr_fund_id : option Z;
  sr_content : string;
  sr_metadata : metadata;
  sr_score : option score
}.

Record search_result := {
  res_id : Z;
  res_document_id : option Z;
  res_fund_id : option Z;
  res_content : string;
  res_metadata : metadata;
  res_score : score
}.

(** Calls recorded for the statements about the text fallback and the
    status collaborator. *)
Inductive event :=
| EvTextFallback (path : string)
| EvStatus (document_id : Z) (status : string) (error_message : option string).

(** The mutable world: the database session ([session] is the state seen
    inside the open transaction, [committed] the durable one), the id
    sequence of the embeddings table, the number of collaborator calls made
    so far and the recorded calls. *)
Record world := {
  clock : nat;
  committed : store;
  session : store;
  next_id : Z;
  trace : list event
}.

(** Everything the code does not control.  [fault n op] is the exception
    raised by the collaborator call [op] when it is the [n]-th such call of
    the run, if it raises.  [llm_answer] stands for the provider round
    trip of [extract_data_from_text] (prompt, reply, code-fence stripping,
    JSON decoding and per-item conversion): the record lists the function
    returns for a given prompt text.  [db_select] is the answer of the
    database to the search query (filtering, ordering by distance, limit). *)
Record environment := {
  CHUNK_SIZE : Z;
  CHUNK_OVERLAP : Z;
  pdf_pages : string -> list pdf_page;
  fault : nat -> ext_op -> option string;
  embed_query : string -> embedding;
  llm_client : bool;
  llm_answer : string -> list entry * list entry;
  db_select : store -> embedding -> list (string * Z) -> Z -> list search_row
}.

Definition set_session (f : store -> store) (w : world) : world :=
  {| clock := clock w; committed := committed w; session := f (session w);
     next_id := next_id w; trace := trace w |}.

Definition log_event (ev : event) (w : world) : world :=
  {| clock := clock w; committed := committed w; session := session w;
     next_id := next_id w; trace := trace w ++ [ev] |}.

Definition record_event (ev : event) : M world unit := modify (log_event ev).

(** One more collaborator call was made. *)
Definition tick (w : world) : world :=
  {| clock := S (clock w); committed := committed w; session := session w;
     next_id := next_id w; trace := trace w |}.

(** The open transaction becomes durable. *)
Definition commit_world (w : world) : world :=
  {| clock := clock w; committed := session w; session := session w;
     next_id := next_id w; trace := trace w |}.

(** The open transaction is discarded. *)
Definition rollback_world (w : world) : world :=
  {| clock := clock w; committed := committed w; session := committed w;
     next_id := next_id w; trace := trace w |}.

Definition is_fallback (ev : event) : bool :=
  match ev with
  | EvTextFallback _ => true
  | EvStatus _ _ _ => false
  end.

Definition is_status (ev : event) : bool :=
  match ev with
  | EvStatus _ _ _ => true
  | EvTextFallback _ => false
  end.

(** The calls of the text fallback, and the calls of the status
    collaborator, among the recorded ones. *)
Definition fallback_calls (tr : list event) : list event := List.filter is_fallback tr.
Definition status_calls (tr : list event) : list event := List.filter is_status tr.

Section Collaborators.

Variable env : environment.

(** A collaborator call: it advances the clock and raises if the
    environment says so. *)
Definition call (op : ext_op) : M world unit :=
  fun w =>
    match fault env (clock w) op with
    | Some e => (Raise e, tick w)
    | None => (Ok tt, tick w)
    end.

(** [db.commit()] and [db.rollback()] *)
Definition db_commit : M world unit :=
  call OpDbCommit ;;
  modify commit_world.

Definition db_rollback : M world unit := modify rollback_world.

End Collaborators.

(* ===================================================================== *)
(** ** [VectorStore] *)
(* ===================================================================== *)

Module VectorStore.

Import PyStr.

Section WithEnv.

Variable env : environment.

(** [text[:n]] *)
Definition prefix_chars (n : Z) (s : string) : string :=
  String.substring 0 (Z.to_nat n) s.

(** The text handed to the embedding model: at most 8000 characters. *)
Definition truncated (text : string) : string :=
  if len text >? 8000 then prefix_chars 8000 text else text.

Definition _get_embedding (text : string) : M world embedding :=
  try_catch
    (let text := truncated text in
     call env (OpEmbed text) ;;
     mret (embed_query env text))
    (fun e => raise e).

(** The row added by the INSERT statement, with the next id of the
    sequence. *)
Definition insert_row (content : string) (emb : embedding) (md : metadata)
           (w : world) : world :=
  {| clock := clock w; committed := committed w;
     session :=
       {| documents := documents (session w);
          transactions := transactions (session w);
          document_embeddings :=
            document_embeddings (session w) ++
            [{| er_id := next_id w; er_document_id := md_document_id md;
                er_fund_id := md_fund_id md; er_content := content;
                er_embedding := emb; er_metadata := md |}] |};
     next_id := next_id w + 1; trace := trace w |}.

(** The INSERT ... RETURNING id statement. *)
Definition insert_embedding (content : string) (emb : embedding) (md : metadata)
  : M world Z :=
  call env OpDbExecute ;;
  w ← get;
  modify (insert_row content emb md) ;;
  mret (next_id w).

Definition add_document (content : string) (md : metadata) : M world Z :=
  try_catch
    (emb ← _get_embedding content;
     doc_id ← insert_embedding content emb md;
     db_commit env ;;
     mret doc_id)
    (fun e => db_rollback ;; raise e).

(** The conditions built from [filter_metadata]: the keys
    [document_id] and [fund_id] whose value is not [None], in the
    order of the dictionary. *)
Definition filter_conditions (filter_metadata : option (list (string * option Z)))
  : list (string * Z) :=
  match filter_metadata with
  | None => []
  | Some items =>
      flat_map (fun kv =>
                  match snd kv with
                  | Some v =>
                      if String.eqb (fst kv) "document_id"
                         || String.eqb (fst kv) "fund_id"
                      then [(fst kv, v)] else []
                  | None => []
                  end) items
  end.

(** One formatted result; [float(row[5])] raises on NULL. *)
Definition format_row (r : search_row) : M world search_result :=
  match sr_score r with
  | Some sc =>
      mret {| res_id := sr_id r; res_document_id := sr_document_id r;
              res_fund_id := sr_fund_id r; res_content := sr_content r;
              res_metadata := sr_metadata r; res_score := sc |}
  | None => raise "float() argument must be a string or a real number, not 'NoneType'"
  end.

Definition similarity_search (query : string) (k : Z)
           (filter_metadata : option (list (string * option Z)))
  : M world (list search_result) :=
  try_catch
    (query_embedding ← _get_embedding query;
     let conditions := filter_conditions filter_metadata in
     call env OpDbExecute ;;
     w ← get;
     map_m format_row (db_select env (session w) query_embedding conditions k))
    (fun _ => mret []).

End WithEnv.

End VectorStore.

(* ===================================================================== *)
(** ** [TableParser]: reading the PDF and the text fallback *)
(* ===================================================================== *)

Module PdfReader.

Import PyStr.

Section WithEnv.

Variable env : environment.

(** The tables of one page that have a header row and at least one
    more row, numbered from 1. *)
Fixpoint tables_of_page (page_num table_num : Z)
         (page_tables : list (list (list cell))) : list table_info :=
  match page_tables with
  | [] => []
  | table_data :: rest =>
      match table_data with
      | hs :: (r :: rs) =>
          {| page := page_num; table_number := table_num;
             headers := hs; rows := r :: rs |}
          :: tables_of_page page_num (table_num + 1) rest
      | _ => tables_of_page page_num (table_num + 1) rest
      end
  end.

Fixpoint tables_of_pages (page_num : Z) (pages : list pdf_page)
  : M world (list table_info) :=
  match pages with
  | [] => mret []
  | p :: rest =>
      call env (OpExtractTables page_num) ;;
      ts ← tables_of_pages (page_num + 1) rest;
      mret (tables_of_page page_num 1 (page_tables p) ++ ts)
  end.

Definition extract_tables_from_pdf (pdf_path : string) : M world (list table_info) :=
  try_catch
    (call env (OpOpenPdf pdf_path) ;;
     tables_of_pages 1 (pdf_pages env pdf_path))
    (fun e => raise e).

(** [full_text], the texts of the pages each followed by two newlines. *)
Fixpoint full_text_of (page_num : Z) (pages : list pdf_page) : M world string :=
  match pages with
  | [] => mret EmptyString
  | p :: rest =>
      call env (OpExtractText page_num) ;;
      r ← full_text_of (page_num + 1) rest;
      mret (match page_text_of p with
            | Some (String c t) => String c t +:+ newline +:+ newline +:+ r
            | _ => r
            end)
  end.

Definition no_data : list entry * list entry := ([], []).

(** The text fallback.  It returns the capital calls and the
    distributions found ([adjustments] is always empty), and never
    raises. *)
Definition extract_data_from_text (pdf_path : string)
  : M world (list entry * list entry) :=
  record_event (EvTextFallback pdf_path) ;;
  if negb (llm_client env) then mret no_data
  else
    try_catch
      (call env (OpOpenPdf pdf_path) ;;
       full_text ← full_text_of 1 (pdf_pages env pdf_path);
       match strip full_text with
       | EmptyString => mret no_data
       | String _ _ =>
           let prompt_text := VectorStore.prefix_chars 8000 full_text in
           call env (OpLLM prompt_text) ;;
           mret (llm_answer env prompt_text)
       end)
      (fun _ => mret no_data).

End WithEnv.

End PdfReader.

(* ===================================================================== *)
(** ** [DocumentProcessor] *)
(* ===================================================================== *)

(** The [stats] dictionary. *)
Record stats := {
  capital_calls : Z;
  distributions : Z;
  adjustments : Z;
  text_chunks : Z;
  tables_found : Z;
  pages_processed : Z;
  errors : list string
}.

(** The dictionary returned by [process_document]. *)
Record outcome := {
  success : bool;
  out_stats : stats;
  error : option string
}.

Module DocumentProcessor.

Import PyStr.
Export TableParser PdfReader.

Definition stats0 : stats :=
  {| capital_calls := 0; distributions := 0; adjustments := 0;
     text_chunks := 0; tables_found := 0; pages_processed := 0;
     errors := [] |}.

(** The state of one run: the world and the local [stats] dictionary. *)
Definition run_state : Type := world * stats.

Definition lift {A} (m : M world A) : M run_state A :=
  fun '(w, st) => let '(r, w') := m w in (r, (w', st)).

Definition update_stats (f : stats -> stats) : M run_state unit :=
  modify (fun '(w, st) => (w, f st)).

Definition get_stats : M run_state stats :=
  fun '(w, st) => (Ok st, (w, st)).

Definition add_capital_calls (n : Z) (st : stats) : stats :=
  {| capital_calls := capital_calls st + n; distributions := distributions st;
     adjustments := adjustments st; text_chunks := text_chunks st;
     tables_found := tables_found st; pages_processed := pages_processed st;
     errors := errors st |}.
Definition add_distributions (n : Z) (st : stats) : stats :=
  {| capital_calls := capital_calls st; distributions := distributions st + n;
     adjustments := adjustments st; text_chunks := text_chunks st;
     tables_found := tables_found st; pages_processed := pages_processed st;
     errors := errors st |}.
Definition add_adjustments (n : Z) (st : stats) : stats :=
  {| capital_calls := capital_calls st; distributions := distributions st;
     adjustments := adjustments st + n; text_chunks := text_chunks st;
     tables_found := tables_found st; pages_processed := pages_processed st;
     errors := errors st |}.
Definition set_text_chunks (n : Z) (st : stats) : stats :=
  {| capital_calls := capital_calls st; distributions := distributions st;
     adjustments := adjustments st; text_chunks := n;
     tables_found := tables_found st; pages_processed := pages_processed st;
     errors := errors st |}.
Definition set_tables_found (n : Z) (st : stats) : stats :=
  {| capital_calls := capital_calls st; distributions := distributions st;
     adjustments := adjustments st; text_chunks := text_chunks st;
     tables_found := n; pages_processed := pages_processed st;
     errors := errors st |}.
Definition set_pages_processed (n : Z) (st : stats) : stats :=
  {| capital_calls := capital_calls st; distributions := distributions st;
     adjustments := adjustments st; text_chunks := text_chunks st;
     tables_found := tables_found st; pages_processed := n;
     errors := errors st |}.
Definition append_error (msg : string) (st : stats) : stats :=
  {| capital_calls := capital_calls st; distributions := distributions st;
     adjustments := adjustments st; text_chunks := text_chunks st;
     tables_found := tables_found st; pages_processed := pages_processed st;
     errors := errors st ++ [msg] |}.

(** [len(l)] *)
Definition llen {A} (l : list A) : Z := Z.of_nat (length l).

Section WithEnv.

Variable env : environment.

Definition add_transaction (fund_id : Z) (e : entry) (s : store) : store :=
  {| documents := documents s;
     transactions := transactions s ++ [(fund_id, e)];
     document_embeddings := document_embeddings s |}.

(** [self.db.add(obj)] for a transaction row. *)
Definition db_add (fund_id : Z) (e : entry) : M world unit :=
  modify (set_session (add_transaction fund_id e)).

(** The three savers read the keys of their own record kind; another
    dictionary makes the first subscript raise KeyError. *)
Definition _save_capital_calls (data : list entry) (fund_id : Z) : M world unit :=
  for_each data (fun e =>
    match e with
    | CallEntry _ _ _ _ => db_add fund_id e
    | _ => raise "'call_date'"
    end) ;;
  db_commit env.

Definition _save_distributions (data : list entry) (fund_id : Z) : M world unit :=
  for_each data (fun e =>
    match e with
    | DistEntry _ _ _ _ _ => db_add fund_id e
    | _ => raise "'distribution_date'"
    end) ;;
  db_commit env.

Definition _save_adjustments (data : list entry) (fund_id : Z) : M world unit :=
  for_each data (fun e =>
    match e with
    | AdjEntry _ _ _ _ _ _ => db_add fund_id e
    | _ => raise "'adjustment_date'"
    end) ;;
  db_commit env.

Definition set_document (document_id : Z) (status : string)
           (msg : option string) (s : store) : store :=
  {| documents := <[document_id :=
                      {| parsing_status := status; error_message := msg |}]>
                    (documents s);
     transactions := transactions s;
     document_embeddings := document_embeddings s |}.

Definition _update_document_status (document_id : Z) (status : string)
           (msg : option string) : M world unit :=
  record_event (EvStatus document_id status msg) ;;
  try_catch
    (call env OpDbQuery ;;
     w ← get;
     match documents (session w) !! document_id with
     | Some _ =>
         modify (set_session (set_document document_id status msg)) ;;
         db_commit env
     | None => mret tt
     end)
    (fun _ => db_rollback).

(** The pages that have text, numbered from 1. *)
Fixpoint text_of_pages (page_num total : Z) (pages : list pdf_page)
  : M world (list page_text) :=
  match pages with
  | [] => mret []
  | p :: rest =>
      call env (OpExtractText page_num) ;;
      r ← text_of_pages (page_num + 1) total rest;
      mret (match page_text_of p with
            | Some t =>
                match t, strip t with
                | String _ _, String _ _ =>
                    {| pt_page := page_num; pt_text := t;
                       pt_total_pages := total |} :: r
                | _, _ => r
                end
            | None => r
            end)
  end.

Definition _extract_text_content (file_path : string) : M world (list page_text) :=
  try_catch
    (call env (OpOpenPdf file_path) ;;
     let pages := pdf_pages env file_path in
     text_of_pages 1 (llen pages) pages)
    (fun e => raise e).

(** [_chunk_text] with the configured sizes. *)
Definition chunk_configured (text_content : list page_text) : list chunk :=
  Chunker._chunk_text (CHUNK_SIZE env) (CHUNK_OVERLAP env) text_content.

(** Step 2, the body of the loop over the tables. *)
Definition process_table (fund_id : Z) (t : table_info) : M run_state unit :=
  try_catch
    (match classify_table_type t with
     | None => mret tt
     | Some CapitalCalls =>
         let parsed_data := parse_capital_call_table t in
         let validated_data := validate_and_clean_data parsed_data CapitalCalls in
         lift (_save_capital_calls validated_data fund_id) ;;
         update_stats (add_capital_calls (llen validated_data))
     | Some Distributions =>
         let parsed_data := parse_distribution_table t in
         let validated_data := validate_and_clean_data parsed_data Distributions in
         lift (_save_distributions validated_data fund_id) ;;
         update_stats (add_distributions (llen validated_data))
     | Some Adjustments =>
         let parsed_data := parse_adjustment_table t in
         let validated_data := validate_and_clean_data parsed_data Adjustments in
         lift (_save_adjustments validated_data fund_id) ;;
         update_stats (add_adjustments (llen validated_data))
     end)
    (fun e =>
       update_stats (append_error
         ("Error processing table on page " +:+ str_of_int (page t)
          +:+ ": " +:+ e))).

(** Step 2.5, the text fallback and what is done with its answer. *)
Definition text_fallback (file_path : string) (fund_id : Z) : M run_state unit :=
  try_catch
    (llm_data ← lift (extract_data_from_text env file_path);
     (match fst llm_data with
      | _ :: _ =>
          let validated_calls :=
            validate_and_clean_data (fst llm_data) CapitalCalls in
          lift (_save_capital_calls validated_calls fund_id) ;;
          update_stats (add_capital_calls (llen validated_calls))
      | [] => mret tt
      end) ;;
     (match snd llm_data with
      | _ :: _ =>
          let validated_dists :=
            validate_and_clean_data (snd llm_data) Distributions in
          lift (_save_distributions validated_dists fund_id) ;;
          update_stats (add_distributions (llen validated_dists))
      | [] => mret tt
      end))
    (fun e =>
       update_stats (append_error
         ("Error in LLM-based text extraction: " +:+ e))).

Definition store_chunk (file_path : string) (document_id fund_id : Z)
           (c : chunk) : M run_state unit :=
  lift (VectorStore.add_document env (text c)
          {| md_document_id := Some document_id; md_fund_id := Some fund_id;
             md_page := chunk_page c; md_chunk_index := chunk_index c;
             md_source := file_path |}) ;;
  mret tt.

(** Steps 1 and 2: the tables are extracted and processed. *)
Definition process_tables (file_path : string) (fund_id : Z) : M run_state unit :=
  tables ← lift (extract_tables_from_pdf env file_path);
  update_stats (set_tables_found (llen tables)) ;;
  for_each tables (process_table fund_id).

(** The test of step 2.5. *)
Definition needs_fallback (st : stats) : bool :=
  (tables_found st =? 0)
  || ((capital_calls st =? 0) && (distributions st =? 0)).

Definition fallback_if_needed (file_path : string) (fund_id : Z)
  : M run_state unit :=
  st ← get_stats;
  if needs_fallback st then text_fallback file_path fund_id else mret tt.

(** Steps 3 to 5: the text is extracted, chunked and stored. *)
Definition index_text (file_path : string) (document_id fund_id : Z)
  : M run_state unit :=
  text_content ← lift (_extract_text_content file_path);
  update_stats (set_pages_processed (llen text_content)) ;;
  let chunks := chunk_configured text_content in
  update_stats (set_text_chunks (llen chunks)) ;;
  for_each chunks (store_chunk file_path document_id fund_id).

(** Steps 1 to 5. *)
Definition ingest (file_path : string) (document_id fund_id : Z)
  : M run_state unit :=
  process_tables file_path fund_id ;;
  fallback_if_needed file_path fund_id ;;
  index_text file_path document_id fund_id.

(** The body of the outer [try] up to the [return]: steps 1 to 6. *)
Definition process_steps (file_path : string) (document_id fund_id : Z)
  : M run_state unit :=
  ingest file_path document_id fund_id ;;
  lift (_update_document_status document_id "completed" None).

Definition fatal_message (file_path e : string) : string :=
  "Fatal error processing document " +:+ file_path +:+ ": " +:+ e.

Definition process_document_m (file_path : string) (document_id fund_id : Z)
  : M run_state outcome :=
  try_catch
    (process_steps file_path document_id fund_id ;;
     st ← get_stats;
     mret {| success := true; out_stats := st; error := None |})
    (fun e =>
       let error_msg := fatal_message file_path e in
       update_stats (append_error error_msg) ;;
       lift (_update_document_status document_id "failed" (Some error_msg)) ;;
       st ← get_stats;
       mret {| success := false; out_stats := st; error := Some error_msg |}).

(** [process_document]: the run starts from a fresh [stats]. *)
Definition process_document (file_path : string) (document_id fund_id : Z)
           (w : world) : result outcome * world :=
  let '(r, (w', _)) := process_document_m file_path document_id fund_id (w, stats0) in
  (r, w').

End WithEnv.

End DocumentProcessor.


(* ===================================================================== *)
(** ** Predicates used in the statements *)
(* ===================================================================== *)

Module Spec.

Import PyStr.

(** The date key that validation reads for a table type. *)
Definition date_for (ty : table_type) (e : entry) : option datetime :=
  match ty with
  | CapitalCalls => get_call_date e
  | Distributions => get_distribution_date e
  | Adjustments => get_adjustment_date e
  end.

(** The records validation keeps: a date, an amount and, for capital
    calls and distributions, an amount that can be compared with zero. *)
Definition passes (ty : table_type) (e : entry) : bool :=
  match date_for ty e, get_amount e with
  | Some _, Some a =>
      match ty with
      | Adjustments => true
      | _ => negb (PyDecimal.is_nan a)
      end
  | _, _ => false
  end.

(** The records with a date and an amount, whatever the amount. *)
Definition has_date_and_amount (ty : table_type) (e : entry) : bool :=
  match date_for ty e, get_amount e with
  | Some _, Some _ => true
  | _, _ => false
  end.

(** The sentences of a chunk fit the size budget, or the chunk is the
    overlap carried over from the chunk before (within the overlap
    budget, possibly empty) followed by one sentence. *)
Definition within_budget (chunk_size chunk_overlap : Z) (g : list string) : Prop :=
  Chunker.total_len g <= chunk_size \/
  exists (o : list string) (s : string),
    g = o ++ [s] /\ (o = [] \/ Chunker.total_len o <= chunk_overlap).

(** [o] is the overlap taken from the closed chunk [prev]: its longest
    run of trailing sentences whose lengths add up to at most the overlap
    budget. *)
Definition is_overlap (chunk_overlap : Z) (prev o : list string) : Prop :=
  exists pre : list string,
    prev = pre ++ o /\
    (o = [] \/ Chunker.total_len o <= chunk_overlap) /\
    (pre = [] \/
     exists (pre' : list string) (s : string),
       pre = pre' ++ [s] /\ Chunker.total_len o + len s > chunk_overlap).

(** The chunk [next] starts with the overlap of [prev] and goes on with
    at least one new sentence. *)
Definition follows (chunk_overlap : Z) (prev next : list string) : Prop :=
  exists o news : list string,
    next = o ++ news /\ news <> [] /\ is_overlap chunk_overlap prev o.

(** Overlap as a lower bound: the two chunks share a run of
    sentences, trailing in the first and leading in the second, of at
    least the overlap budget's worth of characters. *)
Definition shares_at_least (chunk_overlap : Z) (prev next : list string) : Prop :=
  exists o : list string,
    o `suffix_of` prev /\ o `prefix_of` next /\ chunk_overlap <= Chunker.total_len o.

(** The strict size bound for a chunk of a page with the given
    sentences: within the chunk size, or a lone sentence that is itself
    over the size. *)
Definition strict_size_bound (chunk_size : Z) (sentences : list string)
           (c : chunk) : Prop :=
  char_count c <= chunk_size \/
  exists s : string, In s sentences /\ chunk_size < len s /\ text c = s.

(** Consecutive elements of a list are related. *)
Definition adjacent {A} (R : A -> A -> Prop) (l : list A) : Prop :=
  forall (i : nat) (a b : A), l !! i = Some a -> l !! S i = Some b -> R a b.

(** What the loop over the sentences maintains. *)
Definition group_inv (chunk_size chunk_overlap : Z) (st : Chunker.group_state)
  : Prop :=
  Chunker.g_length st = Chunker.total_len (Chunker.g_current st) /\
  Forall (fun g => g <> [] /\ within_budget chunk_size chunk_overlap g)
         (Chunker.g_closed st) /\
  (Chunker.g_current st = [] \/
   within_budget chunk_size chunk_overlap (Chunker.g_current st)) /\
  adjacent (follows chunk_overlap) (Chunker.g_closed st) /\
  (forall prev, last (Chunker.g_closed st) = Some prev ->
                follows chunk_overlap prev (Chunker.g_current st)) /\
  (Chunker.g_current st = [] -> Chunker.g_closed st = []).

(** A computation keeps a property of the state, whether it returns or
    raises. *)
Definition stable {S A} (P : S -> Prop) (m : M S A) : Prop :=
  forall s, P s -> P (snd (m s)).

(** The document row exists, in the open transaction and durably. *)
Definition has_document (document_id : Z) (w : world) : Prop :=
  is_Some (documents (session w) !! document_id) /\
  is_Some (documents (committed w) !! document_id).

(** The record is a capital call. *)
Definition is_call (e : entry) : Prop :=
  match e with
  | CallEntry _ _ _ _ => True
  | _ => False
  end.

(** The chunks made of sentence groups, numbered from [index]. *)
Fixpoint number_chunks (page_num index : Z) (groups : list (list string))
  : list chunk :=
  match groups with
  | [] => []
  | g :: rest =>
      Chunker.make_chunk page_num index g :: number_chunks page_num (index + 1) rest
  end.

(** The loop that builds chunks and the loop that records sentence
    groups are in step. *)
Definition in_step (page_num : Z) (st : Chunker.loop_state)
           (gst : Chunker.group_state) : Prop :=
  Chunker.emitted st = number_chunks page_num 0 (Chunker.g_closed gst) /\
  Chunker.next_index st = Z.of_nat (length (Chunker.g_closed gst)) /\
  Chunker.current_chunk st = Chunker.g_current gst /\
  Chunker.current_length st = Chunker.g_length gst.

End Spec.

(* ===================================================================== *)
(** ** Concrete inputs used by the examples *)
(* ===================================================================== *)

(** A table headed "Capital Call" and "Distribution Type". *)
Definition mixed_table : table_info :=
  {| page := 1; table_number := 1;
     headers := [Some "Date"; Some "Capital Call"; Some "Distribution Type"; Some "Amount"];
     rows := [[Some "2023-01-15"; Some "Initial"; Some "Dividend"; Some "$1,000"]] |}.

(** A table headed "Distribution" and "Adjustment". *)
Definition distribution_adjustment_table : table_info :=
  {| page := 1; table_number := 2;
     headers := [Some "Date"; Some "Distribution"; Some "Adjustment"];
     rows := [[Some "2023-01-15"; Some "Dividend"; Some "Rebalance"]] |}.

(** A table whose only keyword is "rebalance", and a table headed
    "Recalled Distribution". *)
Definition rebalance_table : table_info :=
  {| page := 2; table_number := 1;
     headers := [Some "Date"; Some "Rebalance"; Some "Amount"];
     rows := [[Some "2024-03-31"; Some "Quarterly"; Some "$10"]] |}.

Definition recalled_table : table_info :=
  {| page := 2; table_number := 2;
     headers := [Some "Date"; Some "Recalled Distribution"; Some "Amount"];
     rows := [[Some "2024-03-31"; Some "Recall"; Some "$10"]] |}.


(** A capital-call table whose amount cell reads "NaN", and the record the
    parser builds from its row. *)
Definition nan_table : table_info :=
  {| page := 1; table_number := 1;
     headers := [Some "Date"; Some "Call Number"; Some "Amount"; Some "Description"];
     rows := [[Some "2023-01-15"; Some "Initial"; Some "NaN"; Some "First call"]] |}.

Definition nan_entry : entry :=
  CallEntry (Some {| year := 2023; month := 1; day := 15 |}) "Initial"
            (Some (PyDecimal.NaN false false 0)) "First call".

(** Records with a date and a negative, zero or positive amount. *)
Definition refund_call : entry :=
  CallEntry (Some {| year := 2023; month := 6; day := 20 |}) "Correction"
            (Some (PyDecimal.Finite true 500000 0)) "Reversal".

Definition undated_call : entry :=
  CallEntry None "Initial" (Some (PyDecimal.Finite false 100 0)) EmptyString.

(** Page texts for the chunker. *)
Definition two_short_sentences : page_text :=
  {| pt_page := 1; pt_text := "aaaa. bbbb."; pt_total_pages := 1 |}.

Definition three_sentences : page_text :=
  {| pt_page := 1; pt_text := "aaaa. bbbb. cccccccc."; pt_total_pages := 1 |}.

Definition three_equal_sentences : page_text :=
  {| pt_page := 1; pt_text := "aaaa. bbbb. cccc."; pt_total_pages := 1 |}.

(** A two-page report: the first page has one capital-call table with two
    rows, the second page has text only. *)
Definition call_table_data : list (list cell) :=
  [[Some "Date"; Some "Call Number"; Some "Amount"; Some "Description"];
   [Some "2023-01-15"; Some "Initial"; Some "$1,000,000"; Some "First call"];
   [Some "2023-06-20"; Some "Follow-on"; Some "$500,000"; Some "Second call"]].

Definition report_pages : list pdf_page :=
  [{| page_text_of := Some "Capital calls of the fund. See the table below.";
      page_tables := [call_table_data] |};
   {| page_text_of := Some "No further activity this quarter.";
      page_tables := [] |}].

Definition call_table : table_info :=
  {| page := 1; table_number := 1;
     headers := [Some "Date"; Some "Call Number"; Some "Amount"; Some "Description"];
     rows := [[Some "2023-01-15"; Some "Initial"; Some "$1,000,000"; Some "First call"];
              [Some "2023-06-20"; Some "Follow-on"; Some "$500,000"; Some "Second call"]] |}.

(** An environment in which every collaborator answers. *)
Definition env_ok : environment :=
  {| CHUNK_SIZE := 1000; CHUNK_OVERLAP := 200;
     pdf_pages := fun _ => report_pages;
     fault := fun _ _ => None;
     embed_query := fun _ => [];
     llm_client := true;
     llm_answer := fun _ => ([], []);
     db_select := fun _ _ _ _ => [] |}.

(** The embedding provider is down. *)
Definition env_embed_down : environment :=
  {| CHUNK_SIZE := 1000; CHUNK_OVERLAP := 200;
     pdf_pages := fun _ => report_pages;
     fault := fun _ op => match op with
                          | OpEmbed _ => Some "embedding provider unavailable"
                          | _ => None
                          end;
     embed_query := fun _ => [];
     llm_client := true;
     llm_answer := fun _ => ([], []);
     db_select := fun _ _ _ _ => [] |}.

(** The database refuses statements. *)
Definition env_db_down : environment :=
  {| CHUNK_SIZE := 1000; CHUNK_OVERLAP := 200;
     pdf_pages := fun _ => report_pages;
     fault := fun _ op => match op with
                          | OpDbExecute => Some "connection lost"
                          | _ => None
                          end;
     embed_query := fun _ => [];
     llm_client := true;
     llm_answer := fun _ => ([], []);
     db_select := fun _ _ _ _ => [] |}.

(** A database holding document 7, not yet processed. *)
Definition store0 : store :=
  {| documents := {[ 7 := {| parsing_status := "pending"; error_message := None |} ]};
     transactions := [];
     document_embeddings := [] |}.

Definition world0 : world :=
  {| clock := 0; committed := store0; session := store0; next_id := 1; trace := [] |}.

Definition metadata0 : metadata :=
  {| md_document_id := Some 7; md_fund_id := Some 3; md_page := 1;
     md_chunk_index := 0; md_source := "report.pdf" |}.

(* ===================================================================== *)
(** ** Further predicates used in the statements *)
(* ===================================================================== *)

Module Props.

Import PyStr.

(** The record is a distribution; the record is an adjustment. *)
Definition is_dist (e : entry) : Prop :=
  match e with
  | DistEntry _ _ _ _ _ => True
  | _ => False
  end.

Definition is_adj (e : entry) : Prop :=
  match e with
  | AdjEntry _ _ _ _ _ _ => True
  | _ => False
  end.

(** The amount of the record is not a NaN. *)
Definition amount_is_number (e : entry) : bool :=
  match get_amount e with
  | Some a => negb (PyDecimal.is_nan a)
  | None => true
  end.

(** The six categories of an adjustment. *)
Definition adjustment_categories : list string :=
  ["recallable_distribution"; "capital_call_adjustment"; "contribution_adjustment";
   "fee_adjustment"; "expense_adjustment"; "other"].

(** The category and the contribution flag of an adjustment agree: the
    category is one of the six; the two contribution categories have the
    flag set, the fee, expense and other categories have it unset. *)
Definition category_agrees (e : entry) : Prop :=
  match e with
  | AdjEntry _ _ cat _ contrib _ =>
      In cat adjustment_categories /\
      (cat = "capital_call_adjustment" \/ cat = "contribution_adjustment" ->
       contrib = true) /\
      (cat = "fee_adjustment" \/ cat = "expense_adjustment" \/ cat = "other" ->
       contrib = false)
  | _ => False
  end.

(** The type field of a record, whatever its kind. *)
Definition entry_type (e : entry) : string :=
  match e with
  | CallEntry _ ty _ _ => ty
  | DistEntry _ ty _ _ _ => ty
  | AdjEntry _ ty _ _ _ _ => ty
  end.

(** The description of a record; the recallable flag of a distribution. *)
Definition entry_description (e : entry) : string :=
  match e with
  | CallEntry _ _ _ ds => ds
  | DistEntry _ _ _ _ ds => ds
  | AdjEntry _ _ _ _ _ ds => ds
  end.

Definition entry_recallable (e : entry) : bool :=
  match e with
  | DistEntry _ _ _ r _ => r
  | _ => false
  end.

(** An adjustment record as it is built when the table has no type
    column. *)
Definition untyped_adjustment (e : entry) : Prop :=
  match e with
  | AdjEntry _ ty cat _ contrib _ =>
      ty = "Adjustment" /\ cat = "other" /\ contrib = false
  | _ => False
  end.

(** No character of the string is white space. *)
Fixpoint no_space (s : string) : bool :=
  match s with
  | EmptyString => true
  | String c s' => negb (isspace c) && no_space s'
  end.

(** The end of the string branch of [_parse_amount], from the test for a
    leading minus sign on: [neg0] is the flag set by the parentheses and
    [body] the text left by the removal of the symbols. *)
Definition signed_read (neg0 : bool) (body : string) : option PyDecimal.t :=
  let '(is_negative, amount_str) :=
    if startswith "-" body then (true, Amount.drop_first body) else (neg0, body) in
  match PyDecimal.of_string amount_str with
  | Some amount => if is_negative then or_none (PyDecimal.neg amount) else Some amount
  | None => None
  end.

(** The overlap sentences carried over from a closed chunk. *)
Definition overlap_of (chunk_overlap : Z) (g : list string) : list string :=
  fst (Chunker.overlap_loop chunk_overlap (List.rev g) [] 0).

(** The sentences of the groups [gs], leaving out of each group the
    overlap carried over from the group before ([prev] for the first). *)
Fixpoint fresh_parts (chunk_overlap : Z) (prev : list string)
         (gs : list (list string)) : list string :=
  match gs with
  | [] => []
  | g :: gs' =>
      drop (length (overlap_of chunk_overlap prev)) g
      ++ fresh_parts chunk_overlap g gs'
  end.

(** What the chunking loop keeps about the sentences read so far: they
    are the fresh parts of the groups built, each group starts with the
    overlap of the group before, and there are no more groups than
    sentences. *)
Definition covers (chunk_overlap : Z) (seen : list string)
           (st : Chunker.group_state) : Prop :=
  match Chunker.g_current st with
  | [] => Chunker.g_closed st = [] /\ seen = []
  | _ :: _ =>
      fresh_parts chunk_overlap [] (Chunker.g_closed st ++ [Chunker.g_current st])
      = seen /\
      (length (overlap_of chunk_overlap (List.last (Chunker.g_closed st) []))
       <= length (Chunker.g_current st))%nat /\
      (length (Chunker.g_closed st) + 1 <= length seen)%nat
  end.

(** [g] is a run of consecutive elements of [l]. *)
Definition is_run {A} (g l : list A) : Prop :=
  exists pre post : list A, l = pre ++ g ++ post.

(** The group before position [k] of [gs]; [first] stands before the
    first group. *)
Definition previous_group (first : list string) (gs : list (list string))
           (k : nat) : list string :=
  match k with
  | O => first
  | Datatypes.S k' => default first (gs !! k')
  end.

(** The sentences of [g] fit the size budget, or [g] is the overlap
    carried over from the group [prev] followed by one sentence. *)
Definition fits (chunk_size chunk_overlap : Z) (prev g : list string) : Prop :=
  Chunker.total_len g <= chunk_size \/
  exists s : string, g = overlap_of chunk_overlap prev ++ [s].

(** Every group of [gs] fits, each with respect to the group before
    ([prev] for the first). *)
Fixpoint budgeted (chunk_size chunk_overlap : Z) (prev : list string)
         (gs : list (list string)) : Prop :=
  match gs with
  | [] => True
  | g :: gs' =>
      fits chunk_size chunk_overlap prev g /\
      budgeted chunk_size chunk_overlap g gs'
  end.

(** What the chunking loop keeps about the size of its groups and their
    place among the sentences read so far. *)
Definition chunk_inv (chunk_size chunk_overlap : Z) (seen : list string)
           (st : Chunker.group_state) : Prop :=
  Chunker.g_length st = Chunker.total_len (Chunker.g_current st) /\
  (Chunker.g_current st = [] -> Chunker.g_closed st = []) /\
  (exists pre : list string, seen = pre ++ Chunker.g_current st) /\
  Forall (fun g => is_run g seen) (Chunker.g_closed st) /\
  (Chunker.g_current st <> [] ->
   budgeted chunk_size chunk_overlap []
            (Chunker.g_closed st ++ [Chunker.g_current st])).

End Props.

(** A capital-call table without a date column, and one whose second row
    is cut short. *)
Definition undated_table : table_info :=
  {| page := 1; table_number := 1;
     headers := [Some "Call Number"; Some "Amount"; Some "Description"];
     rows := [[Some "Initial"; Some "$1,000,000"; Some "First call"]] |}.

Definition short_rows_table : table_info :=
  {| page := 1; table_number := 1;
     headers := [Some "Call Number"; Some "Amount"; Some "Date"];
     rows := [[Some "Initial"; Some "$1,000,000"];
              [None; Some "  "; None];
              [Some "Follow-on"]] |}.

(** A distribution table without a recallable column and without a type
    column. *)
Definition plain_distribution_table : table_info :=
  {| page := 1; table_number := 1;
     headers := [Some "Date"; Some "Amount"];
     rows := [[Some "2023-03-15"; Some "$200,000"];
              [Some "2023-09-20"; Some "$450,000"]] |}.

(** An adjustment table. *)
Definition adjustment_table : table_info :=
  {| page := 3; table_number := 1;
     headers := [Some "Date"; Some "Adjustment Type"; Some "Amount"; Some "Notes"];
     rows := [[Some "2024-01-10"; Some "Recalled capital call"; Some "($25,000)"; Some "Recall"];
              [Some "2024-02-10"; Some "Management Fee"; Some "$50,000"; Some "Annual fee"];
              [Some "2024-03-10"; Some "Contribution true-up"; Some "-$1,000"; None]] |}.

(* ===================================================================== *)
(** ** [VectorStore]: clearing and set-up *)
(* ===================================================================== *)

(** What the database catalog holds of the vector store: the pgvector
    extension, the embeddings table and its ivfflat index. *)
Record catalog := {
  has_extension : bool;
  has_table : bool;
  has_index : bool
}.

(** The catalog as committed and as seen in the open transaction (the
    statements that change it are transactional). *)
Record schema := {
  cat_committed : catalog;
  cat_session : catalog
}.

Module VectorStoreMaintenance.

Section WithEnv.

Variable env : environment.

(** [fund_id = :fund_id] on a row; a NULL fund matches nothing. *)
Definition fund_is (f : Z) (r : embedding_row) : bool :=
  match er_fund_id r with
  | Some g => g =? f
  | None => false
  end.

(** The store after the DELETE statement that [clear] chooses:
    [if fund_id] is false for [None] and for [0]. *)
Definition delete_embeddings (fund_id : option Z) (s : store) : store :=
  {| documents := documents s;
     transactions := transactions s;
     document_embeddings :=
       match fund_id with
       | Some f =>
           if f =? 0 then []
           else List.filter (fun r => negb (fund_is f r)) (document_embeddings s)
       | None => []
       end |}.

Definition clear (fund_id : option Z) : M world unit :=
  try_catch
    (call env OpDbExecute ;;
     modify (set_session (delete_embeddings fund_id)) ;;
     db_commit env)
    (fun _ => db_rollback).

(** The state of the set-up: the world and the catalog. *)
Definition setup_state : Type := world * schema.

Definition on_world {A} (m : M world A) : M setup_state A :=
  fun '(w, c) => let '(r, w') := m w in (r, (w', c)).

Definition set_catalog (f : catalog -> catalog) (c : schema) : schema :=
  {| cat_committed := cat_committed c; cat_session := f (cat_session c) |}.

(** [db.execute] of a statement that changes the catalog. *)
Definition ddl (f : catalog -> catalog) : M setup_state unit :=
  on_world (call env OpDbExecute) ;;
  modify (fun '(w, c) => (w, set_catalog f c)).

Definition create_extension (c : catalog) : catalog :=
  {| has_extension := true; has_table := has_table c; has_index := has_index c |}.
Definition drop_index (c : catalog) : catalog :=
  {| has_extension := has_extension c; has_table := has_table c; has_index := false |}.
Definition create_table (c : catalog) : catalog :=
  {| has_extension := has_extension c; has_table := true; has_index := has_index c |}.
Definition create_index (c : catalog) : catalog :=
  {| has_extension := has_extension c; has_table := has_table c; has_index := true |}.

Definition commit_all : M setup_state unit :=
  on_world (db_commit env) ;;
  modify (fun '(w, c) =>
            (w, {| cat_committed := cat_session c; cat_session := cat_session c |})).

Definition rollback_all : M setup_state unit :=
  on_world db_rollback ;;
  modify (fun '(w, c) =>
            (w, {| cat_committed := cat_committed c; cat_session := cat_committed c |})).

(** [SELECT COUNT( * ) FROM document_embeddings] *)
Definition count_embeddings : M setup_state Z :=
  on_world (call env OpDbExecute) ;;
  s ← get;
  mret (Z.of_nat (length (document_embeddings (session (fst s))))).

Definition _ensure_extension : M setup_state unit :=
  try_catch
    (ddl create_extension ;;
     ddl drop_index ;;
     ddl create_table ;;
     count ← count_embeddings;
     (if count >? 100 then ddl create_index else mret tt) ;;
     commit_all)
    (fun _ => rollback_all).

End WithEnv.

End VectorStoreMaintenance.

Module SearchProps.

(** The database row behind a formatted result. *)
Definition row_of_result (r : search_result) : search_row :=
  {| sr_id := res_id r; sr_document_id := res_document_id r;
     sr_fund_id := res_fund_id r; sr_content := res_content r;
     sr_metadata := res_metadata r; sr_score := Some (res_score r) |}.

(** The row that [add_document] inserts in world [w]. *)
Definition new_row (env : environment) (content : string) (md : metadata) (w : world)
  : embedding_row :=
  {| er_id := next_id w; er_document_id := md_document_id md;
     er_fund_id := md_fund_id md; er_content := content;
     er_embedding := embed_query env (VectorStore.truncated content);
     er_metadata := md |}.

End SearchProps.

(** Embeddings of two funds, and of no fund. *)
Definition row_of_fund (id : Z) (f : option Z) : embedding_row :=
  {| er_id := id; er_document_id := Some 7; er_fund_id := f;
     er_content := "text"; er_embedding := [];
     er_metadata := {| md_document_id := Some 7; md_fund_id := f; md_page := 1;
                       md_chunk_index := 0; md_source := "report.pdf" |} |}.

Definition store_two_funds : store :=
  {| documents := documents store0;
     transactions := [];
     document_embeddings :=
       [row_of_fund 1 (Some 3); row_of_fund 2 (Some 4); row_of_fund 3 None;
        row_of_fund 4 (Some 3)] |}.

Definition world_two_funds : world :=
  {| clock := 0; committed := store_two_funds; session := store_two_funds;
     next_id := 5; trace := [] |}.

Definition catalog0 : catalog :=
  {| has_extension := false; has_table := false; has_index := false |}.

Definition schema0 : schema :=
  {| cat_committed := catalog0; cat_session := catalog0 |}.

(** A database that answers the search with two scored rows, and one
    that answers with a row whose score is NULL. *)
Definition found_rows : list search_row :=
  [{| sr_id := 1; sr_document_id := Some 7; sr_fund_id := Some 3;
      sr_content := "Capital calls of the fund."; sr_metadata := metadata0;
      sr_score := Some 9 |};
   {| sr_id := 2; sr_document_id := Some 7; sr_fund_id := Some 3;
      sr_content := "No further activity this quarter."; sr_metadata := metadata0;
      sr_score := Some 4 |}].

Definition env_found : environment :=
  {| CHUNK_SIZE := 1000; CHUNK_OVERLAP := 200;
     pdf_pages := fun _ => report_pages;
     fault := fun _ _ => None;
     embed_query := fun _ => [];
     llm_client := true;
     llm_answer := fun _ => ([], []);
     db_select := fun _ _ _ _ => found_rows |}.

Module RunProps.

(** The calls of the text fallback that a run makes, given how its table
    step ended: one call, for the file of the run, when the step returned
    and left the counters in need of the fallback; none otherwise. *)
Definition fallback_due (path : string)
           (tables_step : result unit * DocumentProcessor.run_state) : list event :=
  match tables_step with
  | (Ok _, (_, st)) =>
      if DocumentProcessor.needs_fallback st then [EvTextFallback path] else []
  | (Raise _, _) => []
  end.

(** The session after [db.add] of each record of [data]. *)
Definition stage (fund_id : Z) (data : list entry) (w : world) : world :=
  fold_left (fun w' e => set_session (DocumentProcessor.add_transaction fund_id e) w')
            data w.

(** The validated records of a table read as a table of type [ty]. *)
Definition records_of (ty : table_type) (t : table_info) : list entry :=
  match ty with
  | CapitalCalls =>
      TableParser.validate_and_clean_data
        (TableParser.parse_capital_call_table t) CapitalCalls
  | Distributions =>
      TableParser.validate_and_clean_data
        (TableParser.parse_distribution_table t) Distributions
  | Adjustments =>
      TableParser.validate_and_clean_data
        (TableParser.parse_adjustment_table t) Adjustments
  end.

(** The counter of a table type, raised by [n]. *)
Definition counted (ty : table_type) (n : Z) (st : stats) : stats :=
  match ty with
  | CapitalCalls => DocumentProcessor.add_capital_calls n st
  | Distributions => DocumentProcessor.add_distributions n st
  | Adjustments => DocumentProcessor.add_adjustments n st
  end.

(** The message appended to the errors when a table cannot be processed. *)
Definition table_error (t : table_info) (e : string) : string :=
  "Error processing table on page " +:+ str_of_int (page t) +:+ ": " +:+ e.

(** The message appended to the errors when the text fallback fails. *)
Definition fallback_error (e : string) : string :=
  "Error in LLM-based text extraction: " +:+ e.

(** From [st] to [st'] the counters of capital calls and distributions
    did not decrease and the other counters did not change. *)
Definition only_calls_and_distributions_grew (st st' : stats) : Prop :=
  capital_calls st <= capital_calls st' /\
  distributions st <= distributions st' /\
  adjustments st' = adjustments st /\
  text_chunks st' = text_chunks st /\
  tables_found st' = tables_found st /\
  pages_processed st' = pages_processed st.

(** The embeddings row stored for a chunk of the document. *)
Definition row_of_chunk (env : environment) (path : string)
           (document_id fund_id : Z) (c : chunk) (r : embedding_row) : Prop :=
  er_content r = text c /\
  er_embedding r = embed_query env (VectorStore.truncated (text c)) /\
  er_document_id r = Some document_id /\
  er_fund_id r = Some fund_id /\
  er_metadata r = {| md_document_id := Some document_id;
                     md_fund_id := Some fund_id;
                     md_page := chunk_page c;
                     md_chunk_index := chunk_index c;
                     md_source := path |}.

(** From [s] to [s'] the embeddings table gained the rows [rows], last,
    and nothing else changed. *)
Definition gained (rows : list embedding_row) (s s' : store) : Prop :=
  document_embeddings s' = document_embeddings s ++ rows /\
  documents s' = documents s /\
  transactions s' = transactions s.

End RunProps.

(** No LLM client was configured; the PDF cannot be opened. *)
Definition env_no_llm : environment :=
  {| CHUNK_SIZE := 1000; CHUNK_OVERLAP := 200;
     pdf_pages := fun _ => report_pages;
     fault := fun _ _ => None;
     embed_query := fun _ => [];
     llm_client := false;
     llm_answer := fun _ => ([], []);
     db_select := fun _ _ _ _ => [] |}.

Definition env_no_file : environment :=
  {| CHUNK_SIZE := 1000; CHUNK_OVERLAP := 200;
     pdf_pages := fun _ => [];
     fault := fun _ op => match op with
                          | OpOpenPdf _ => Some "No such file or directory"
                          | _ => None
                          end;
     embed_query := fun _ => [];
     llm_client := true;
     llm_answer := fun _ => ([], []);
     db_select := fun _ _ _ _ => [] |}.

Module ReaderProps.

(** A table as [extract_tables_from_pdf] reports it for the pages
    [pages], the first of which has number [first]: it has a data row, and
    it is the table at position [table_number] of page [page], split into
    its first row and the rest. *)
Definition table_of_pdf (first : Z) (pages : list pdf_page) (t : table_info) : Prop :=
  rows t <> [] /\ first <= page t /\ 1 <= table_number t /\
  exists p : pdf_page,
    pages !! Z.to_nat (page t - first) = Some p /\
    page_tables p !! Z.to_nat (table_number t - 1) = Some (headers t :: rows t).

(** A page as [_extract_text_content] reports it: its text is the text
    of the page of that number, which is not blank. *)
Definition text_of_pdf (first total : Z) (pages : list pdf_page) (p : page_text)
  : Prop :=
  first <= pt_page p /\ pt_total_pages p = total /\
  PyStr.strip (pt_text p) <> EmptyString /\
  exists q : pdf_page,
    pages !! Z.to_nat (pt_page p - first) = Some q /\
    page_text_of q = Some (pt_text p).

End ReaderProps.

(* ===================================================================== *)
(** ** The background task [process_document_task] *)
(* ===================================================================== *)

Module DocumentTasks.

Import VectorStoreMaintenance.

Section WithEnv.

Variable env : environment.

(** The exception raised while the embedding model is initialised in the
    constructor of [VectorStore], if any. *)
Variable embeddings_fault : option string.

(** [document.parsing_status = status]; the message is left as it is. *)
Definition set_status (document_id : Z) (status : string) (d : document)
           (s : store) : store :=
  {| documents := <[document_id :=
                      {| parsing_status := status;
                         error_message := error_message d |}]> (documents s);
     transactions := transactions s;
     document_embeddings := document_embeddings s |}.

(** The first statements of the [try]: the document is marked as being
    processed. *)
Definition mark_processing (document_id : Z) : M world unit :=
  call env OpDbQuery ;;
  w ← get;
  match documents (session w) !! document_id with
  | Some d =>
      modify (set_session (set_status document_id "processing" d)) ;;
      db_commit env
  | None => mret tt
  end.

(** [DocumentProcessor(db)]: the table parser is built (its LLM set-up
    catches its own exceptions), then the vector store, which initialises
    the embedding model and ensures the extension. *)
Definition new_processor : M setup_state unit :=
  match embeddings_fault with
  | Some e => raise e
  | None => _ensure_extension env
  end.

(** What comes before the call of [process_document]. *)
Definition prepare (document_id : Z) : M setup_state unit :=
  on_world (mark_processing document_id) ;;
  new_processor.

(** The [except] clause, before it raises again. *)
Definition mark_failed (document_id : Z) (e : string) : M world unit :=
  try_catch
    (call env OpDbQuery ;;
     w ← get;
     match documents (session w) !! document_id with
     | Some _ =>
         modify (set_session
                   (DocumentProcessor.set_document document_id "failed" (Some e))) ;;
         db_commit env
     | None => mret tt
     end)
    (fun _ => mret tt).

(** [db.close()]: what is pending is rolled back. *)
Definition db_close : M setup_state unit := rollback_all.

Definition process_document_task (document_id fund_id : Z) (file_path : string)
  : M setup_state outcome :=
  fun s =>
    let '(r, s1) :=
      try_catch
        (prepare document_id ;;
         on_world (DocumentProcessor.process_document env file_path
                     document_id fund_id))
        (fun e => on_world (mark_failed document_id e) ;; raise e) s in
    let '(_, s2) := db_close s1 in
    (r, s2).

End WithEnv.

End DocumentTasks.

Module SetupProps.

(** The collaborator call [op], when it is call number [n], is answered. *)
Definition answered (env : environment) (n : nat) (op : ext_op) : bool :=
  match fault env n op with
  | None => true
  | Some _ => false
  end.

(** The statements of [_ensure_extension] run from [w] and its commit are
    all answered: the three statements that change the catalog, the count,
    the creation of the index when the count is over 100, and the
    commit. *)
Definition setup_goes_through (env : environment) (w : world) : bool :=
  answered env (clock w) OpDbExecute
  && answered env (S (clock w)) OpDbExecute
  && answered env (S (S (clock w))) OpDbExecute
  && answered env (S (S (S (clock w)))) OpDbExecute
  && (if Z.of_nat (length (document_embeddings (session w))) >? 100
      then answered env (S (S (S (S (clock w))))) OpDbExecute
           && answered env (S (S (S (S (S (clock w)))))) OpDbCommit
      else answered env (S (S (S (S (clock w))))) OpDbCommit).

End SetupProps.

(** Every commit is refused. *)
Definition env_commit_refused : environment :=
  {| CHUNK_SIZE := 1000; CHUNK_OVERLAP := 200;
     pdf_pages := fun _ => report_pages;
     fault := fun n op => match op with
                          | OpDbCommit => Some "commit refused"
                          | _ => None
                          end;
     embed_query := fun _ => [];
     llm_client := true;
     llm_answer := fun _ => ([], []);
     db_select := fun _ _ _ _ => [] |}.

(** The embedding provider fails on the text of the second page. *)
Definition env_embed_fails_on_second_page : environment :=
  {| CHUNK_SIZE := 1000; CHUNK_OVERLAP := 200;
     pdf_pages := fun _ => report_pages;
     fault := fun _ op =>
                match op with
                | OpEmbed t =>
                    if String.eqb t "No further activity this quarter."
                    then Some "embedding provider unavailable" else None
                | _ => None
                end;
     embed_query := fun _ => [];
     llm_client := true;
     llm_answer := fun _ => ([], []);
     db_select := fun _ _ _ _ => [] |}.

(** Every commit is refused, and the PDF has no page. *)
Definition env_empty_commit_refused : environment :=
  {| CHUNK_SIZE := 1000; CHUNK_OVERLAP := 200;
     pdf_pages := fun _ => [];
     fault := fun _ op => match op with
                          | OpDbCommit => Some "commit refused"
                          | _ => None
                          end;
     embed_query := fun _ => [];
     llm_client := true;
     llm_answer := fun _ => ([], []);
     db_select := fun _ _ _ _ => [] |}.
(* ===================================================================== *)
(** * Properties *)
(* ===================================================================== *)

(** ** Strings *)

Section StringFacts.

Import PyStr.

Lemma append_cons (c : ascii) (a b : string) :
  String c a +:+ b = String c (a +:+ b).
Proof. reflexivity. Qed.

Lemma append_nil_l (b : string) : EmptyString +:+ b = b.
Proof. reflexivity. Qed.

Lemma append_nil_r (s : string) : s +:+ EmptyString = s.
Proof.
  induction s as [|c s IH]; [reflexivity|].
  rewrite append_cons. now rewrite IH.
Qed.

Lemma length_append (a b : string) :
  String.length (a +:+ b) = (String.length a + String.length b)%nat.
Proof.
  induction a as [|c a IH]; [reflexivity|].
  rewrite append_cons. simpl. now rewrite IH.
Qed.

Lemma append_assoc (a b c : string) : (a +:+ b) +:+ c = a +:+ (b +:+ c).
Proof.
  induction a as [|x a IH]; [reflexivity|].
  rewrite !append_cons. now rewrite IH.
Qed.

Lemma len_append (a b : string) : len (a +:+ b) = len a + len b.
Proof. unfold len. rewrite length_append. lia. Qed.

Lemma len_nonneg (s : string) : 0 <= len s.
Proof. unfold len. lia. Qed.

Lemma startswith_app_l (a b s : string) :
  startswith (a +:+ b) s = true -> startswith a s = true.
Proof.
  revert s. induction a as [|c a IH]; intros s H; [reflexivity|].
  rewrite append_cons in H.
  destruct s as [|d s]; simpl in *; [discriminate|].
  apply andb_true_iff in H as [Hc Hs].
  rewrite Hc. simpl. now apply IH.
Qed.

Lemma contains_of_startswith (k s : string) :
  startswith k s = true -> contains k s = true.
Proof. intros H. destruct s; simpl in *; rewrite H; reflexivity. Qed.

Lemma contains_cons (k : string) (c : ascii) (s : string) :
  contains k s = true -> contains k (String c s) = true.
Proof. intros H. simpl. rewrite H. apply orb_true_r. Qed.

(** A text that contains [a ++ b] contains [a]. *)
Lemma contains_app_l (a b s : string) :
  contains (a +:+ b) s = true -> contains a s = true.
Proof.
  induction s as [|c s IH]; intros H.
  - simpl in H. rewrite orb_false_r in H.
    apply contains_of_startswith. eapply startswith_app_l; eassumption.
  - cbn [contains] in H. apply orb_true_iff in H as [H|H].
    + apply contains_of_startswith. eapply startswith_app_l; eassumption.
    + apply contains_cons. auto.
Qed.

Lemma startswith_app_contains_r (a b s : string) :
  startswith (a +:+ b) s = true -> contains b s = true.
Proof.
  revert s. induction a as [|c a IH]; intros s H.
  - now apply contains_of_startswith.
  - rewrite append_cons in H.
    destruct s as [|d s]; simpl in H; [discriminate|].
    apply andb_true_iff in H as [_ Hs].
    apply contains_cons. now apply IH.
Qed.

(** A text that contains [a ++ b] contains [b]. *)
Lemma contains_app_r (a b s : string) :
  contains (a +:+ b) s = true -> contains b s = true.
Proof.
  induction s as [|c s IH]; intros H.
  - simpl in H. rewrite orb_false_r in H.
    eapply startswith_app_contains_r; eassumption.
  - cbn [contains] in H. apply orb_true_iff in H as [H|H].
    + eapply startswith_app_contains_r; eassumption.
    + apply contains_cons. auto.
Qed.

Lemma any_in_intro (keywords : list string) (k s : string) :
  In k keywords -> contains k s = true -> any_in keywords s = true.
Proof.
  intros Hin Hc. unfold any_in. apply existsb_exists. exists k. split; assumption.
Qed.

End StringFacts.

(** ** The classifier *)

Section ClassifierFacts.

Import PyStr Classifier.

(** The decision list read off the code. *)
Lemma classify_cases (t : table_info) :
  let text := text_to_check t in
  (any_in CAPITAL_CALL_KEYWORDS text = true ->
   classify_table_type t = Some CapitalCalls) /\
  (any_in CAPITAL_CALL_KEYWORDS text = false ->
   any_in DISTRIBUTION_KEYWORDS text = true ->
   classify_table_type t = Some Distributions) /\
  (any_in CAPITAL_CALL_KEYWORDS text = false ->
   any_in DISTRIBUTION_KEYWORDS text = false ->
   any_in ADJUSTMENT_KEYWORDS text = true ->
   classify_table_type t = Some Adjustments) /\
  (any_in CAPITAL_CALL_KEYWORDS text = false ->
   any_in DISTRIBUTION_KEYWORDS text = false ->
   any_in ADJUSTMENT_KEYWORDS text = false ->
   classify_table_type t = None).
Proof.
  unfold classify_table_type. cbv zeta.
  repeat split; intros; repeat match goal with H : _ = _ |- _ => rewrite H end;
    reflexivity.
Qed.

(** The two adjustment keywords that can never decide a classification. *)
Lemma recalled_distribution_shadowed (s : string) :
  contains "recalled distribution" s = true -> contains "distribution" s = true.
Proof. apply (contains_app_r "recalled " "distribution"). Qed.

Lemma capital_call_adjustment_shadowed (s : string) :
  contains "capital call adjustment" s = true -> contains "capital call" s = true.
Proof. apply (contains_app_l "capital call" " adjustment"). Qed.

End ClassifierFacts.

(** C5.  Classification takes the first matching category in the order
    capital call, distribution, adjustment.  A table whose text holds a
    capital-call keyword and a keyword of another category is a capital-call
    table, in particular one that holds both "capital call" and
    "distribution"; a table with no capital-call keyword that holds a
    distribution keyword and an adjustment keyword is a distribution
    table. *)
Theorem classify_first_match_wins (t : table_info) :
  let text := Classifier.text_to_check t in
  (forall kc k,
      In kc Classifier.CAPITAL_CALL_KEYWORDS ->
      In k (Classifier.DISTRIBUTION_KEYWORDS ++ Classifier.ADJUSTMENT_KEYWORDS) ->
      PyStr.contains kc text = true ->
      PyStr.contains k text = true ->
      Classifier.classify_table_type t = Some CapitalCalls) /\
  (PyStr.contains "capital call" text = true ->
   PyStr.contains "distribution" text = true ->
   Classifier.classify_table_type t = Some CapitalCalls) /\
  (forall kd ka,
      In kd Classifier.DISTRIBUTION_KEYWORDS ->
      In ka Classifier.ADJUSTMENT_KEYWORDS ->
      PyStr.any_in Classifier.CAPITAL_CALL_KEYWORDS text = false ->
      PyStr.contains kd text = true ->
      PyStr.contains ka text = true ->
      Classifier.classify_table_type t = Some Distributions).
Proof.
  intros text. destruct (classify_cases t) as (Hc & Hd & _ & _).
  fold text in Hc, Hd. repeat split.
  - intros kc k Hkc _ Hin _. apply Hc. eapply any_in_intro; eassumption.
  - intros Hcc _. apply Hc.
    apply (any_in_intro _ "capital call"); [|assumption]. simpl. auto.
  - intros kd ka Hkd _ Hno Hin _. apply Hd; [assumption|].
    eapply any_in_intro; eassumption.
Qed.

Lemma classify_first_match_wins_witness :
  Classifier.classify_table_type mixed_table = Some CapitalCalls /\
  Classifier.classify_table_type distribution_adjustment_table = Some Distributions.
Proof.
  split.
  - apply (proj1 (proj2 (classify_first_match_wins mixed_table))); reflexivity.
  - apply (proj2 (proj2 (classify_first_match_wins distribution_adjustment_table))
                 "distribution" "adjustment");
      first [reflexivity | simpl; tauto].
Defined.

(** C10.  The adjustment keywords "recalled distribution" and "capital
    call adjustment" never decide a classification: a text that holds the
    first holds the distribution keyword "distribution", a text that holds
    the second holds the capital-call keyword "capital call".  A table is
    an adjustment table exactly when its text holds "adjustment" or
    "rebalance" and no capital-call or distribution keyword. *)
Theorem adjustment_only_by_adjustment_or_rebalance (t : table_info) :
  let text := Classifier.text_to_check t in
  (PyStr.contains "recalled distribution" text = true ->
   PyStr.any_in Classifier.DISTRIBUTION_KEYWORDS text = true /\
   Classifier.classify_table_type t <> Some Adjustments) /\
  (PyStr.contains "capital call adjustment" text = true ->
   PyStr.any_in Classifier.CAPITAL_CALL_KEYWORDS text = true /\
   Classifier.classify_table_type t = Some CapitalCalls) /\
  (Classifier.classify_table_type t = Some Adjustments <->
   (PyStr.contains "adjustment" text = true \/ PyStr.contains "rebalance" text = true) /\
   PyStr.any_in Classifier.CAPITAL_CALL_KEYWORDS text = false /\
   PyStr.any_in Classifier.DISTRIBUTION_KEYWORDS text = false).
Proof.
  intros text.
  assert (Hrd : PyStr.contains "recalled distribution" text = true ->
                PyStr.any_in Classifier.DISTRIBUTION_KEYWORDS text = true).
  { intros H. apply (any_in_intro _ "distribution"); [simpl; auto|].
    now apply recalled_distribution_shadowed. }
  assert (Hca : PyStr.contains "capital call adjustment" text = true ->
                PyStr.any_in Classifier.CAPITAL_CALL_KEYWORDS text = true).
  { intros H. apply (any_in_intro _ "capital call"); [simpl; auto|].
    now apply capital_call_adjustment_shadowed. }
  assert (Hadj : PyStr.any_in Classifier.ADJUSTMENT_KEYWORDS text =
                 PyStr.contains "adjustment" text || PyStr.contains "rebalance" text
                 || PyStr.contains "recalled distribution" text
                 || PyStr.contains "capital call adjustment" text).
  { unfold PyStr.any_in, Classifier.ADJUSTMENT_KEYWORDS. simpl.
    rewrite orb_false_r, !orb_assoc. reflexivity. }
  unfold Classifier.classify_table_type. fold text.
  split; [|split].
  - intros H. split; [auto|].
    destruct (PyStr.any_in Classifier.CAPITAL_CALL_KEYWORDS text); [discriminate|].
    rewrite (Hrd H). discriminate.
  - intros H. split; [auto|]. now rewrite (Hca H).
  - destruct (PyStr.any_in Classifier.CAPITAL_CALL_KEYWORDS text) eqn:Ecc.
    { split; [discriminate | intros (_ & ? & _); discriminate]. }
    destruct (PyStr.any_in Classifier.DISTRIBUTION_KEYWORDS text) eqn:Ed.
    { split; [discriminate | intros (_ & _ & ?); discriminate]. }
    rewrite Hadj.
    destruct (PyStr.contains "recalled distribution" text) eqn:Erd.
    { specialize (Hrd eq_refl). discriminate. }
    destruct (PyStr.contains "capital call adjustment" text) eqn:Eca.
    { specialize (Hca eq_refl). discriminate. }
    rewrite !orb_false_r.
    destruct (PyStr.contains "adjustment" text), (PyStr.contains "rebalance" text);
      simpl; split; intros H; try discriminate; try tauto;
      destruct H as ([?|?] & _); discriminate.
Qed.

Lemma adjustment_only_by_adjustment_or_rebalance_witness :
  Classifier.classify_table_type rebalance_table = Some Adjustments /\
  Classifier.classify_table_type recalled_table <> Some Adjustments.
Proof.
  split.
  - apply (proj2 (proj2 (adjustment_only_by_adjustment_or_rebalance rebalance_table))).
    repeat split; [right|..]; reflexivity.
  - apply (proj1 (adjustment_only_by_adjustment_or_rebalance recalled_table)).
    reflexivity.
Defined.

(** ** Amounts *)

Section AmountFacts.

Import PyStr PyDecimal Amount.

(** A non-zero value that fits the context is left alone by the
    rounding step. *)
Lemma fix_finite_id (sg : bool) (c : N) (e : Z) :
  c <> 0%N -> ndigits c <= prec -> Etiny <= e <= Etop ->
  fix_finite sg c e = Ok (Finite sg c e).
Proof.
  intros Hc Hd [He1 He2]. unfold fix_finite.
  destruct (N.eqb_spec c 0) as [->|_]; [congruence|].
  destruct (Z.gtb_spec (ndigits c + e - prec) Etop) as [H|_]; [lia|].
  destruct (Z.ltb_spec (ndigits c + e - prec) Etiny) as [_|_].
  - destruct (Z.ltb_spec e Etiny); [lia | reflexivity].
  - destruct (Z.ltb_spec e (ndigits c + e - prec)); [lia | reflexivity].
Qed.

Lemma neg_finite (sg : bool) (c : N) (e : Z) :
  c <> 0%N -> ndigits c <= prec -> Etiny <= e <= Etop ->
  neg (Finite sg c e) = Ok (Finite (negb sg) c e).
Proof.
  intros Hc Hd He. unfold neg.
  destruct (N.eqb_spec c 0) as [->|_]; [congruence|].
  now apply fix_finite_id.
Qed.

(** The string branch when the text is parenthesised and a minus sign
    leads what is left after the symbols are removed. *)
Lemma parse_amount_parenthesised_minus (s : string) :
  let a := strip s in
  let body := remove_chars is_amount_symbol a in
  startswith "(" a = true ->
  endswith ")" a = true ->
  startswith "-" body = true ->
  _parse_amount (AStr s) =
  match of_string (drop_first body) with
  | Some d => or_none (neg d)
  | None => None
  end.
Proof.
  intros a body Hp He Hm. unfold _parse_amount. fold a.
  destruct a as [|c a'] eqn:Ea; [discriminate|].
  rewrite Hp, He. fold body. rewrite Hm. cbv beta iota zeta.
  destruct (of_string (drop_first body)); reflexivity.
Qed.

End AmountFacts.

(** C6.  [_parse_amount] on the four sample strings, and single negation:
    "$1,000,000.00" is 1000000.00, "(500,000)" and "-$500,000" are
    -500000.00, "not-a-number" is null, "(-500)" is -500; for every string
    that is parenthesised and whose text after symbol stripping starts
    with a minus sign, the result is the decimal read from the rest,
    negated once (its sign flipped once when it is a non-zero number that
    fits the context). *)
Theorem parse_amount_samples_and_single_negation :
  Amount._parse_amount (AStr "$1,000,000.00")
    = Some (PyDecimal.Finite false 100000000 (-2)) /\
  (Amount._parse_amount (AStr "(500,000)") = Some (PyDecimal.Finite true 500000 0) /\
   PyDecimal.same_value (PyDecimal.Finite true 500000 0)
                        (PyDecimal.Finite true 50000000 (-2)) = true) /\
  Amount._parse_amount (AStr "-$500,000") = Some (PyDecimal.Finite true 500000 0) /\
  Amount._parse_amount (AStr "not-a-number") = None /\
  Amount._parse_amount (AStr "(-500)") = Some (PyDecimal.Finite true 500 0) /\
  (forall s : string,
      let a := PyStr.strip s in
      let body := PyStr.remove_chars Amount.is_amount_symbol a in
      PyStr.startswith "(" a = true ->
      PyStr.endswith ")" a = true ->
      PyStr.startswith "-" body = true ->
      Amount._parse_amount (AStr s) =
        match PyDecimal.of_string (Amount.drop_first body) with
        | Some d => or_none (PyDecimal.neg d)
        | None => None
        end /\
      (forall sg c e,
          PyDecimal.of_string (Amount.drop_first body) = Some (PyDecimal.Finite sg c e) ->
          c <> 0%N ->
          PyDecimal.ndigits c <= PyDecimal.prec ->
          PyDecimal.Etiny <= e <= PyDecimal.Etop ->
          Amount._parse_amount (AStr s) = Some (PyDecimal.Finite (negb sg) c e))).
Proof.
  split; [vm_compute; reflexivity|].
  split; [split; vm_compute; reflexivity|].
  split; [vm_compute; reflexivity|].
  split; [vm_compute; reflexivity|].
  split; [vm_compute; reflexivity|].
  intros s a body Hp He Hm. split.
  - now apply parse_amount_parenthesised_minus.
  - intros sg c e Hd Hc Hn Hb.
    rewrite parse_amount_parenthesised_minus by assumption.
    fold a. fold body. rewrite Hd, neg_finite by assumption. reflexivity.
Qed.

Lemma parse_amount_samples_and_single_negation_witness :
  Amount._parse_amount (AStr " (-$1,250.75) ")
    = Some (PyDecimal.Finite true 125075 (-2)).
Proof.
  destruct parse_amount_samples_and_single_negation as (_ & _ & _ & _ & _ & H).
  destruct (H " (-$1,250.75) ") as [_ H2].
  - vm_compute. reflexivity.
  - vm_compute. reflexivity.
  - vm_compute. reflexivity.
  - apply (H2 false 125075%N (-2)).
    + vm_compute. reflexivity.
    + discriminate.
    + vm_compute. discriminate.
    + vm_compute. split; discriminate.
Defined.

(** ** Dates *)

Section DateFacts.

Import PyStr Strptime DateParser.

Lemma lstrip_all_space (s : string) : all_space s = true -> lstrip s = EmptyString.
Proof.
  induction s as [|c s IH]; simpl; [reflexivity|].
  intros H. apply andb_true_iff in H as [Hc Hs]. rewrite Hc. auto.
Qed.

Lemma strip_all_space (s : string) : all_space s = true -> strip s = EmptyString.
Proof. intros H. unfold strip. now rewrite lstrip_all_space. Qed.

(** The loop over the formats returns the parse of the first format
    that succeeds. *)
Lemma try_formats_some (fs : list string) (s : string) (d : datetime) :
  try_formats fs s = Some d <->
  exists (i : nat) (fmt : string),
    fs !! i = Some fmt /\ strptime s fmt = Some d /\
    forall (j : nat) (fmt' : string),
      (j < i)%nat -> fs !! j = Some fmt' -> strptime s fmt' = None.
Proof.
  induction fs as [|f fs IH]; simpl.
  - split; [discriminate | intros (i & fmt & H & _); destruct i; discriminate].
  - destruct (strptime s f) as [d0|] eqn:Ef.
    + split.
      * intros H. exists 0%nat, f. repeat split; [congruence|]. intros j ? Hj. lia.
      * intros (i & fmt & Hi & Hs & Hmin). destruct i as [|i].
        -- simpl in Hi. congruence.
        -- specialize (Hmin 0%nat f ltac:(lia) eq_refl). congruence.
    + rewrite IH. split.
      * intros (i & fmt & Hi & Hs & Hmin). exists (S i), fmt.
        repeat split; [assumption..|].
        intros [|j] fmt' Hj Hf; simpl in Hf; [congruence|].
        eapply Hmin; [|eassumption]. lia.
      * intros (i & fmt & Hi & Hs & Hmin). destruct i as [|i].
        -- simpl in Hi. congruence.
        -- exists i, fmt. repeat split; [assumption..|].
           intros j fmt' Hj Hf. apply (Hmin (S j)); [lia | assumption].
Qed.

Lemma try_formats_none (fs : list string) (s : string) :
  (forall fmt, In fmt fs -> strptime s fmt = None) -> try_formats fs s = None.
Proof.
  induction fs as [|f fs IH]; intros H; simpl; [reflexivity|].
  rewrite (H f) by (simpl; auto). apply IH. intros fmt Hin. apply H. simpl. auto.
Qed.

(** No listed format matches the empty string. *)
Lemma formats_reject_empty (fmt : string) :
  In fmt date_formats -> strptime EmptyString fmt = None.
Proof.
  unfold date_formats. simpl.
  intros H. repeat (destruct H as [<-|H]; [reflexivity|]). destruct H.
Qed.

End DateFacts.

(** C7.  [_parse_date] tries the formats YYYY-MM-DD, MM/DD/YYYY,
    DD/MM/YYYY, YYYY/MM/DD, MM-DD-YYYY, DD-MM-YYYY, the two long-month
    forms and YYYYMMDD in this order and returns the parse of the first
    one that succeeds; "03-04-2023" is read month first, as March 4 (the
    later day-first format would read April 3); a blank string and a
    string that no listed format matches give null. *)
Theorem parse_date_first_format_wins (s : string) :
  DateParser.date_formats =
    ["%Y-%m-%d"; "%m/%d/%Y"; "%d/%m/%Y"; "%Y/%m/%d"; "%m-%d-%Y"; "%d-%m-%Y";
     "%B %d, %Y"; "%b %d, %Y"; "%Y%m%d"] /\
  (forall d : datetime,
      DateParser._parse_date (DStr s) = Some d <->
      exists (i : nat) (fmt : string),
        DateParser.date_formats !! i = Some fmt /\
        Strptime.strptime (PyStr.strip s) fmt = Some d /\
        forall (j : nat) (fmt' : string),
          (j < i)%nat -> DateParser.date_formats !! j = Some fmt' ->
          Strptime.strptime (PyStr.strip s) fmt' = None) /\
  (PyStr.all_space s = true -> DateParser._parse_date (DStr s) = None) /\
  ((forall fmt, In fmt DateParser.date_formats ->
                Strptime.strptime (PyStr.strip s) fmt = None) ->
   DateParser._parse_date (DStr s) = None) /\
  DateParser._parse_date (DStr "03-04-2023")
    = Some {| year := 2023; month := 3; day := 4 |} /\
  Strptime.strptime "03-04-2023" "%d-%m-%Y"
    = Some {| year := 2023; month := 4; day := 3 |}.
Proof.
  split; [reflexivity|]. split; [|split; [|split; [|split]]].
  - intros d. unfold DateParser._parse_date.
    destruct (PyStr.strip s) as [|c r] eqn:Es.
    + split; [discriminate|].
      intros (i & fmt & Hi & Hs & _).
      rewrite formats_reject_empty in Hs; [discriminate|].
      apply list_elem_of_In, list_elem_of_lookup. eauto.
    + apply try_formats_some.
  - intros H. unfold DateParser._parse_date. now rewrite strip_all_space.
  - intros H. unfold DateParser._parse_date.
    destruct (PyStr.strip s); [reflexivity|]. now apply try_formats_none.
  - vm_compute. reflexivity.
  - vm_compute. reflexivity.
Qed.

Lemma parse_date_first_format_wins_witness :
  DateParser._parse_date (DStr "   ") = None /\
  DateParser._parse_date (DStr "invalid-date") = None /\
  DateParser._parse_date (DStr "15-01-2023")
    = Some {| year := 2023; month := 1; day := 15 |}.
Proof.
  split; [|split].
  - destruct (parse_date_first_format_wins "   ") as (_ & _ & Hblank & _).
    apply Hblank. reflexivity.
  - destruct (parse_date_first_format_wins "invalid-date") as (_ & _ & _ & Hnone & _).
    apply Hnone. simpl. intros fmt H.
    repeat (destruct H as [<-|H]; [vm_compute; reflexivity|]). destruct H.
  - destruct (parse_date_first_format_wins "15-01-2023") as (_ & Hfirst & _).
    apply Hfirst.
    exists 5%nat, "%d-%m-%Y". split; [reflexivity|]. split; [vm_compute; reflexivity|].
    intros j fmt' Hj Hf.
    do 5 (destruct j as [|j]; [injection Hf as <-; vm_compute; reflexivity|]).
    lia.
Defined.

(** ** Validation *)

Section ValidationFacts.

Import PyDecimal TableParser Spec.

(** The loop keeps an entry exactly when [passes] holds. *)
Lemma retained_passes (ty : table_type) (e : entry) :
  retained ty e = passes ty e.
Proof.
  unfold retained, passes, check_entry, date_for.
  destruct ty, e as [d ? a ?|d ? a ? ?|d ? ? a ? ?]; simpl;
    try reflexivity; destruct d; try reflexivity;
    destruct a as [[| |]|]; reflexivity.
Qed.

Lemma validate_is_filter (data : list entry) (ty : table_type) :
  validate_and_clean_data data ty = List.filter (passes ty) data.
Proof.
  unfold validate_and_clean_data.
  induction data as [|e data IH]; simpl; [reflexivity|].
  rewrite retained_passes, IH. destruct (passes ty e); reflexivity.
Qed.

Lemma warnings_adjustments (data : list entry) :
  validation_warnings data Adjustments = [].
Proof.
  unfold validation_warnings.
  induction data as [|e data IH]; simpl; [reflexivity|].
  rewrite IH.
  assert (warned_about Adjustments e = false) as ->; [|reflexivity].
  unfold warned_about, check_entry.
  destruct (get_adjustment_date e), (get_amount e); reflexivity.
Qed.

Lemma in_warnings (data : list entry) (ty : table_type) (e : entry) :
  In e (validation_warnings data ty) <-> In e data /\ warned_about ty e = true.
Proof.
  unfold validation_warnings. rewrite in_flat_map. split.
  - intros (x & Hin & Hx). destruct (warned_about ty x) eqn:E; simpl in Hx;
      [destruct Hx as [<-|[]]; auto | destruct Hx].
  - intros [Hin Hw]. exists e. rewrite Hw. simpl. auto.
Qed.

End ValidationFacts.

(** C8, as stated, fails: the capital-call row whose amount cell reads
    "NaN" parses to a record with a date and a non-null amount, and
    validation drops it, because the comparison of its amount with zero
    raises and the entry is skipped. *)
Lemma validate_drops_a_dated_record_with_amount :
  TableParser.parse_capital_call_table nan_table = [nan_entry] /\
  get_call_date nan_entry <> None /\
  get_amount nan_entry <> None /\
  Spec.has_date_and_amount CapitalCalls nan_entry = true /\
  TableParser.validate_and_clean_data [nan_entry] CapitalCalls = [] /\
  TableParser.validate_and_clean_data [nan_entry] CapitalCalls
    <> List.filter (Spec.has_date_and_amount CapitalCalls) [nan_entry].
Proof.
  repeat split; try (vm_compute; reflexivity); vm_compute; discriminate.
Qed.

(** C8, amended.  Validation keeps, in order, exactly the records that
    have a date, an amount and, for capital calls and distributions, an
    amount that is not a NaN.  For capital calls and distributions a kept
    record with a non-positive amount stays in the output and is logged;
    for adjustments every dated record with an amount is kept, whatever
    the amount, and nothing is logged. *)
Theorem validate_keeps_dated_records (data : list entry) (ty : table_type) :
  TableParser.validate_and_clean_data data ty = List.filter (Spec.passes ty) data /\
  (forall (e : entry) (a : PyDecimal.t),
      In e data ->
      ty <> Adjustments ->
      Spec.date_for ty e <> None ->
      get_amount e = Some a ->
      PyDecimal.le_zero a = Ok true ->
      In e (TableParser.validate_and_clean_data data ty) /\
      In e (TableParser.validation_warnings data ty)) /\
  (forall (e : entry) (a : PyDecimal.t),
      In e data ->
      ty = Adjustments ->
      Spec.date_for ty e <> None ->
      get_amount e = Some a ->
      In e (TableParser.validate_and_clean_data data ty)) /\
  (ty = Adjustments -> TableParser.validation_warnings data ty = []).
Proof.
  split; [apply validate_is_filter|]. split; [|split].
  - intros e a Hin Hty Hd Ha Hle.
    assert (Hw : TableParser.warned_about ty e = true).
    { unfold TableParser.warned_about, TableParser.check_entry.
      unfold Spec.date_for in Hd.
      destruct ty; [| |congruence]; rewrite Ha;
        [destruct (get_call_date e) | destruct (get_distribution_date e)];
        try congruence; rewrite Hle; reflexivity. }
    split.
    + rewrite validate_is_filter. apply filter_In. split; [assumption|].
      rewrite <- retained_passes. unfold TableParser.retained.
      unfold TableParser.warned_about in Hw.
      destruct (TableParser.check_entry ty e) as [[|w]|]; congruence.
    + apply in_warnings. auto.
  - intros e a Hin -> Hd Ha.
    rewrite validate_is_filter. apply filter_In. split; [assumption|].
    unfold Spec.passes. rewrite Ha.
    destruct (Spec.date_for Adjustments e); [reflexivity | congruence].
  - intros ->. apply warnings_adjustments.
Qed.

Lemma validate_keeps_dated_records_witness :
  In refund_call
     (TableParser.validate_and_clean_data [undated_call; refund_call; nan_entry]
                                          CapitalCalls) /\
  In refund_call
     (TableParser.validation_warnings [undated_call; refund_call; nan_entry]
                                      CapitalCalls).
Proof.
  destruct (validate_keeps_dated_records [undated_call; refund_call; nan_entry]
                                         CapitalCalls) as (_ & H & _).
  apply (H refund_call (PyDecimal.Finite true 500000 0)).
  - simpl. auto.
  - discriminate.
  - discriminate.
  - reflexivity.
  - reflexivity.
Defined.

(** ** The chunker *)

Section ChunkerFacts.

Import PyStr Chunker Spec.

Variables chunk_size chunk_overlap : Z.

Lemma total_len_app (a b : list string) :
  total_len (a ++ b) = total_len a + total_len b.
Proof. induction a as [|x a IH]; simpl; [reflexivity | rewrite IH; lia]. Qed.

Lemma total_len_nonneg (a : list string) : 0 <= total_len a.
Proof.
  induction a as [|x a IH]; simpl; [lia|]. pose proof (len_nonneg x). lia.
Qed.

(** The length of a chunk text: the sentences and one space between
    two sentences. *)
Lemma len_join (g : list string) :
  g <> [] -> len (join " " g) = total_len g + (Z.of_nat (length g) - 1).
Proof.
  induction g as [|x g IH]; [congruence|]. intros _.
  destruct g as [|y g].
  - simpl. lia.
  - change (join " " (x :: y :: g)) with (x +:+ " " +:+ join " " (y :: g)).
    rewrite !len_append, IH by discriminate.
    change (len " ") with 1. simpl total_len. simpl length. lia.
Qed.

Lemma overlap_loop_spec (rest acc : list string) :
  (acc = [] \/ total_len acc <= chunk_overlap) ->
  exists taken remaining : list string,
    rest = taken ++ remaining /\
    overlap_loop chunk_overlap rest acc (total_len acc)
      = (List.rev taken ++ acc, total_len (List.rev taken ++ acc)) /\
    (List.rev taken ++ acc = [] \/
     total_len (List.rev taken ++ acc) <= chunk_overlap) /\
    (remaining = [] \/
     exists (s : string) (r : list string),
       remaining = s :: r /\
       total_len (List.rev taken ++ acc) + len s > chunk_overlap).
Proof.
  revert acc. induction rest as [|s rest IH]; intros acc Hacc.
  - exists [], []. simpl. auto.
  - simpl. destruct (Z.leb_spec (total_len acc + len s) chunk_overlap) as [Hle|Hgt].
    + destruct (IH (s :: acc)) as (taken & remaining & -> & Hrun & Hfit & Hmax).
      { right. simpl. lia. }
      exists (s :: taken), remaining.
      assert (Heq : List.rev (s :: taken) ++ acc = List.rev taken ++ s :: acc).
      { simpl. rewrite <- app_assoc. reflexivity. }
      rewrite Heq. repeat split; try assumption.
      replace (total_len acc + len s) with (total_len (s :: acc)) by (simpl; lia).
      exact Hrun.
    + exists [], (s :: rest). simpl. repeat split; [assumption|].
      right. exists s, rest. split; [reflexivity | lia].
Qed.

(** The overlap the code computes from a closed chunk. *)
Lemma overlap_of_chunk (current : list string) :
  exists o : list string,
    overlap_loop chunk_overlap (List.rev current) [] 0 = (o, total_len o) /\
    is_overlap chunk_overlap current o.
Proof.
  destruct (overlap_loop_spec (List.rev current) []) as
      (taken & remaining & Hsplit & Hrun & Hfit & Hmax); [auto|].
  rewrite app_nil_r in *. simpl in Hrun.
  exists (List.rev taken). split; [exact Hrun|].
  exists (List.rev remaining). split; [|split].
  - rewrite <- rev_app_distr, <- Hsplit, rev_involutive. reflexivity.
  - destruct Hfit as [H|H]; auto.
  - destruct Hmax as [->|(s & r & -> & Hs)]; [auto|].
    right. exists (List.rev r), s. simpl. auto.
Qed.

Lemma adjacent_snoc {A} (R : A -> A -> Prop) (l : list A) (x : A) :
  adjacent R l ->
  (forall p, last l = Some p -> R p x) ->
  adjacent R (l ++ [x]).
Proof.
  intros Hadj Hlast i a b Ha Hb.
  destruct (decide (S i < length l)%nat) as [Hlt|Hge].
  - rewrite lookup_app_l in Ha by lia. rewrite lookup_app_l in Hb by lia.
    eapply Hadj; eassumption.
  - assert (Hi : S i = length l).
    { apply lookup_lt_Some in Hb. rewrite length_app in Hb. simpl in Hb. lia. }
    rewrite lookup_app_l in Ha by lia.
    rewrite lookup_app_r in Hb by lia.
    replace (S i - length l)%nat with 0%nat in Hb by lia.
    simpl in Hb. injection Hb as <-.
    apply Hlast. rewrite last_lookup.
    replace (Nat.pred (length l)) with i by lia. exact Ha.
Qed.

Lemma follows_grow (prev cur : list string) (s : string) :
  follows chunk_overlap prev cur -> follows chunk_overlap prev (cur ++ [s]).
Proof.
  intros (o & news & -> & Hne & Ho).
  exists o, (news ++ [s]). split; [now rewrite app_assoc|]. split; [|assumption].
  destruct news; discriminate.
Qed.

Lemma group_inv_init : group_inv chunk_size chunk_overlap group_init.
Proof.
  unfold group_inv, group_init. simpl. repeat split; auto.
  - intros i a b H. rewrite lookup_nil in H. discriminate.
  - discriminate.
Qed.

Lemma group_inv_step (st : group_state) (s : string) :
  group_inv chunk_size chunk_overlap st ->
  group_inv chunk_size chunk_overlap (group_step chunk_size chunk_overlap st s).
Proof.
  intros (Hlen & Hclosed & Hcur & Hadj & Hlast & Hempty).
  unfold group_step.
  destruct (g_current st) as [|c cr] eqn:Ecur.
  - (* nothing accumulated yet *)
    rewrite (Hempty eq_refl) in *.
    unfold group_inv. simpl. rewrite Ecur. simpl.
    repeat split; auto.
    + rewrite Hlen. simpl. lia.
    + right. right. exists [], s. auto.
    + discriminate.
  - destruct (Z.gtb_spec (g_length st + len s) chunk_size) as [Hbig|Hfit].
    + (* the chunk is closed and the overlap seeds the next one *)
      destruct (overlap_of_chunk (c :: cr)) as (o & Hrun & Ho).
      rewrite Hrun. unfold group_inv. simpl.
      repeat split.
      * rewrite total_len_app. simpl. lia.
      * apply Forall_app. split; [assumption|].
        constructor; [|constructor]. split; [discriminate|].
        destruct Hcur as [Hcur|Hcur]; [discriminate | exact Hcur].
      * right. right. exists o, s. split; [reflexivity|].
        destruct Ho as (_ & _ & Hfit & _). exact Hfit.
      * apply adjacent_snoc; assumption.
      * intros prev Hprev. rewrite last_snoc in Hprev. injection Hprev as <-.
        exists o, [s]. repeat split; [discriminate | exact Ho].
      * intros H. destruct o; discriminate.
    + (* the sentence joins the current chunk *)
      unfold group_inv. simpl. rewrite Ecur.
      repeat split; auto.
      * rewrite total_len_app, Hlen. simpl. lia.
      * right. left. change (c :: cr ++ [s]) with ((c :: cr) ++ [s]).
        rewrite total_len_app. simpl total_len at 2. rewrite <- Hlen. lia.
      * intros prev Hprev. change (c :: cr ++ [s]) with ((c :: cr) ++ [s]).
        apply follows_grow. auto.
      * discriminate.
Qed.

Lemma group_inv_fold (sentences : list string) (st : group_state) :
  group_inv chunk_size chunk_overlap st ->
  group_inv chunk_size chunk_overlap
            (fold_left (group_step chunk_size chunk_overlap) sentences st).
Proof.
  revert st. induction sentences as [|s sentences IH]; intros st H; simpl;
    [assumption|]. apply IH. now apply group_inv_step.
Qed.

(** Every sentence group is non-empty and within the budget, and each
    group follows the one before. *)
Lemma sentence_groups_spec (sentences : list string) :
  Forall (fun g => g <> [] /\ within_budget chunk_size chunk_overlap g)
         (sentence_groups chunk_size chunk_overlap sentences) /\
  adjacent (follows chunk_overlap)
           (sentence_groups chunk_size chunk_overlap sentences).
Proof.
  unfold sentence_groups.
  destruct (group_inv_fold sentences group_init group_inv_init)
    as (_ & Hclosed & Hcur & Hadj & Hlast & _).
  destruct (g_current _) as [|c cr] eqn:Ecur; [auto|].
  split.
  - apply Forall_app. split; [assumption|].
    constructor; [|constructor]. split; [discriminate|].
    destruct Hcur as [Hcur|Hcur]; [discriminate | exact Hcur].
  - apply adjacent_snoc; assumption.
Qed.

(** *** The chunks are the numbered sentence groups *)

Lemma number_chunks_app (p i : Z) (a b : list (list string)) :
  number_chunks p i (a ++ b)
  = number_chunks p i a ++ number_chunks p (i + Z.of_nat (length a)) b.
Proof.
  revert i. induction a as [|g a IH]; intros i; simpl.
  - f_equal. lia.
  - rewrite IH. do 3 f_equal. lia.
Qed.

Lemma number_chunks_lookup (p i : Z) (gs : list (list string)) (k : nat) :
  number_chunks p i gs !! k = make_chunk p (i + Z.of_nat k) <$> gs !! k.
Proof.
  revert i k. induction gs as [|g gs IH]; intros i k; [reflexivity|].
  destruct k as [|k]; simpl.
  - do 2 f_equal. lia.
  - rewrite IH. destruct (gs !! k); simpl; [|reflexivity]. do 2 f_equal. lia.
Qed.

Lemma in_step_step (p : Z) (st : loop_state) (gst : group_state) (s : string) :
  in_step p st gst ->
  in_step p (loop_step chunk_size chunk_overlap p st s)
            (group_step chunk_size chunk_overlap gst s).
Proof.
  intros (Hem & Hidx & Hcur & Hlen).
  unfold loop_step, group_step. rewrite Hcur, Hlen.
  destruct (g_current gst) as [|c cr] eqn:Ecur.
  - unfold in_step. simpl. rewrite Hcur, Ecur, Hlen. auto.
  - destruct (g_length gst + len s >? chunk_size).
    + destruct (overlap_loop chunk_overlap (List.rev (c :: cr)) [] 0) as [o n].
      unfold in_step. simpl. repeat split.
      * rewrite number_chunks_app, Hem, Hidx. simpl. reflexivity.
      * rewrite length_app, Hidx. simpl. lia.
    + unfold in_step. simpl. rewrite Hcur, Ecur, Hlen. auto.
Qed.

Lemma in_step_fold (p : Z) (sentences : list string)
      (st : loop_state) (gst : group_state) :
  in_step p st gst ->
  in_step p (fold_left (loop_step chunk_size chunk_overlap p) sentences st)
            (fold_left (group_step chunk_size chunk_overlap) sentences gst).
Proof.
  revert st gst. induction sentences as [|s sentences IH]; intros st gst H;
    simpl; [assumption|]. apply IH. now apply in_step_step.
Qed.

Lemma chunk_sentences_groups (p : Z) (sentences : list string) :
  chunk_sentences chunk_size chunk_overlap p sentences
  = number_chunks p 0 (sentence_groups chunk_size chunk_overlap sentences).
Proof.
  unfold chunk_sentences, sentence_groups.
  destruct (in_step_fold p sentences loop_init group_init) as (Hem & Hidx & Hcur & _).
  { unfold in_step. simpl. auto. }
  rewrite Hcur. destruct (g_current _) as [|c cr]; [exact Hem|].
  rewrite number_chunks_app, Hem, Hidx. simpl. reflexivity.
Qed.

(** Every chunk of a page is a numbered sentence group of that page. *)
Lemma chunk_of_page_group (p : page_text) (k : nat) (c : chunk) :
  chunk_one_page chunk_size chunk_overlap p !! k = Some c ->
  exists g : list string,
    sentence_groups chunk_size chunk_overlap (_split_into_sentences (pt_text p)) !! k
      = Some g /\
    c = make_chunk (pt_page p) (Z.of_nat k) g.
Proof.
  unfold chunk_one_page. rewrite chunk_sentences_groups, number_chunks_lookup.
  destruct (_ !! k) as [g|]; simpl; [|discriminate].
  intros H. injection H as <-. exists g. split; [reflexivity|]. f_equal.
Qed.

End ChunkerFacts.

Section ChunkerSentences.

Import PyStr Chunker Spec.

Variables chunk_size chunk_overlap : Z.

Lemma overlap_loop_incl (rest acc : list string) (n : Z) :
  incl (fst (overlap_loop chunk_overlap rest acc n)) (rest ++ acc).
Proof.
  revert acc n. induction rest as [|s rest IH]; intros acc n; simpl.
  - apply incl_refl.
  - destruct (n + len s <=? chunk_overlap).
    + eapply incl_tran; [apply IH|].
      intros x Hx. apply in_app_or in Hx as [Hx|[<-|Hx]]; simpl; auto;
        right; apply in_or_app; auto.
    + simpl. intros x Hx. right. apply in_or_app. auto.
Qed.

(** The groups are made of the sentences that were fed to the loop. *)
Lemma groups_fold_incl (rest seen : list string) (st : group_state) :
  Forall (fun g => incl g seen) (g_closed st) ->
  incl (g_current st) seen ->
  let st' := fold_left (group_step chunk_size chunk_overlap) rest st in
  Forall (fun g => incl g (seen ++ rest)) (g_closed st') /\
  incl (g_current st') (seen ++ rest).
Proof.
  revert seen st. induction rest as [|s rest IH]; intros seen st Hc Hcur; simpl.
  - rewrite app_nil_r. auto.
  - replace (seen ++ s :: rest) with ((seen ++ [s]) ++ rest)
      by (rewrite <- app_assoc; reflexivity).
    assert (Hw : forall g, incl g seen -> incl g (seen ++ [s])).
    { intros g Hg. apply incl_appl. exact Hg. }
    apply IH; unfold group_step.
    + destruct (g_current st) as [|c cr] eqn:Ecur; simpl.
      * eapply Forall_impl; [exact Hc | exact Hw].
      * destruct (g_length st + len s >? chunk_size).
        -- destruct (overlap_loop _ _ _ _) as [o n]. simpl.
           apply Forall_app. split.
           ++ eapply Forall_impl; [exact Hc | exact Hw].
           ++ constructor; [|constructor]. auto.
        -- simpl. eapply Forall_impl; [exact Hc | exact Hw].
    + destruct (g_current st) as [|c cr] eqn:Ecur; simpl.
      * rewrite Ecur. apply incl_appr, incl_refl.
      * destruct (g_length st + len s >? chunk_size).
        -- pose proof (overlap_loop_incl (List.rev (c :: cr)) [] 0) as Ho.
           destruct (overlap_loop _ _ _ _) as [o n]. simpl in *.
           apply incl_app; [|apply incl_appr, incl_refl].
           apply Hw. eapply incl_tran; [exact Ho|].
           rewrite app_nil_r. intros x Hx.
           apply Hcur. apply in_app_or in Hx as [Hx|Hx].
           ++ apply in_rev in Hx. right. exact Hx.
           ++ destruct Hx as [<-|[]]. left. reflexivity.
        -- simpl. rewrite Ecur.
           apply incl_app; [apply Hw; exact Hcur | apply incl_appr, incl_refl].
Qed.

Lemma sentence_groups_incl (sentences : list string) :
  Forall (fun g => incl g sentences)
         (sentence_groups chunk_size chunk_overlap sentences).
Proof.
  unfold sentence_groups.
  destruct (groups_fold_incl sentences [] group_init) as [Hc Hcur];
    [constructor | intros x [] |].
  simpl in Hc, Hcur.
  destruct (g_current _) as [|c cr]; [exact Hc|].
  apply Forall_app. split; [exact Hc|]. constructor; [exact Hcur | constructor].
Qed.

End ChunkerSentences.

(** C3, as stated, fails.  With a chunk size of 10, the page "aaaa. bbbb."
    has two sentences of 5 characters and gives one chunk of 11 characters:
    the joining space is not counted against the budget.  The page
    "aaaa. bbbb. cccccccc." gives a second chunk of 15 characters: the
    overlap sentence and the next sentence are put together without a
    test.  No sentence of either page is longer than 10. *)
Lemma chunk_exceeds_size_without_long_sentence :
  (Chunker._split_into_sentences (pt_text two_short_sentences) = ["aaaa."; "bbbb."] /\
   Chunker._chunk_text 10 5 [two_short_sentences]
     = [{| text := "aaaa. bbbb."; chunk_page := 1; chunk_index := 0; char_count := 11 |}] /\
   ~ Forall (Spec.strict_size_bound 10
               (Chunker._split_into_sentences (pt_text two_short_sentences)))
            (Chunker._chunk_text 10 5 [two_short_sentences])) /\
  (Chunker._split_into_sentences (pt_text three_sentences)
     = ["aaaa."; "bbbb."; "cccccccc."] /\
   Chunker._chunk_text 10 5 [three_sentences]
     = [{| text := "aaaa. bbbb."; chunk_page := 1; chunk_index := 0; char_count := 11 |};
        {| text := "bbbb. cccccccc."; chunk_page := 1; chunk_index := 1; char_count := 15 |}]).
Proof.
  split; [split; [|split]|split]; try (vm_compute; reflexivity).
  intros H. apply Forall_inv in H. destruct H as [H|(s & Hin & Hlen & _)].
  - vm_compute in H. apply H. reflexivity.
  - vm_compute in Hin.
    destruct Hin as [<-|[<-|[]]]; vm_compute in Hlen; discriminate.
Qed.

(** C4, as stated, fails.  With a chunk size of 10 and an overlap budget
    of 3, the page "aaaa. bbbb. cccc." gives the chunks "aaaa. bbbb." and
    "cccc.": the closed chunk is longer than the overlap budget, its last
    sentence alone does not fit the budget, and the next chunk shares no
    sentence with it. *)
Lemma next_chunk_may_share_nothing :
  Chunker._chunk_text 10 3 [three_equal_sentences]
    = [{| text := "aaaa. bbbb."; chunk_page := 1; chunk_index := 0; char_count := 11 |};
       {| text := "cccc."; chunk_page := 1; chunk_index := 1; char_count := 5 |}] /\
  Chunker.sentence_groups 10 3
    (Chunker._split_into_sentences (pt_text three_equal_sentences))
    = [["aaaa."; "bbbb."]; ["cccc."]] /\
  3 < Chunker.total_len ["aaaa."; "bbbb."] /\
  ~ Spec.shares_at_least 3 ["aaaa."; "bbbb."] ["cccc."].
Proof.
  split; [vm_compute; reflexivity|]. split; [vm_compute; reflexivity|].
  split; [vm_compute; reflexivity|].
  intros (o & [k1 Hsuf] & [k2 Hpre] & Hlen).
  destruct o as [|x o].
  - vm_compute in Hlen. apply Hlen. reflexivity.
  - simpl in Hpre. injection Hpre as <- Hrest.
    destruct o; [|discriminate].
    destruct k1 as [|a [|b [|c k1]]]; simpl in Hsuf; discriminate.
Qed.

(** C4, amended.  Two consecutive chunks of a page are sentence groups
    [g1] and [g2] where [g2] starts with the overlap of [g1] and goes on
    with at least one new sentence.  The overlap is the longest run of
    trailing sentences of [g1] whose lengths add up to at most the overlap
    budget: it is a suffix of [g1], it is empty or within the budget, and
    it is all of [g1] or the sentence before it would take it over the
    budget.  The shared text is thus at most the budget, and may be
    empty. *)
Theorem next_chunk_starts_with_overlap
        (chunk_size chunk_overlap : Z) (p : page_text) (k : nat) (c1 c2 : chunk) :
  Chunker.chunk_one_page chunk_size chunk_overlap p !! k = Some c1 ->
  Chunker.chunk_one_page chunk_size chunk_overlap p !! S k = Some c2 ->
  exists g1 g2 o news pre : list string,
    Chunker.sentence_groups chunk_size chunk_overlap
      (Chunker._split_into_sentences (pt_text p)) !! k = Some g1 /\
    Chunker.sentence_groups chunk_size chunk_overlap
      (Chunker._split_into_sentences (pt_text p)) !! S k = Some g2 /\
    text c1 = PyStr.join " " g1 /\
    text c2 = PyStr.join " " g2 /\
    g2 = o ++ news /\ news <> [] /\
    g1 = pre ++ o /\
    (o = [] \/ Chunker.total_len o <= chunk_overlap) /\
    (pre = [] \/
     exists (pre' : list string) (s : string),
       pre = pre' ++ [s] /\ Chunker.total_len o + PyStr.len s > chunk_overlap).
Proof.
  intros H1 H2.
  destruct (chunk_of_page_group _ _ _ _ _ H1) as (g1 & Hg1 & ->).
  destruct (chunk_of_page_group _ _ _ _ _ H2) as (g2 & Hg2 & ->).
  destruct (sentence_groups_spec chunk_size chunk_overlap
              (Chunker._split_into_sentences (pt_text p))) as [_ Hadj].
  destruct (Hadj k g1 g2 Hg1 Hg2) as (o & news & -> & Hne & pre & -> & Hfit & Hmax).
  exists (pre ++ o), (o ++ news), o, news, pre.
  repeat split; assumption.
Qed.

Lemma next_chunk_starts_with_overlap_witness :
  exists g1 g2 o news pre : list string,
    Chunker.sentence_groups 10 5
      (Chunker._split_into_sentences (pt_text three_sentences)) !! 0%nat = Some g1 /\
    Chunker.sentence_groups 10 5
      (Chunker._split_into_sentences (pt_text three_sentences)) !! 1%nat = Some g2 /\
    "aaaa. bbbb." = PyStr.join " " g1 /\
    "bbbb. cccccccc." = PyStr.join " " g2 /\
    g2 = o ++ news /\ news <> [] /\
    g1 = pre ++ o /\
    (o = [] \/ Chunker.total_len o <= 5) /\
    (pre = [] \/
     exists (pre' : list string) (s : string),
       pre = pre' ++ [s] /\ Chunker.total_len o + PyStr.len s > 5).
Proof.
  apply (next_chunk_starts_with_overlap 10 5 three_sentences 0
           {| text := "aaaa. bbbb."; chunk_page := 1; chunk_index := 0; char_count := 11 |}
           {| text := "bbbb. cccccccc."; chunk_page := 1; chunk_index := 1; char_count := 15 |});
    vm_compute; reflexivity.
Defined.

(** ** Computations *)

Section MonadFacts.

Import Spec.

Context {S : Type}.

Lemma bind_ok {A B} (m : M S A) (k : A -> M S B) (s s' : S) (a : A) :
  m s = (Ok a, s') -> (m ≫= k) s = k a s'.
Proof. intros H. unfold mbind, M_bind. now rewrite H. Qed.

Lemma bind_raise {A B} (m : M S A) (k : A -> M S B) (s s' : S) (e : string) :
  m s = (Raise e, s') -> (m ≫= k) s = (Raise e, s').
Proof. intros H. unfold mbind, M_bind. now rewrite H. Qed.

Lemma try_catch_ok {A} (m : M S A) (h : string -> M S A) (s s' : S) (a : A) :
  m s = (Ok a, s') -> try_catch m h s = (Ok a, s').
Proof. intros H. unfold try_catch. now rewrite H. Qed.

Lemma try_catch_raise {A} (m : M S A) (h : string -> M S A) (s s' : S) (e : string) :
  m s = (Raise e, s') -> try_catch m h s = h e s'.
Proof. intros H. unfold try_catch. now rewrite H. Qed.

(** A [try] whose handler returns does not raise. *)
Lemma try_catch_total {A} (m : M S A) (h : string -> M S A) :
  (forall e s, exists a s', h e s = (Ok a, s')) ->
  forall s, exists a s', try_catch m h s = (Ok a, s').
Proof.
  intros Hh s. unfold try_catch. destruct (m s) as [[a|e] s']; eauto.
Qed.

Lemma stable_ret {A} (P : S -> Prop) (a : A) : stable P (mret a : M S A).
Proof. intros s H. exact H. Qed.

Lemma stable_raise {A} (P : S -> Prop) (e : string) : stable P (raise e : M S A).
Proof. intros s H. exact H. Qed.

Lemma stable_get (P : S -> Prop) : stable P (get : M S S).
Proof. intros s H. exact H. Qed.

Lemma stable_modify (P : S -> Prop) (f : S -> S) :
  (forall s, P s -> P (f s)) -> stable P (modify f).
Proof. intros Hf s H. simpl. auto. Qed.

Lemma stable_bind {A B} (P : S -> Prop) (m : M S A) (k : A -> M S B) :
  stable P m -> (forall a, stable P (k a)) -> stable P (m ≫= k).
Proof.
  intros Hm Hk s H. unfold mbind, M_bind.
  specialize (Hm s H). destruct (m s) as [[a|e] s']; simpl in *.
  - now apply Hk.
  - exact Hm.
Qed.

Lemma stable_try_catch {A} (P : S -> Prop) (m : M S A) (h : string -> M S A) :
  stable P m -> (forall e, stable P (h e)) -> stable P (try_catch m h).
Proof.
  intros Hm Hh s H. unfold try_catch.
  specialize (Hm s H). destruct (m s) as [[a|e] s']; simpl in *.
  - exact Hm.
  - now apply Hh.
Qed.

Lemma stable_for_each {A} (P : S -> Prop) (l : list A) (body : A -> M S unit) :
  (forall x, stable P (body x)) -> stable P (for_each l body).
Proof.
  intros Hb. induction l as [|x l IH]; simpl.
  - apply stable_ret.
  - apply stable_bind; [apply Hb | intros _; exact IH].
Qed.

Lemma stable_map_m {A B} (P : S -> Prop) (f : A -> M S B) (l : list A) :
  (forall x, stable P (f x)) -> stable P (map_m f l).
Proof.
  intros Hf. induction l as [|x l IH]; simpl.
  - apply stable_ret.
  - apply stable_bind; [apply Hf|]. intros y.
    apply stable_bind; [exact IH|]. intros ys. apply stable_ret.
Qed.

End MonadFacts.

(** ** The vector store *)

Section VectorStoreFacts.

Import VectorStore.

Variable env : environment.

Lemma get_embedding_raises (text e : string) (w : world) :
  fault env (clock w) (OpEmbed (truncated text)) = Some e ->
  _get_embedding env text w = (Raise e, tick w).
Proof.
  intros H. unfold _get_embedding, try_catch, mbind, M_bind, call.
  rewrite H. reflexivity.
Qed.

Lemma get_embedding_returns (text : string) (w : world) :
  fault env (clock w) (OpEmbed (truncated text)) = None ->
  _get_embedding env text w = (Ok (embed_query env (truncated text)), tick w).
Proof.
  intros H. unfold _get_embedding, try_catch, mbind, M_bind, call.
  rewrite H. reflexivity.
Qed.

Lemma similarity_search_total (query : string) (k : Z)
      (flt : option (list (string * option Z))) (w : world) :
  exists rows w', similarity_search env query k flt w = (Ok rows, w').
Proof.
  unfold similarity_search. apply try_catch_total.
  intros e s. exists [], s. reflexivity.
Qed.

End VectorStoreFacts.

(** C9.  On an embedding or storage failure the two operations differ.
    [add_document] raises the same exception to its caller, after the
    rollback (the open transaction is back to the durable state, which is
    unchanged), whether the embedding call, the INSERT or the commit
    raised; [similarity_search] never raises, and returns the empty list
    when the embedding call or the query raised. *)
Theorem add_propagates_search_swallows (env : environment) (w : world) :
  (forall query k flt,
      exists rows w', VectorStore.similarity_search env query k flt w = (Ok rows, w')) /\
  (forall text e,
      fault env (clock w) (OpEmbed (VectorStore.truncated text)) = Some e ->
      (forall md, exists w',
          VectorStore.add_document env text md w = (Raise e, w') /\
          session w' = committed w /\ committed w' = committed w) /\
      (forall k flt, exists w',
          VectorStore.similarity_search env text k flt w = (Ok [], w'))) /\
  (forall text e,
      fault env (clock w) (OpEmbed (VectorStore.truncated text)) = None ->
      fault env (Datatypes.S (clock w)) OpDbExecute = Some e ->
      (forall md, exists w',
          VectorStore.add_document env text md w = (Raise e, w') /\
          session w' = committed w /\ committed w' = committed w) /\
      (forall k flt, exists w',
          VectorStore.similarity_search env text k flt w = (Ok [], w'))) /\
  (forall text e md,
      fault env (clock w) (OpEmbed (VectorStore.truncated text)) = None ->
      fault env (Datatypes.S (clock w)) OpDbExecute = None ->
      fault env (Datatypes.S (Datatypes.S (clock w))) OpDbCommit = Some e ->
      exists w',
        VectorStore.add_document env text md w = (Raise e, w') /\
        session w' = committed w /\ committed w' = committed w).
Proof.
  split; [|split; [|split]].
  - intros. apply similarity_search_total.
  - intros text e He. split.
    + intros md. eexists. unfold VectorStore.add_document.
      rewrite (try_catch_raise _ _ _ _ _
                 (bind_raise _ _ _ _ _ (get_embedding_raises env text e w He))).
      simpl. auto.
    + intros k flt. eexists. unfold VectorStore.similarity_search.
      rewrite (try_catch_raise _ _ _ _ _
                 (bind_raise _ _ _ _ _ (get_embedding_raises env text e w He))).
      reflexivity.
  - intros text e He Hx. split.
    + intros md. eexists. unfold VectorStore.add_document, try_catch.
      rewrite (bind_ok _ _ _ _ _ (get_embedding_returns env text w He)).
      unfold VectorStore.insert_embedding, call, mbind, M_bind. simpl.
      rewrite Hx. simpl. auto.
    + intros k flt. eexists. unfold VectorStore.similarity_search, try_catch.
      rewrite (bind_ok _ _ _ _ _ (get_embedding_returns env text w He)).
      unfold call, mbind, M_bind. simpl. rewrite Hx. reflexivity.
  - intros text e md He Hx Hc. eexists. unfold VectorStore.add_document, try_catch.
    rewrite (bind_ok _ _ _ _ _ (get_embedding_returns env text w He)).
    unfold VectorStore.insert_embedding, db_commit, call, mbind, M_bind. simpl.
    rewrite Hx. simpl. rewrite Hc. simpl. auto.
Qed.

Lemma add_propagates_search_swallows_witness :
  (exists w',
      VectorStore.add_document env_embed_down "Capital calls of the fund."
                               metadata0 world0
        = (Raise "embedding provider unavailable", w') /\
      session w' = committed world0 /\ committed w' = committed world0) /\
  (exists w',
      VectorStore.similarity_search env_embed_down "Capital calls of the fund."
                                    5 None world0 = (Ok [], w')) /\
  (exists w',
      VectorStore.add_document env_db_down "Capital calls of the fund."
                               metadata0 world0
        = (Raise "connection lost", w') /\
      session w' = committed world0 /\ committed w' = committed world0) /\
  (exists w',
      VectorStore.similarity_search env_db_down "Capital calls of the fund."
                                    5 None world0 = (Ok [], w')).
Proof.
  destruct (add_propagates_search_swallows env_embed_down world0) as (_ & He & _).
  destruct (He "Capital calls of the fund." "embedding provider unavailable" eq_refl)
    as [Hadd Hsearch].
  destruct (add_propagates_search_swallows env_db_down world0) as (_ & _ & Hd & _).
  destruct (Hd "Capital calls of the fund." "connection lost" eq_refl eq_refl)
    as [Hadd' Hsearch'].
  split; [apply Hadd|]. split; [apply Hsearch|]. split; [apply Hadd' | apply Hsearch'].
Defined.

(** ** What the steps leave unchanged *)

Ltac stable_step :=
  first
    [ apply stable_ret | apply stable_raise | apply stable_get
    | apply stable_bind | apply stable_try_catch
    | apply stable_for_each | apply stable_map_m
    | match goal with
      | |- forall _, _ => intro
      | |- Spec.stable _ (match ?x with _ => _ end) => destruct x
      | |- Spec.stable _ (if ?x then _ else _) => destruct x
      end ].

Section WorldFrame.

Import Spec VectorStore DocumentProcessor.

Variable env : environment.

(** A property of the world that the database and collaborator calls of
    the ingestion steps do not disturb. *)
Variable P : world -> Prop.
Hypothesis P_tick : forall w, P w -> P (tick w).
Hypothesis P_commit : forall w, P w -> P (commit_world w).
Hypothesis P_rollback : forall w, P w -> P (rollback_world w).
Hypothesis P_insert : forall c e md w, P w -> P (insert_row c e md w).
Hypothesis P_add : forall f e w, P w -> P (set_session (add_transaction f e) w).

Lemma stable_call (op : ext_op) : stable P (call env op).
Proof.
  intros w H. unfold call. destruct (fault env (clock w) op); simpl; auto.
Qed.

Lemma stable_commit : stable P (db_commit env).
Proof.
  unfold db_commit. apply stable_bind; [apply stable_call|].
  intros _. apply stable_modify. exact P_commit.
Qed.

Lemma stable_rollback : stable P db_rollback.
Proof. apply stable_modify. exact P_rollback. Qed.

Lemma stable_get_embedding (text : string) : stable P (_get_embedding env text).
Proof.
  unfold _get_embedding. cbv zeta.
  repeat first [apply stable_call | stable_step].
Qed.

Lemma stable_add_document (content : string) (md : metadata) :
  stable P (add_document env content md).
Proof.
  unfold add_document, insert_embedding.
  repeat first [apply stable_get_embedding | apply stable_call
               | apply stable_commit | apply stable_rollback
               | apply stable_modify; apply P_insert | stable_step].
Qed.

Lemma stable_tables_of_pages (n : Z) (pages : list pdf_page) :
  stable P (tables_of_pages env n pages).
Proof.
  revert n. induction pages as [|p pages IH]; intros n; simpl.
  - apply stable_ret.
  - repeat first [apply stable_call | apply IH | stable_step].
Qed.

Lemma stable_extract_tables (path : string) :
  stable P (extract_tables_from_pdf env path).
Proof.
  unfold extract_tables_from_pdf.
  repeat first [apply stable_call | apply stable_tables_of_pages | stable_step].
Qed.

Lemma stable_full_text_of (n : Z) (pages : list pdf_page) :
  stable P (full_text_of env n pages).
Proof.
  revert n. induction pages as [|p pages IH]; intros n; simpl.
  - apply stable_ret.
  - repeat first [apply stable_call | apply IH | stable_step].
Qed.

Lemma stable_text_of_pages (n total : Z) (pages : list pdf_page) :
  stable P (text_of_pages env n total pages).
Proof.
  revert n. induction pages as [|p pages IH]; intros n; simpl.
  - apply stable_ret.
  - repeat first [apply stable_call | apply IH | stable_step].
Qed.

Lemma stable_extract_text_content (path : string) :
  stable P (_extract_text_content env path).
Proof.
  unfold _extract_text_content. cbv zeta.
  repeat first [apply stable_call | apply stable_text_of_pages | stable_step].
Qed.

Lemma stable_db_add (fund : Z) (e : entry) : stable P (db_add fund e).
Proof. apply stable_modify. apply P_add. Qed.

Lemma stable_save_capital_calls (data : list entry) (fund : Z) :
  stable P (_save_capital_calls env data fund).
Proof.
  unfold _save_capital_calls.
  repeat first [apply stable_db_add | apply stable_commit | stable_step].
Qed.

Lemma stable_save_distributions (data : list entry) (fund : Z) :
  stable P (_save_distributions env data fund).
Proof.
  unfold _save_distributions.
  repeat first [apply stable_db_add | apply stable_commit | stable_step].
Qed.

Lemma stable_save_adjustments (data : list entry) (fund : Z) :
  stable P (_save_adjustments env data fund).
Proof.
  unfold _save_adjustments.
  repeat first [apply stable_db_add | apply stable_commit | stable_step].
Qed.

(** The same for the steps of a run, which also carry the statistics. *)

Lemma stable_lift_world {A} (m : M world A) :
  stable P m -> stable (fun s : run_state => P (fst s)) (lift m).
Proof.
  intros Hm [w st] H. unfold lift. specialize (Hm w H).
  destruct (m w) as [r w']. exact Hm.
Qed.

Lemma stable_update_stats_world (f : stats -> stats) :
  stable (fun s : run_state => P (fst s)) (update_stats f).
Proof. intros [w st] H. exact H. Qed.

Lemma stable_get_stats_world :
  stable (fun s : run_state => P (fst s)) get_stats.
Proof. intros [w st] H. exact H. Qed.

Lemma stable_store_chunk_world (path : string) (id fund : Z) (c : chunk) :
  stable (fun s : run_state => P (fst s)) (store_chunk env path id fund c).
Proof.
  unfold store_chunk.
  repeat first [apply stable_lift_world; apply stable_add_document | stable_step].
Qed.

Lemma stable_index_text_world (path : string) (id fund : Z) :
  stable (fun s : run_state => P (fst s)) (index_text env path id fund).
Proof.
  unfold index_text. cbv zeta.
  repeat first [ apply stable_lift_world; apply stable_extract_text_content
               | apply stable_update_stats_world
               | apply stable_store_chunk_world | stable_step].
Qed.

Lemma stable_process_table_world (fund : Z) (t : table_info) :
  stable (fun s : run_state => P (fst s)) (process_table env fund t).
Proof.
  unfold process_table. cbv zeta.
  apply stable_try_catch; [|intros e; apply stable_update_stats_world].
  destruct (classify_table_type t) as [[| |]|];
    repeat first [ apply stable_lift_world; apply stable_save_capital_calls
                 | apply stable_lift_world; apply stable_save_distributions
                 | apply stable_lift_world; apply stable_save_adjustments
                 | apply stable_update_stats_world | stable_step].
Qed.

Lemma stable_process_tables_world (path : string) (fund : Z) :
  stable (fun s : run_state => P (fst s)) (process_tables env path fund).
Proof.
  unfold process_tables.
  repeat first [ apply stable_lift_world; apply stable_extract_tables
               | apply stable_update_stats_world
               | apply stable_process_table_world | stable_step].
Qed.

(** The text fallback records its call, which the property must also
    survive. *)
Hypothesis P_fallback : forall path w, P w -> P (log_event (EvTextFallback path) w).

Lemma stable_extract_data_from_text (path : string) :
  stable P (extract_data_from_text env path).
Proof.
  unfold extract_data_from_text, record_event.
  apply stable_bind; [apply stable_modify; apply P_fallback|]. intros _.
  destruct (negb (llm_client env)); [apply stable_ret|].
  repeat first [apply stable_call | apply stable_full_text_of | stable_step].
Qed.

Lemma stable_text_fallback_world (path : string) (fund : Z) :
  stable (fun s : run_state => P (fst s)) (text_fallback env path fund).
Proof.
  unfold text_fallback. cbv zeta.
  apply stable_try_catch; [|intros e; apply stable_update_stats_world].
  apply stable_bind;
    [apply stable_lift_world; apply stable_extract_data_from_text|].
  intros [calls dists]. simpl.
  repeat first [ apply stable_lift_world; apply stable_save_capital_calls
               | apply stable_lift_world; apply stable_save_distributions
               | apply stable_update_stats_world | stable_step].
Qed.

Lemma stable_ingest_world (path : string) (id fund : Z) :
  stable (fun s : run_state => P (fst s)) (ingest env path id fund).
Proof.
  unfold ingest, fallback_if_needed.
  repeat first [ apply stable_process_tables_world
               | apply stable_get_stats_world
               | apply stable_text_fallback_world
               | apply stable_index_text_world | stable_step].
Qed.

End WorldFrame.

Section StatsFrame.

Import Spec DocumentProcessor.

Variable env : environment.

(** A property of the statistics that the counters of the text index do
    not disturb. *)
Variable Q : stats -> Prop.
Hypothesis Q_pages : forall n st, Q st -> Q (set_pages_processed n st).
Hypothesis Q_chunks : forall n st, Q st -> Q (set_text_chunks n st).

Lemma stable_lift_stats {A} (m : M world A) :
  stable (fun s : run_state => Q (snd s)) (lift m).
Proof.
  intros [w st] H. unfold lift. destruct (m w) as [r w']. exact H.
Qed.

Lemma stable_update_stats (f : stats -> stats) :
  (forall st, Q st -> Q (f st)) ->
  stable (fun s : run_state => Q (snd s)) (update_stats f).
Proof. intros Hf [w st] H. simpl. auto. Qed.

Lemma stable_index_text_stats (path : string) (id fund : Z) :
  stable (fun s : run_state => Q (snd s)) (index_text env path id fund).
Proof.
  unfold index_text, store_chunk. cbv zeta.
  repeat first [ apply stable_lift_stats
               | apply stable_update_stats; first [apply Q_pages | apply Q_chunks]
               | stable_step].
Qed.

End StatsFrame.

(** ** The orchestrator *)

Section OrchestratorFacts.

Import Spec DocumentProcessor.

Variable env : environment.

(** The status update returns, records its call and, when the row
    exists and the database answers, makes the new status durable. *)
Lemma update_status_runs (id : Z) (status : string) (msg : option string)
      (w : world) :
  exists w',
    _update_document_status env id status msg w = (Ok tt, w') /\
    trace w' = trace w ++ [EvStatus id status msg] /\
    (is_Some (documents (session w) !! id) ->
     fault env (clock w) OpDbQuery = None ->
     fault env (Datatypes.S (clock w)) OpDbCommit = None ->
     documents (committed w') !! id
     = Some {| parsing_status := status; error_message := msg |}).
Proof.
  unfold _update_document_status, record_event, try_catch, db_commit, db_rollback,
    call, mbind, M_bind, modify, get. simpl.
  destruct (fault env (clock w) OpDbQuery) as [e|] eqn:Eq; simpl.
  { eexists. split; [reflexivity|]. split; [reflexivity|]. discriminate. }
  destruct (documents (session w) !! id) as [d|] eqn:Ed; simpl.
  - destruct (fault env (Datatypes.S (clock w)) OpDbCommit) as [e|] eqn:Ec; simpl.
    + eexists. split; [reflexivity|]. split; [reflexivity|]. discriminate.
    + eexists. split; [reflexivity|]. split; [reflexivity|].
      intros _ _ _. simpl. apply lookup_insert_eq.
  - eexists. split; [reflexivity|]. split; [reflexivity|].
    intros [? ?]. discriminate.
Qed.

(** The run in terms of its steps 1 to 5: on a normal end the status is
    set to completed and the statistics are returned; on an exception the
    message is appended to the errors, the status is set to failed and the
    statistics gathered so far are returned. *)
Lemma process_document_cases (path : string) (id fund : Z) (w : world) :
  match ingest env path id fund (w, stats0) with
  | (Ok _, (w1, st)) =>
      exists w',
        _update_document_status env id "completed" None w1 = (Ok tt, w') /\
        process_document env path id fund w
        = (Ok {| success := true; out_stats := st; error := None |}, w')
  | (Raise e, (w1, st)) =>
      exists w',
        _update_document_status env id "failed" (Some (fatal_message path e)) w1
        = (Ok tt, w') /\
        process_document env path id fund w
        = (Ok {| success := false;
                 out_stats := append_error (fatal_message path e) st;
                 error := Some (fatal_message path e) |}, w')
  end.
Proof.
  destruct (ingest env path id fund (w, stats0)) as [[[]|e] [w1 st]] eqn:E.
  - destruct (update_status_runs id "completed" None w1) as (w' & Hu & _).
    exists w'. split; [exact Hu|].
    unfold process_document, process_document_m, process_steps, try_catch,
      mbind, M_bind.
    rewrite E. unfold lift. rewrite Hu. reflexivity.
  - destruct (update_status_runs id "failed" (Some (fatal_message path e)) w1)
      as (w' & Hu & _).
    exists w'. split; [exact Hu|].
    unfold process_document, process_document_m, process_steps, try_catch,
      mbind, M_bind.
    rewrite E. unfold update_stats, modify, lift. rewrite Hu. reflexivity.
Qed.

(** The message recorded on failure ends with the text of the exception. *)
Lemma fatal_message_carries (path e : string) :
  fatal_message path e
  = ("Fatal error processing document " +:+ path +:+ ": ") +:+ e.
Proof. unfold fatal_message. now rewrite !append_assoc. Qed.

(** Steps 1 to 5 record no call of the status collaborator. *)
Lemma ingest_status_calls (path : string) (id fund : Z) (s : run_state) :
  status_calls (trace (fst (snd (ingest env path id fund s))))
  = status_calls (trace (fst s)).
Proof.
  apply (stable_ingest_world env
           (fun w => status_calls (trace w) = status_calls (trace (fst s))));
    auto.
  intros p w H. unfold log_event, status_calls. simpl.
  rewrite List.filter_app. simpl. rewrite app_nil_r. exact H.
Qed.

Lemma ingest_has_document (path : string) (id fund : Z) (doc : Z) (s : run_state) :
  has_document doc (fst s) ->
  has_document doc (fst (snd (ingest env path id fund s))).
Proof.
  apply (stable_ingest_world env (has_document doc)); auto.
  - intros w [H1 H2]. split; exact H1.
  - intros w [H1 H2]. split; exact H2.
Qed.

End OrchestratorFacts.

(** C2, as stated, fails.  The status update swallows a failing query or
    commit.  With every commit refused, a PDF without pages is processed
    with success while the document row keeps the status 'pending'; the
    two-page report fails (the first chunk cannot be stored) and the row
    keeps 'pending' as well.  And when the embedding provider is down, the
    message recorded with 'failed' is not the exception's message but that
    message after "Fatal error processing document report.pdf: ". *)
Lemma status_update_can_be_lost :
  (fst (DocumentProcessor.process_document env_empty_commit_refused "empty.pdf" 7 3
          world0)
   = Ok {| success := true; out_stats := DocumentProcessor.stats0; error := None |} /\
   documents (committed (snd (DocumentProcessor.process_document
                                env_empty_commit_refused "empty.pdf" 7 3 world0))) !! 7
   = Some {| parsing_status := "pending"; error_message := None |}) /\
  (match fst (DocumentProcessor.process_document env_commit_refused "report.pdf"
                7 3 world0) with
   | Ok out =>
       success out = false /\
       error out = Some (DocumentProcessor.fatal_message "report.pdf" "commit refused")
   | Raise _ => False
   end /\
   documents (committed (snd (DocumentProcessor.process_document
                                env_commit_refused "report.pdf" 7 3 world0))) !! 7
   = Some {| parsing_status := "pending"; error_message := None |}) /\
  (documents (committed (snd (DocumentProcessor.process_document
                                env_embed_down "report.pdf" 7 3 world0))) !! 7
   = Some {| parsing_status := "failed";
             error_message :=
               Some "Fatal error processing document report.pdf: embedding provider unavailable" |} /\
   "Fatal error processing document report.pdf: embedding provider unavailable"
   <> "embedding provider unavailable").
Proof.
  repeat split; try (vm_compute; reflexivity). discriminate.
Qed.

(** C2, amended.  A run of [process_document] always returns a result and
    calls the status update once.  When steps 1 to 5 end without an
    exception, the call is made with 'completed' and no error message, the
    result reports success, and the statistics are those of the steps.
    When an exception [e] escapes the steps, the call is made with 'failed'
    and the message "Fatal error processing document <path>: <e>"; the
    result reports failure with that message, and its statistics are the
    ones gathered up to the exception, with the message appended to the
    errors.  The document row holds that status and message at the end
    when the row exists at the start and the status query and the commits
    of the run are answered. *)
Theorem process_document_terminal_status
        (env : environment) (path : string) (id fund : Z) (w : world) :
  exists (out : outcome) (w' : world),
    DocumentProcessor.process_document env path id fund w = (Ok out, w') /\
    status_calls (trace w')
    = status_calls (trace w)
      ++ [EvStatus id (if success out then "completed" else "failed") (error out)] /\
    match DocumentProcessor.ingest env path id fund (w, DocumentProcessor.stats0) with
    | (Ok _, (_, st)) =>
        success out = true /\ error out = None /\ out_stats out = st
    | (Raise e, (_, st)) =>
        success out = false /\
        error out = Some (DocumentProcessor.fatal_message path e) /\
        DocumentProcessor.fatal_message path e
        = ("Fatal error processing document " +:+ path +:+ ": ") +:+ e /\
        out_stats out
        = DocumentProcessor.append_error (DocumentProcessor.fatal_message path e) st
    end /\
    (Spec.has_document id w ->
     (forall n, fault env n OpDbQuery = None) ->
     (forall n, fault env n OpDbCommit = None) ->
     documents (committed w') !! id
     = Some {| parsing_status := if success out then "completed" else "failed";
               error_message := error out |}).
Proof.
  pose proof (process_document_cases env path id fund w) as Hcases.
  pose proof (ingest_status_calls env path id fund (w, DocumentProcessor.stats0)) as Hst.
  pose proof (ingest_has_document env path id fund id (w, DocumentProcessor.stats0)) as Hdoc.
  destruct (DocumentProcessor.ingest env path id fund (w, DocumentProcessor.stats0))
    as [[[]|e] [w1 st]] eqn:E; simpl in Hst, Hdoc;
    destruct Hcases as (w' & Hu & Hrun);
    match type of Hu with
    | DocumentProcessor._update_document_status _ _ ?status ?msg _ = _ =>
        destruct (update_status_runs env id status msg w1) as (w'' & Hu' & Htr & Hdb)
    end;
    rewrite Hu in Hu'; injection Hu' as <-;
    eexists; exists w'; (split; [exact Hrun|]); simpl;
    (split; [unfold status_calls in *; rewrite Htr, List.filter_app, Hst; reflexivity|]);
    (split; [auto using fatal_message_carries|]);
    intros Hhas Hq Hc; apply Hdb; auto; apply (Hdoc Hhas).
Qed.

Lemma process_document_terminal_status_witness :
  exists (out : outcome) (w' : world),
    DocumentProcessor.process_document env_embed_down "report.pdf" 7 3 world0
    = (Ok out, w') /\
    success out = false /\
    documents (committed w') !! 7
    = Some {| parsing_status := "failed"; error_message := error out |}.
Proof.
  destruct (process_document_terminal_status env_embed_down "report.pdf" 7 3 world0)
    as (out & w' & Hrun & _ & _ & Hdb).
  exists out, w'. split; [exact Hrun|].
  assert (Hs : success out = false).
  { vm_compute in Hrun. injection Hrun as <- _. reflexivity. }
  split; [exact Hs|]. rewrite Hs in Hdb. apply Hdb.
  - split; vm_compute; eauto.
  - intros n. reflexivity.
  - intros n. reflexivity.
Defined.

Section CapitalCallRun.

Import Spec DocumentProcessor.

Variable env : environment.

Lemma parse_rows_all (Pr : entry -> Prop) (build : list cell -> option entry)
      (rs : list (list cell)) :
  (forall row e, build row = Some e -> Pr e) ->
  Forall Pr (parse_rows build rs).
Proof.
  intros Hb. unfold parse_rows. induction rs as [|row rs IH]; simpl.
  - constructor.
  - apply Forall_app. split; [|exact IH].
    destruct row as [|c row]; [constructor|].
    destruct (blank_row (c :: row)); [constructor|].
    destruct (build (c :: row)) as [e|] eqn:Eb; [|constructor].
    destruct (has_required _ _); [|constructor].
    constructor; [|constructor]. eapply Hb. exact Eb.
Qed.

Lemma call_row_is_call (i1 i2 i3 i4 : option nat) (row : list cell) (e : entry) :
  call_row i1 i2 i3 i4 row = Some e -> is_call e.
Proof.
  unfold call_row. intros H.
  destruct (cell_or row i1 None); simpl in H; [|discriminate].
  destruct (text_or row i3 "Standard Call"); simpl in H; [|discriminate].
  destruct (cell_or row i2 None); simpl in H; [|discriminate].
  destruct (text_or row i4 EmptyString); simpl in H; [|discriminate].
  injection H as <-. exact I.
Qed.

Lemma parsed_calls_are_calls (t : table_info) :
  Forall is_call (parse_capital_call_table t).
Proof.
  unfold parse_capital_call_table. cbv zeta.
  apply parse_rows_all. intros row e. apply call_row_is_call.
Qed.

Lemma validated_calls_are_calls (t : table_info) :
  Forall is_call
         (validate_and_clean_data (parse_capital_call_table t) CapitalCalls).
Proof.
  rewrite validate_is_filter. apply Forall_forall. intros e He.
  apply list_elem_of_In, filter_In in He as [He _].
  pose proof (parsed_calls_are_calls t) as H. rewrite Forall_forall in H.
  apply H, list_elem_of_In. exact He.
Qed.

(** Adding capital-call rows to the session calls no collaborator and
    records nothing. *)
Lemma add_calls_runs (data : list entry) (fund : Z) (w : world) :
  Forall is_call data ->
  exists w',
    for_each data (fun e => match e with
                            | CallEntry _ _ _ _ => db_add fund e
                            | _ => raise "'call_date'"
                            end) w = (Ok tt, w') /\
    clock w' = clock w /\ trace w' = trace w.
Proof.
  intros H. revert w. induction H as [|e data He _ IH]; intros w; simpl.
  - exists w. auto.
  - destruct e; try contradiction.
    unfold mbind, M_bind. simpl.
    destruct (IH (set_session (add_transaction fund (CallEntry call_date call_type amount description)) w))
      as (w' & Hrun & Hc & Ht).
    exists w'. auto.
Qed.

Lemma save_calls_runs (data : list entry) (fund : Z) (w : world) :
  Forall is_call data ->
  fault env (clock w) OpDbCommit = None ->
  exists w',
    _save_capital_calls env data fund w = (Ok tt, w') /\
    clock w' = Datatypes.S (clock w) /\ trace w' = trace w.
Proof.
  intros Hd Hf. destruct (add_calls_runs data fund w Hd) as (w1 & Hrun & Hc & Ht).
  unfold _save_capital_calls.
  rewrite (bind_ok _ _ _ _ _ Hrun).
  unfold db_commit, call, mbind, M_bind. rewrite Hc, Hf. simpl.
  eexists. split; [reflexivity|]. simpl. auto.
Qed.

(** A capital-call table whose save goes through adds its validated
    rows to the count. *)
Lemma process_call_table_runs (fund : Z) (t : table_info) (w : world) (st : stats) :
  classify_table_type t = Some CapitalCalls ->
  fault env (clock w) OpDbCommit = None ->
  exists w',
    process_table env fund t (w, st)
    = (Ok tt,
       (w', add_capital_calls
              (llen (validate_and_clean_data (parse_capital_call_table t)
                                             CapitalCalls)) st)) /\
    clock w' = Datatypes.S (clock w) /\ trace w' = trace w.
Proof.
  intros Hc Hf.
  destruct (save_calls_runs _ fund w (validated_calls_are_calls t) Hf)
    as (w' & Hrun & Hck & Htr).
  exists w'. split; [|auto].
  unfold process_table. rewrite Hc. cbv zeta.
  unfold try_catch, mbind, M_bind, lift. rewrite Hrun. reflexivity.
Qed.

(** Reading the tables of a two-page PDF when the reader answers. *)
Lemma extract_tables_two_pages (path : string) (p1 p2 : pdf_page) (w : world) :
  pdf_pages env path = [p1; p2] ->
  fault env (clock w) (OpOpenPdf path) = None ->
  fault env (Datatypes.S (clock w)) (OpExtractTables 1) = None ->
  fault env (Datatypes.S (Datatypes.S (clock w))) (OpExtractTables 2) = None ->
  extract_tables_from_pdf env path w
  = (Ok (tables_of_page 1 1 (page_tables p1)
         ++ tables_of_page 2 1 (page_tables p2)),
     tick (tick (tick w))).
Proof.
  intros Hp H0 H1 H2.
  unfold extract_tables_from_pdf, try_catch, mbind, M_bind, call.
  rewrite Hp, H0. simpl. unfold mbind, M_bind, call. simpl.
  rewrite H1. simpl. change (1 + 1) with 2.
  rewrite H2. simpl. rewrite app_nil_r. reflexivity.
Qed.

End CapitalCallRun.

(** C1, as stated, fails.  The two-page report with one capital-call
    table of two valid rows and no distribution table is processed with
    two capital calls and no distribution, and the text fallback is not
    called at all: the test of step 2.5 asks for no table, or for no
    capital call and no distribution, and here there are two capital
    calls. *)
Lemma fallback_not_called_when_calls_found :
  length report_pages = 2%nat /\
  map (fun p => length (page_tables p)) report_pages = [1%nat; 0%nat] /\
  Classifier.classify_table_type call_table = Some CapitalCalls /\
  fst (DocumentProcessor.process_document env_ok "report.pdf" 7 3 world0)
  = Ok {| success := true;
          out_stats := {| capital_calls := 2; distributions := 0; adjustments := 0;
                          text_chunks := 2; tables_found := 1; pages_processed := 2;
                          errors := [] |};
          error := None |} /\
  fallback_calls
    (trace (snd (DocumentProcessor.process_document env_ok "report.pdf" 7 3 world0)))
  = [] /\
  length (fallback_calls
            (trace (snd (DocumentProcessor.process_document env_ok "report.pdf" 7 3
                                                            world0)))) <> 1%nat.
Proof.
  repeat split; try (vm_compute; reflexivity). vm_compute. discriminate.
Qed.

(** C1, amended.  For every two-page PDF whose only table is a
    capital-call table with two valid rows, when the PDF reader answers for
    the tables and the commit of the rows goes through, the run ends with [capital_calls = 2],
    [distributions = 0] and [tables_found = 1], and the text fallback is
    not called: one count of the two is not zero. *)
Theorem capital_call_pdf_counts_without_fallback
        (env : environment) (path : string) (id fund : Z) (w : world)
        (p1 p2 : pdf_page) (t : table_info) :
  pdf_pages env path = [p1; p2] ->
  PdfReader.tables_of_page 1 1 (page_tables p1)
    ++ PdfReader.tables_of_page 2 1 (page_tables p2) = [t] ->
  Classifier.classify_table_type t = Some CapitalCalls ->
  length (TableParser.validate_and_clean_data
            (TableParser.parse_capital_call_table t) CapitalCalls) = 2%nat ->
  fault env (clock w) (OpOpenPdf path) = None ->
  fault env (clock w + 1)%nat (OpExtractTables 1) = None ->
  fault env (clock w + 2)%nat (OpExtractTables 2) = None ->
  fault env (clock w + 3)%nat OpDbCommit = None ->
  exists (out : outcome) (w' : world),
    DocumentProcessor.process_document env path id fund w = (Ok out, w') /\
    capital_calls (out_stats out) = 2 /\
    distributions (out_stats out) = 0 /\
    tables_found (out_stats out) = 1 /\
    fallback_calls (trace w') = fallback_calls (trace w).
Proof.
  intros Hpages Htables Hclass Hrows Hopen Hpage1 Hpage2 Hcommit.
  replace (clock w + 1)%nat with (Datatypes.S (clock w)) in Hpage1 by lia.
  replace (clock w + 2)%nat with (Datatypes.S (Datatypes.S (clock w))) in Hpage2 by lia.
  replace (clock w + 3)%nat
    with (Datatypes.S (Datatypes.S (Datatypes.S (clock w)))) in Hcommit by lia.
  (* steps 1 and 2 *)
  assert (Hextract :
            PdfReader.extract_tables_from_pdf env path w
            = (Ok [t], tick (tick (tick w)))).
  { rewrite <- Htables. apply extract_tables_two_pages; assumption. }
  destruct (process_call_table_runs env fund t (tick (tick (tick w)))
              (DocumentProcessor.set_tables_found 1 DocumentProcessor.stats0) Hclass)
    as (w1 & Htable & _ & Htrace1).
  { exact Hcommit. }
  unfold DocumentProcessor.llen in Htable. rewrite Hrows in Htable.
  set (st1 := DocumentProcessor.add_capital_calls (Z.of_nat 2)
                (DocumentProcessor.set_tables_found 1 DocumentProcessor.stats0))
    in Htable.
  assert (Hsteps12 :
            DocumentProcessor.process_tables env path fund (w, DocumentProcessor.stats0)
            = (Ok tt, (w1, st1))).
  { unfold DocumentProcessor.process_tables, mbind, M_bind, DocumentProcessor.lift.
    rewrite Hextract. simpl. unfold mbind, M_bind. simpl.
    change (DocumentProcessor.set_tables_found (DocumentProcessor.llen [t])
                                               DocumentProcessor.stats0)
      with (DocumentProcessor.set_tables_found 1 DocumentProcessor.stats0).
    rewrite Htable. reflexivity. }
  (* step 2.5 is skipped, steps 3 to 5 keep the counts and call no fallback *)
  assert (Hingest :
            DocumentProcessor.ingest env path id fund (w, DocumentProcessor.stats0)
            = DocumentProcessor.index_text env path id fund (w1, st1)).
  { unfold DocumentProcessor.ingest.
    rewrite (bind_ok _ _ _ _ _ Hsteps12).
    unfold DocumentProcessor.fallback_if_needed, mbind, M_bind. reflexivity. }
  pose proof (stable_index_text_stats env
                (fun st => capital_calls st = 2 /\ distributions st = 0
                           /\ tables_found st = 1)
                ltac:(auto) ltac:(auto) path id fund (w1, st1)
                ltac:(simpl; auto)) as Hcounts.
  pose proof (stable_index_text_world env
                (fun w' => fallback_calls (trace w') = fallback_calls (trace w))
                ltac:(auto) ltac:(auto) ltac:(auto) ltac:(auto)
                path id fund (w1, st1)
                ltac:(simpl; rewrite Htrace1; reflexivity)) as Hquiet.
  pose proof (process_document_cases env path id fund w) as Hcases.
  rewrite Hingest in Hcases.
  destruct (DocumentProcessor.index_text env path id fund (w1, st1))
    as [[[]|e] [w2 st2]]; simpl in Hcounts, Hquiet;
    destruct Hcases as (w' & Hu & Hrun);
    match type of Hu with
    | DocumentProcessor._update_document_status _ _ ?status ?msg _ = _ =>
        destruct (update_status_runs env id status msg w2) as (w'' & Hu' & Htr & _)
    end;
    rewrite Hu in Hu'; injection Hu' as <-;
    eexists; exists w'; (split; [exact Hrun|]); simpl;
    (repeat split; try tauto);
    unfold fallback_calls in *; rewrite Htr, List.filter_app; simpl;
    rewrite app_nil_r; exact Hquiet.
Qed.

Lemma capital_call_pdf_counts_without_fallback_witness :
  exists (out : outcome) (w' : world),
    DocumentProcessor.process_document env_embed_down "report.pdf" 7 3 world0
    = (Ok out, w') /\
    capital_calls (out_stats out) = 2 /\
    distributions (out_stats out) = 0 /\
    tables_found (out_stats out) = 1 /\
    fallback_calls (trace w') = fallback_calls (trace world0).
Proof.
  apply (capital_call_pdf_counts_without_fallback
           env_embed_down "report.pdf" 7 3 world0
           {| page_text_of := Some "Capital calls of the fund. See the table below.";
              page_tables := [call_table_data] |}
           {| page_text_of := Some "No further activity this quarter.";
              page_tables := [] |}
           call_table).
  - reflexivity.
  - reflexivity.
  - vm_compute. reflexivity.
  - vm_compute. reflexivity.
  - reflexivity.
  - reflexivity.
  - reflexivity.
  - reflexivity.
Defined.

(* ===================================================================== *)
(** * Further properties of the code *)
(* ===================================================================== *)

(** ** White space and letter case *)

Section StripFacts.

Import PyStr.

Lemma rev_acc_append (s acc : string) : rev_acc s acc = rev s +:+ acc.
Proof.
  unfold rev. revert acc.
  induction s as [|c s IH]; intros acc; [reflexivity|].
  simpl. rewrite (IH (String c EmptyString)), (IH (String c acc)).
  rewrite append_assoc. reflexivity.
Qed.

Lemma rev_cons (c : ascii) (s : string) :
  rev (String c s) = rev s +:+ String c EmptyString.
Proof. unfold rev at 1. simpl. apply rev_acc_append. Qed.

Lemma rev_append (a b : string) : rev (a +:+ b) = rev b +:+ rev a.
Proof.
  induction a as [|c a IH].
  - rewrite append_nil_l. change (rev EmptyString) with EmptyString.
    now rewrite append_nil_r.
  - rewrite append_cons, !rev_cons, IH, append_assoc. reflexivity.
Qed.

Lemma rev_involutive (s : string) : rev (rev s) = s.
Proof.
  induction s as [|c s IH]; [reflexivity|].
  rewrite rev_cons, rev_append, IH. reflexivity.
Qed.

Lemma all_space_append (a b : string) :
  all_space (a +:+ b) = all_space a && all_space b.
Proof.
  induction a as [|c a IH]; [reflexivity|].
  rewrite append_cons. simpl. rewrite IH. now rewrite andb_assoc.
Qed.

Lemma all_space_rev (s : string) : all_space (rev s) = all_space s.
Proof.
  induction s as [|c s IH]; [reflexivity|].
  rewrite rev_cons, all_space_append, IH. simpl.
  rewrite andb_true_r. apply andb_comm.
Qed.

(** Leading white space is dropped, and nothing else. *)
Lemma lstrip_pad (pad s : string) :
  all_space pad = true -> lstrip (pad +:+ s) = lstrip s.
Proof.
  induction pad as [|c pad IH]; intros H; [reflexivity|].
  simpl in H. apply andb_true_iff in H as [Hc Hp].
  rewrite append_cons. simpl. rewrite Hc. auto.
Qed.

Lemma lstrip_head (s : string) (c : ascii) (r : string) :
  lstrip s = String c r -> isspace c = false.
Proof.
  induction s as [|d s IH]; simpl; [discriminate|].
  destruct (isspace d) eqn:Ed; [exact IH|].
  intros H. injection H as <- _. exact Ed.
Qed.

Lemma lstrip_fixed (c : ascii) (r : string) :
  isspace c = false -> lstrip (String c r) = String c r.
Proof. intros H. simpl. now rewrite H. Qed.

Lemma lstrip_idem (s : string) : lstrip (lstrip s) = lstrip s.
Proof.
  destruct (lstrip s) as [|c r] eqn:E; [reflexivity|].
  apply lstrip_fixed. eapply lstrip_head. exact E.
Qed.

(** When something is left of [s], white space appended to [s] stays. *)
Lemma lstrip_append (s t : string) (c : ascii) (r : string) :
  lstrip s = String c r -> lstrip (s +:+ t) = lstrip s +:+ t.
Proof.
  induction s as [|d s IH]; simpl; [discriminate|].
  destruct (isspace d); [exact IH|].
  intros _. reflexivity.
Qed.

Lemma rstrip_pad (s pad : string) :
  all_space pad = true -> rstrip (s +:+ pad) = rstrip s.
Proof.
  intros H. unfold rstrip. rewrite rev_append, lstrip_pad; [reflexivity|].
  now rewrite all_space_rev.
Qed.

Lemma rstrip_all_space (s : string) : all_space s = true -> rstrip s = EmptyString.
Proof.
  intros H. unfold rstrip. rewrite lstrip_all_space; [reflexivity|].
  now rewrite all_space_rev.
Qed.

Lemma lstrip_empty_all_space (s : string) :
  lstrip s = EmptyString -> all_space s = true.
Proof.
  induction s as [|c s IH]; simpl; [reflexivity|].
  destruct (isspace c); [exact IH | discriminate].
Qed.

(** [strip] ignores white space around the text. *)
Lemma strip_pad (p1 s p2 : string) :
  all_space p1 = true -> all_space p2 = true ->
  strip (p1 +:+ s +:+ p2) = strip s.
Proof.
  intros H1 H2. unfold strip. rewrite lstrip_pad by exact H1.
  destruct (lstrip s) as [|c r] eqn:E.
  - rewrite (lstrip_all_space (s +:+ p2)); [reflexivity|].
    rewrite all_space_append, H2, (lstrip_empty_all_space s E). reflexivity.
  - rewrite (lstrip_append s p2 c r E), E. now apply rstrip_pad.
Qed.

(** What [strip] returns has no white space at either end. *)
Lemma lstrip_snoc (a : string) (c : ascii) :
  isspace c = false ->
  exists u, lstrip (a +:+ String c EmptyString) = u +:+ String c EmptyString.
Proof.
  intros Hc. induction a as [|d a IH].
  - exists EmptyString. simpl. now rewrite Hc.
  - rewrite append_cons. simpl. destruct (isspace d); [exact IH|].
    exists (String d a). reflexivity.
Qed.

Lemma strip_lstrip (s : string) : lstrip (strip s) = strip s.
Proof.
  unfold strip. destruct (lstrip s) as [|c r] eqn:E; [reflexivity|].
  pose proof (lstrip_head s c r E) as Hc.
  unfold rstrip. rewrite rev_cons.
  destruct (lstrip_snoc (rev r) c Hc) as [u Hu]. rewrite Hu.
  rewrite rev_append. change (rev (String c EmptyString)) with (String c EmptyString).
  rewrite append_cons, append_nil_l. now apply lstrip_fixed.
Qed.

Lemma strip_rstrip (s : string) : rstrip (strip s) = strip s.
Proof.
  unfold strip, rstrip. now rewrite rev_involutive, lstrip_idem.
Qed.

Lemma strip_idem (s : string) : strip (strip s) = strip s.
Proof. unfold strip at 1. now rewrite strip_lstrip, strip_rstrip. Qed.

(** Lower-casing leaves white space alone. *)
Lemma isspace_lower_char (c : ascii) : isspace (lower_char c) = isspace c.
Proof. destruct c as [[] [] [] [] [] [] [] []]; reflexivity. Qed.

Lemma lower_char_idem (c : ascii) : lower_char (lower_char c) = lower_char c.
Proof. destruct c as [[] [] [] [] [] [] [] []]; reflexivity. Qed.

Lemma lower_idem (s : string) : lower (lower s) = lower s.
Proof.
  induction s as [|c s IH]; simpl; [reflexivity|].
  now rewrite lower_char_idem, IH.
Qed.

Lemma lower_append (a b : string) : lower (a +:+ b) = lower a +:+ lower b.
Proof.
  induction a as [|c a IH]; [reflexivity|].
  rewrite append_cons. simpl. rewrite IH. reflexivity.
Qed.

Lemma lower_rev (s : string) : lower (rev s) = rev (lower s).
Proof.
  induction s as [|c s IH]; [reflexivity|].
  simpl lower at 2. rewrite !rev_cons, lower_append, IH. reflexivity.
Qed.

Lemma lower_lstrip (s : string) : lower (lstrip s) = lstrip (lower s).
Proof.
  induction s as [|c s IH]; simpl; [reflexivity|].
  rewrite isspace_lower_char. destruct (isspace c); [exact IH | reflexivity].
Qed.

Lemma lower_strip (s : string) : lower (strip s) = strip (lower s).
Proof.
  unfold strip, rstrip.
  now rewrite lower_rev, lower_lstrip, lower_rev, lower_lstrip.
Qed.

End StripFacts.

(** ** More on dates and booleans *)

Section MoreDateFacts.

Import PyStr Strptime DateParser.

Lemma strptime_valid (s fmt : string) (d : datetime) :
  strptime s fmt = Some d ->
  valid_date {| f_year := year d; f_month := month d; f_day := day d |} = true.
Proof.
  unfold strptime. destruct (compile fmt) as [ds|]; [|discriminate].
  destruct (match_format ds fields0 s) as [|[f [|c r]] rest]; try discriminate.
  destruct (valid_date f) eqn:Ev; [|discriminate].
  intros H. injection H as <-. simpl. destruct f. exact Ev.
Qed.

Lemma days_in_month_le_31 (y m : Z) : days_in_month y m <= 31.
Proof.
  unfold days_in_month.
  destruct (m =? 2); [destruct (is_leap y); lia|].
  destruct ((m =? 4) || (m =? 6) || (m =? 9) || (m =? 11)); lia.
Qed.

End MoreDateFacts.

(** X1.  White space around a date string does not change what
    [_parse_date] returns. *)
Theorem parse_date_ignores_padding (p1 s p2 : string) :
  PyStr.all_space p1 = true ->
  PyStr.all_space p2 = true ->
  DateParser._parse_date (DStr (p1 +:+ s +:+ p2)) = DateParser._parse_date (DStr s).
Proof.
  intros H1 H2. unfold DateParser._parse_date. now rewrite strip_pad.
Qed.

Lemma parse_date_ignores_padding_witness :
  DateParser._parse_date (DStr ("  " +:+ "2023-01-15" +:+ " "))
  = DateParser._parse_date (DStr "2023-01-15").
Proof. apply parse_date_ignores_padding; reflexivity. Defined.

(** X2.  A date that [_parse_date] reads from a string is a date of the
    calendar: the year is between 1 and 9999, the month between 1 and 12,
    and the day exists in that month of that year (29 February only in
    leap years). *)
Theorem parse_date_returns_calendar_dates (s : string) (d : datetime) :
  DateParser._parse_date (DStr s) = Some d ->
  1 <= year d <= 9999 /\
  1 <= month d <= 12 /\
  1 <= day d <= Strptime.days_in_month (year d) (month d) /\
  day d <= 31.
Proof.
  unfold DateParser._parse_date.
  destruct (PyStr.strip s) as [|c r]; [discriminate|].
  intros H. apply try_formats_some in H as (i & fmt & _ & Hs & _).
  apply strptime_valid in Hs. unfold Strptime.valid_date in Hs. simpl in Hs.
  repeat (apply andb_true_iff in Hs as [Hs ?]).
  pose proof (days_in_month_le_31 (year d) (month d)).
  lia.
Qed.

Lemma parse_date_returns_calendar_dates_witness :
  1 <= 2024 <= 9999 /\ 1 <= 2 <= 12 /\
  1 <= 29 <= Strptime.days_in_month 2024 2 /\ 29 <= 31.
Proof.
  apply (parse_date_returns_calendar_dates "February 29, 2024"
           {| year := 2024; month := 2; day := 29 |}).
  vm_compute. reflexivity.
Defined.

(** X3.  [_parse_boolean] looks at the text without its surrounding white
    space and without regard to letter case; [None] is false. *)
Theorem parse_boolean_ignores_case_and_padding (p1 s p2 : string) :
  PyStr.all_space p1 = true ->
  PyStr.all_space p2 = true ->
  TableParser._parse_boolean (Some (p1 +:+ s +:+ p2)) = TableParser._parse_boolean (Some s) /\
  TableParser._parse_boolean (Some (PyStr.lower s)) = TableParser._parse_boolean (Some s) /\
  TableParser._parse_boolean None = false.
Proof.
  intros H1 H2. unfold TableParser._parse_boolean. split; [|split].
  - now rewrite strip_pad.
  - now rewrite <- lower_strip, lower_idem.
  - reflexivity.
Qed.

Lemma parse_boolean_ignores_case_and_padding_witness :
  TableParser._parse_boolean (Some (" " +:+ "YES" +:+ "  "))
    = TableParser._parse_boolean (Some "YES") /\
  TableParser._parse_boolean (Some (PyStr.lower "YES"))
    = TableParser._parse_boolean (Some "YES") /\
  TableParser._parse_boolean None = false.
Proof. apply parse_boolean_ignores_case_and_padding; reflexivity. Defined.

(** ** More on the sentences *)

Section SentenceFacts.

Import PyStr Chunker.

Lemma is_terminator_not_space (c : ascii) :
  isspace c = true -> is_terminator c = false.
Proof.
  destruct c as [[] [] [] [] [] [] [] []]; intros H;
    first [reflexivity | discriminate H].
Qed.

(** White space alone holds no sentence boundary. *)
Lemma re_split_all_space (s cur : string) :
  all_space s = true ->
  re_split s cur false false = [rev (rev s +:+ cur)].
Proof.
  revert cur. induction s as [|c s IH]; intros cur H.
  - reflexivity.
  - simpl in H. apply andb_true_iff in H as [Hc Hs].
    simpl. rewrite (is_terminator_not_space c Hc), (IH _ Hs).
    rewrite rev_cons, append_assoc. reflexivity.
Qed.

End SentenceFacts.

(** X4.  Every sentence returned by [_split_into_sentences] is non-empty
    and has no white space at its ends; a text of white space only (the
    empty text included) has no sentence. *)
Theorem sentences_are_trimmed_and_non_empty (text : string) :
  Forall (fun x => x <> EmptyString /\ PyStr.strip x = x)
         (Chunker._split_into_sentences text) /\
  (PyStr.all_space text = true -> Chunker._split_into_sentences text = []).
Proof.
  split.
  - unfold Chunker._split_into_sentences.
    induction (Chunker.re_split text EmptyString false false) as [|x l IH];
      simpl; [constructor|].
    apply Forall_app. split; [|exact IH].
    destruct (PyStr.strip x) as [|c r] eqn:E; [constructor|].
    constructor; [|constructor]. split; [discriminate|].
    rewrite <- E. apply strip_idem.
  - intros H. unfold Chunker._split_into_sentences.
    rewrite re_split_all_space by exact H. simpl.
    rewrite append_nil_r, rev_involutive, strip_all_space by exact H.
    reflexivity.
Qed.

Lemma sentences_are_trimmed_and_non_empty_witness :
  Chunker._split_into_sentences "   " = [].
Proof.
  apply (sentences_are_trimmed_and_non_empty "   "). reflexivity.
Defined.

(** ** More on the table parsers *)

Section MoreParserFacts.

Import PyStr TableParser Props.

Lemma find_from_spec (k : nat) (hs ks : list string) :
  match find_from k hs ks with
  | Some i =>
      exists (j : nat) (h : string),
        i = (k + j)%nat /\ hs !! j = Some h /\ any_in ks h = true /\
        forall (j' : nat) (h' : string),
          (j' < j)%nat -> hs !! j' = Some h' -> any_in ks h' = false
  | None => forall h, In h hs -> any_in ks h = false
  end.
Proof.
  revert k. induction hs as [|h hs IH]; intros k; simpl.
  - intros h [].
  - destruct (any_in ks h) eqn:Eh.
    + exists 0%nat, h. repeat split; [lia | assumption|]. intros j' h' Hj. lia.
    + specialize (IH (Datatypes.S k)).
      destruct (find_from (Datatypes.S k) hs ks) as [i|].
      * destruct IH as (j & h0 & -> & Hj & Hany & Hmin).
        exists (Datatypes.S j), h0. repeat split; [lia | assumption..|].
        intros [|j'] h' Hlt Hl; simpl in Hl; [congruence|].
        eapply Hmin; [|eassumption]. lia.
      * intros h' [<-|Hin]; auto.
  Qed.

(** Where the records of a parser come from. *)
Lemma parse_rows_in (build : list cell -> option entry) (rs : list (list cell))
      (e : entry) :
  In e (parse_rows build rs) <->
  exists row, In row rs /\ row <> [] /\ blank_row row = false /\
              build row = Some e /\
              has_required (entry_date e) (get_amount e) = true.
Proof.
  unfold parse_rows. rewrite in_flat_map. split.
  - intros (row & Hin & He). exists row. split; [exact Hin|].
    destruct row as [|c row]; [destruct He|].
    destruct (blank_row (c :: row)); [destruct He|].
    destruct (build (c :: row)) as [e'|]; [|destruct He].
    destruct (has_required _ _) eqn:Hr; [|destruct He].
    destruct He as [<-|[]]. repeat split; auto.
  - intros (row & Hin & Hne & Hb & Hbuild & Hreq). exists row. split; [exact Hin|].
    destruct row as [|c row]; [congruence|].
    rewrite Hb, Hbuild, Hreq. simpl. auto.
Qed.

Lemma has_required_true (d : option datetime) (a : option PyDecimal.t) :
  has_required d a = true -> d <> None /\ a <> None.
Proof. destruct d, a; simpl; intros H; try discriminate; split; discriminate. Qed.

Lemma dist_row_is_dist (i1 i2 i3 i4 i5 : option nat) (row : list cell) (e : entry) :
  dist_row i1 i2 i3 i4 i5 row = Some e -> is_dist e.
Proof.
  unfold dist_row. intros H.
  destruct (cell_or row i1 None); simpl in H; [|discriminate].
  destruct (text_or row i3 "Distribution"); simpl in H; [|discriminate].
  destruct (cell_or row i2 None); simpl in H; [|discriminate].
  destruct (cell_or row i4 (Some "No")); simpl in H; [|discriminate].
  destruct (text_or row i5 EmptyString); simpl in H; [|discriminate].
  injection H as <-. exact I.
Qed.

(** The category and the contribution flag computed from one type text. *)
Lemma category_and_flag (a : string) :
  let cat := _classify_adjustment_category a in
  let contrib := contains "capital call" a || contains "contribution" a in
  In cat adjustment_categories /\
  (cat = "capital_call_adjustment" \/ cat = "contribution_adjustment" ->
   contrib = true) /\
  (cat = "fee_adjustment" \/ cat = "expense_adjustment" \/ cat = "other" ->
   contrib = false).
Proof.
  unfold _classify_adjustment_category, adjustment_categories.
  destruct (contains "recallable" a || contains "recalled" a);
    [|destruct (contains "capital call" a);
      [|destruct (contains "contribution" a);
        [|destruct (contains "fee" a); [|destruct (contains "expense" a)]]]];
    simpl; (split; [tauto|]);
    split; intros H; try reflexivity;
    repeat (destruct H as [H|H]); try discriminate H.
Qed.

Lemma adj_row_shape (i1 i2 i3 i4 : option nat) (row : list cell) (e : entry) :
  adj_row i1 i2 i3 i4 row = Some e -> category_agrees e.
Proof.
  unfold adj_row. intros H.
  destruct (text_or row i3 EmptyString) as [a|]; simpl in H; [|discriminate].
  destruct (cell_or row i1 None); simpl in H; [|discriminate].
  destruct (text_or row i3 "Adjustment"); simpl in H; [|discriminate].
  destruct (cell_or row i2 None); simpl in H; [|discriminate].
  destruct (text_or row i4 EmptyString); simpl in H; [|discriminate].
  injection H as <-. simpl. apply category_and_flag.
Qed.

End MoreParserFacts.

(** X5.  [_find_column_index] returns the position of the first header
    that contains one of the keywords: the position is inside the header
    list and no earlier header contains a keyword; it returns [None]
    exactly when no header contains a keyword. *)
Theorem find_column_index_is_first_match (hs ks : list string) :
  match TableParser._find_column_index hs ks with
  | Some i =>
      exists h : string,
        hs !! i = Some h /\ PyStr.any_in ks h = true /\
        forall (j : nat) (h' : string),
          (j < i)%nat -> hs !! j = Some h' -> PyStr.any_in ks h' = false
  | None => forall h, In h hs -> PyStr.any_in ks h = false
  end.
Proof.
  unfold TableParser._find_column_index.
  pose proof (find_from_spec 0 hs ks) as H.
  destruct (TableParser.find_from 0 hs ks) as [i|]; [|exact H].
  destruct H as (j & h & -> & Hj & Hany & Hmin). exists h. auto.
Qed.

Lemma find_column_index_is_first_match_witness :
  exists h : string,
    ["date"; "call number"; "total amount"] !! 2%nat = Some h /\
    PyStr.any_in ["amount"] h = true /\
    forall (j : nat) (h' : string),
      (j < 2)%nat -> ["date"; "call number"; "total amount"] !! j = Some h' ->
      PyStr.any_in ["amount"] h' = false.
Proof.
  exact (find_column_index_is_first_match
           ["date"; "call number"; "total amount"] ["amount"]).
Defined.

(** X6.  Every record returned by a table parser is of the parser's kind
    and has a date and an amount; every adjustment record has one of the
    six categories, with a contribution flag that is set for the two
    contribution categories and unset for the fee, expense and other
    categories. *)
Theorem parsed_records_are_complete (t : table_info) :
  Forall (fun e => Spec.is_call e /\ get_call_date e <> None /\ get_amount e <> None)
         (TableParser.parse_capital_call_table t) /\
  Forall (fun e => Props.is_dist e /\ get_distribution_date e <> None
                   /\ get_amount e <> None)
         (TableParser.parse_distribution_table t) /\
  Forall (fun e => Props.category_agrees e /\ get_adjustment_date e <> None
                   /\ get_amount e <> None)
         (TableParser.parse_adjustment_table t).
Proof.
  unfold TableParser.parse_capital_call_table, TableParser.parse_distribution_table,
    TableParser.parse_adjustment_table. cbv zeta.
  split; [|split]; apply Forall_forall; intros e He;
    apply list_elem_of_In, parse_rows_in in He as (row & _ & _ & _ & Hb & Hr);
    apply has_required_true in Hr as [Hd Ha].
  - apply call_row_is_call in Hb. destruct e; try contradiction. auto.
  - apply dist_row_is_dist in Hb. destruct e; try contradiction. auto.
  - apply adj_row_shape in Hb. destruct e; try contradiction. auto.
Qed.

Section RowFacts.

Import PyStr TableParser Props.

(** What a successful row build read. *)
Lemma call_row_inv (i1 i2 i3 i4 : option nat) (row : list cell) (e : entry) :
  call_row i1 i2 i3 i4 row = Some e ->
  exists d a ct ds,
    cell_or row i1 None = Some d /\ cell_or row i2 None = Some a /\
    text_or row i3 "Standard Call" = Some ct /\
    text_or row i4 EmptyString = Some ds /\
    e = CallEntry (_parse_date (date_of_cell d)) ct
                  (_parse_amount (amount_of_cell a)) ds.
Proof.
  unfold call_row. intros H.
  destruct (cell_or row i1 None) as [d|]; simpl in H; [|discriminate].
  destruct (text_or row i3 "Standard Call") as [ct|]; simpl in H; [|discriminate].
  destruct (cell_or row i2 None) as [a|]; simpl in H; [|discriminate].
  destruct (text_or row i4 EmptyString) as [ds|]; simpl in H; [|discriminate].
  injection H as <-. exists d, a, ct, ds. auto.
Qed.

Lemma dist_row_inv (i1 i2 i3 i4 i5 : option nat) (row : list cell) (e : entry) :
  dist_row i1 i2 i3 i4 i5 row = Some e ->
  exists d a ty rc ds,
    cell_or row i1 None = Some d /\ cell_or row i2 None = Some a /\
    text_or row i3 "Distribution" = Some ty /\
    cell_or row i4 (Some "No") = Some rc /\
    text_or row i5 EmptyString = Some ds /\
    e = DistEntry (_parse_date (date_of_cell d)) ty
                  (_parse_amount (amount_of_cell a)) (_parse_boolean rc) ds.
Proof.
  unfold dist_row. intros H.
  destruct (cell_or row i1 None) as [d|]; simpl in H; [|discriminate].
  destruct (text_or row i3 "Distribution") as [ty|]; simpl in H; [|discriminate].
  destruct (cell_or row i2 None) as [a|]; simpl in H; [|discriminate].
  destruct (cell_or row i4 (Some "No")) as [rc|]; simpl in H; [|discriminate].
  destruct (text_or row i5 EmptyString) as [ds|]; simpl in H; [|discriminate].
  injection H as <-. exists d, a, ty, rc, ds. auto 10.
Qed.

Lemma adj_row_inv (i1 i2 i3 i4 : option nat) (row : list cell) (e : entry) :
  adj_row i1 i2 i3 i4 row = Some e ->
  exists d a low ty ds,
    cell_or row i1 None = Some d /\ cell_or row i2 None = Some a /\
    text_or row i3 EmptyString = Some low /\
    text_or row i3 "Adjustment" = Some ty /\
    text_or row i4 EmptyString = Some ds /\
    e = AdjEntry (_parse_date (date_of_cell d)) ty
                 (_classify_adjustment_category (lower low))
                 (_parse_amount (amount_of_cell a))
                 (contains "capital call" (lower low)
                  || contains "contribution" (lower low)) ds.
Proof.
  unfold adj_row. intros H.
  destruct (text_or row i3 EmptyString) as [low|]; simpl in H; [|discriminate].
  destruct (cell_or row i1 None) as [d|]; simpl in H; [|discriminate].
  destruct (text_or row i3 "Adjustment") as [ty|]; simpl in H; [|discriminate].
  destruct (cell_or row i2 None) as [a|]; simpl in H; [|discriminate].
  destruct (text_or row i4 EmptyString) as [ds|]; simpl in H; [|discriminate].
  injection H as <-. exists d, a, low, ty, ds. auto 10.
Qed.

(** A date or an amount can only be read from a cell that holds a text,
    in a column that was found, in a row long enough. *)
Lemma date_read (row : list cell) (idx : option nat) (d : cell) :
  cell_or row idx None = Some d ->
  _parse_date (date_of_cell d) <> None ->
  exists (i : nat) (s : string),
    idx = Some i /\ row !! i = Some (Some s) /\ (i < length row)%nat /\
    _parse_date (date_of_cell d) = _parse_date (DStr s).
Proof.
  unfold cell_or, row_at. destruct idx as [i|].
  - intros Hl Hp. destruct d as [s|]; [|simpl in Hp; congruence].
    exists i, s. repeat split; auto. eapply lookup_lt_Some. exact Hl.
  - intros H Hp. injection H as <-. simpl in Hp. congruence.
Qed.

Lemma amount_read (row : list cell) (idx : option nat) (a : cell) :
  cell_or row idx None = Some a ->
  _parse_amount (amount_of_cell a) <> None ->
  exists (j : nat) (s : string),
    idx = Some j /\ row !! j = Some (Some s) /\ (j < length row)%nat /\
    _parse_amount (amount_of_cell a) = _parse_amount (AStr s).
Proof.
  unfold cell_or, row_at. destruct idx as [j|].
  - intros Hl Hp. destruct a as [s|]; [|simpl in Hp; congruence].
    exists j, s. repeat split; auto. eapply lookup_lt_Some. exact Hl.
  - intros H Hp. injection H as <-. simpl in Hp. congruence.
Qed.

(** The date and the amount of a parsed record, whatever the parser. *)
Lemma built_record_source (build : list cell -> option entry)
      (date_idx amount_idx : option nat) (rs : list (list cell)) (e : entry) :
  (forall row e', build row = Some e' ->
     exists d a, cell_or row date_idx None = Some d /\
                 cell_or row amount_idx None = Some a /\
                 entry_date e' = _parse_date (date_of_cell d) /\
                 get_amount e' = _parse_amount (amount_of_cell a)) ->
  In e (parse_rows build rs) ->
  exists (row : list cell) (i j : nat) (ds az : string),
    In row rs /\ blank_row row = false /\
    date_idx = Some i /\ amount_idx = Some j /\
    (i < length row)%nat /\ (j < length row)%nat /\
    row !! i = Some (Some ds) /\ row !! j = Some (Some az) /\
    entry_date e = _parse_date (DStr ds) /\
    get_amount e = _parse_amount (AStr az).
Proof.
  intros Hbuild He.
  apply parse_rows_in in He as (row & Hin & _ & Hblank & Hb & Hr).
  destruct (Hbuild row e Hb) as (d & a & Hd & Ha & Hed & Hea).
  apply has_required_true in Hr as [Hdn Han].
  rewrite Hed in Hdn. rewrite Hea in Han.
  destruct (date_read row date_idx d Hd Hdn) as (i & ds & -> & Hi & Hli & Hpd).
  destruct (amount_read row amount_idx a Ha Han) as (j & az & -> & Hj & Hlj & Hpa).
  exists row, i, j, ds, az. repeat split; auto; congruence.
Qed.

End RowFacts.

(** The row a record of any of the three parsers was read from. *)
Lemma record_source (t : table_info) (e : entry) :
  In e (TableParser.parse_capital_call_table t) \/
  In e (TableParser.parse_distribution_table t) \/
  In e (TableParser.parse_adjustment_table t) ->
  exists (row : list cell) (i j : nat) (ds az : string),
    In row (rows t) /\ TableParser.blank_row row = false /\
    TableParser._find_column_index (TableParser.normalize_headers (headers t)) ["date"]
      = Some i /\
    TableParser._find_column_index (TableParser.normalize_headers (headers t)) ["amount"]
      = Some j /\
    (i < length row)%nat /\ (j < length row)%nat /\
    row !! i = Some (Some ds) /\ row !! j = Some (Some az) /\
    TableParser.entry_date e = DateParser._parse_date (DStr ds) /\
    get_amount e = Amount._parse_amount (AStr az).
Proof.
  unfold TableParser.parse_capital_call_table, TableParser.parse_distribution_table,
    TableParser.parse_adjustment_table. cbv zeta.
  intros [H|[H|H]]; revert H; apply built_record_source; intros row e' Hb.
  - apply call_row_inv in Hb as (d & a & ct & ds & Hd & Ha & _ & _ & ->).
    exists d, a. auto.
  - apply dist_row_inv in Hb as (d & a & ty & rc & ds & Hd & Ha & _ & _ & _ & ->).
    exists d, a. auto.
  - apply adj_row_inv in Hb as (d & a & low & ty & ds & Hd & Ha & _ & _ & _ & ->).
    exists d, a. auto.
Qed.

(** X7.  Where a parsed record comes from.  Every record returned by one
    of the three table parsers was read from a row of the table that is
    not blank and reaches the first column whose header contains "date"
    and the first column whose header contains "amount"; the date and the
    amount of the record are what [_parse_date] and [_parse_amount] make of
    the texts in these two cells. *)
Theorem parsed_record_source (t : table_info) (e : entry) :
  In e (TableParser.parse_capital_call_table t) \/
  In e (TableParser.parse_distribution_table t) \/
  In e (TableParser.parse_adjustment_table t) ->
  exists (row : list cell) (i j : nat) (ds az : string),
    In row (rows t) /\ TableParser.blank_row row = false /\
    TableParser._find_column_index (TableParser.normalize_headers (headers t)) ["date"]
      = Some i /\
    TableParser._find_column_index (TableParser.normalize_headers (headers t)) ["amount"]
      = Some j /\
    (i < length row)%nat /\ (j < length row)%nat /\
    row !! i = Some (Some ds) /\ row !! j = Some (Some az) /\
    TableParser.entry_date e = DateParser._parse_date (DStr ds) /\
    get_amount e = Amount._parse_amount (AStr az).
Proof.
  exact (record_source t e).
Qed.

Lemma parsed_record_source_witness :
  exists (row : list cell) (i j : nat) (ds az : string),
    In row (rows call_table) /\ TableParser.blank_row row = false /\
    TableParser._find_column_index
      (TableParser.normalize_headers (headers call_table)) ["date"] = Some i /\
    TableParser._find_column_index
      (TableParser.normalize_headers (headers call_table)) ["amount"] = Some j /\
    (i < length row)%nat /\ (j < length row)%nat /\
    row !! i = Some (Some ds) /\ row !! j = Some (Some az) /\
    TableParser.entry_date
      (CallEntry (Some {| year := 2023; month := 6; day := 20 |}) "Follow-on"
                 (Some (PyDecimal.Finite false 500000 0)) "Second call")
    = DateParser._parse_date (DStr ds) /\
    get_amount
      (CallEntry (Some {| year := 2023; month := 6; day := 20 |}) "Follow-on"
                 (Some (PyDecimal.Finite false 500000 0)) "Second call")
    = Amount._parse_amount (AStr az).
Proof.
  apply (parsed_record_source call_table). left. vm_compute. auto.
Defined.

(** X8.  A table with no header containing "date", or with no header
    containing "amount", gives no record, whichever parser reads it. *)
Theorem table_without_date_or_amount_column_is_empty (t : table_info) :
  TableParser._find_column_index (TableParser.normalize_headers (headers t)) ["date"]
    = None \/
  TableParser._find_column_index (TableParser.normalize_headers (headers t)) ["amount"]
    = None ->
  TableParser.parse_capital_call_table t = [] /\
  TableParser.parse_distribution_table t = [] /\
  TableParser.parse_adjustment_table t = [].
Proof.
  intros Hnone.
  assert (Hno : forall e, ~ (In e (TableParser.parse_capital_call_table t) \/
                             In e (TableParser.parse_distribution_table t) \/
                             In e (TableParser.parse_adjustment_table t))).
  { intros e He.
    apply record_source in He as (row & i & j & ds & az & _ & _ & Hi & Hj & _).
    destruct Hnone; congruence. }
  repeat split.
  - destruct (TableParser.parse_capital_call_table t) as [|e l]; [reflexivity|].
    exfalso. apply (Hno e). simpl. auto.
  - destruct (TableParser.parse_distribution_table t) as [|e l]; [reflexivity|].
    exfalso. apply (Hno e). simpl. auto.
  - destruct (TableParser.parse_adjustment_table t) as [|e l]; [reflexivity|].
    exfalso. apply (Hno e). simpl. auto.
Qed.

Lemma table_without_date_or_amount_column_is_empty_witness :
  TableParser.parse_capital_call_table undated_table = [] /\
  TableParser.parse_distribution_table undated_table = [] /\
  TableParser.parse_adjustment_table undated_table = [].
Proof.
  apply (table_without_date_or_amount_column_is_empty undated_table).
  left. vm_compute. reflexivity.
Defined.

Section ValidationAfterParsing.

Import TableParser Props.

Lemma filter_all_true {A : Type} (f : A -> bool) (l : list A) :
  (forall x, In x l -> f x = true) -> List.filter f l = l.
Proof.
  induction l as [|x l IH]; simpl; intros H; [reflexivity|].
  rewrite (H x (or_introl eq_refl)). f_equal. apply IH. intros y Hy.
  apply H. right. exact Hy.
Qed.

Lemma filter_idem {A : Type} (f : A -> bool) (l : list A) :
  List.filter f (List.filter f l) = List.filter f l.
Proof.
  apply filter_all_true. intros x Hx. apply List.filter_In in Hx. tauto.
Qed.

(** The kind, date and amount of what each parser returns. *)
Lemma parsed_call_fields (t : table_info) (e : entry) :
  In e (parse_capital_call_table t) ->
  Spec.is_call e /\ get_call_date e <> None /\ get_amount e <> None.
Proof.
  unfold parse_capital_call_table. cbv zeta. intros He.
  apply parse_rows_in in He as (row & _ & _ & _ & Hb & Hr).
  apply has_required_true in Hr as [Hd Ha].
  apply call_row_is_call in Hb. destruct e; try contradiction. auto.
Qed.

Lemma parsed_dist_fields (t : table_info) (e : entry) :
  In e (parse_distribution_table t) ->
  is_dist e /\ get_distribution_date e <> None /\ get_amount e <> None.
Proof.
  unfold parse_distribution_table. cbv zeta. intros He.
  apply parse_rows_in in He as (row & _ & _ & _ & Hb & Hr).
  apply has_required_true in Hr as [Hd Ha].
  apply dist_row_is_dist in Hb. destruct e; try contradiction. auto.
Qed.

Lemma parsed_adj_fields (t : table_info) (e : entry) :
  In e (parse_adjustment_table t) ->
  category_agrees e /\ get_adjustment_date e <> None /\ get_amount e <> None.
Proof.
  unfold parse_adjustment_table. cbv zeta. intros He.
  apply parse_rows_in in He as (row & _ & _ & _ & Hb & Hr).
  apply has_required_true in Hr as [Hd Ha].
  apply adj_row_shape in Hb. destruct e; try contradiction. auto.
Qed.

End ValidationAfterParsing.

(** X9.  Validation after parsing.  Validating what the adjustment parser
    returned changes nothing; validating what the capital-call or the
    distribution parser returned removes exactly the records whose amount
    is a NaN, in place; and validating a second time, whatever the records
    and the category, changes nothing more. *)
Theorem validation_after_parsing (t : table_info) :
  TableParser.validate_and_clean_data
    (TableParser.parse_adjustment_table t) Adjustments
  = TableParser.parse_adjustment_table t /\
  TableParser.validate_and_clean_data
    (TableParser.parse_capital_call_table t) CapitalCalls
  = List.filter Props.amount_is_number (TableParser.parse_capital_call_table t) /\
  TableParser.validate_and_clean_data
    (TableParser.parse_distribution_table t) Distributions
  = List.filter Props.amount_is_number (TableParser.parse_distribution_table t) /\
  (forall (data : list entry) (ty : table_type),
     TableParser.validate_and_clean_data
       (TableParser.validate_and_clean_data data ty) ty
     = TableParser.validate_and_clean_data data ty).
Proof.
  repeat split.
  - rewrite validate_is_filter. apply filter_all_true. intros e He.
    apply parsed_adj_fields in He as (Hk & Hd & Ha).
    destruct e as [| |d ty c a f ds]; try contradiction. simpl in Hd, Ha.
    unfold Spec.passes. simpl.
    destruct d; [|congruence]. destruct a; [reflexivity|congruence].
  - rewrite validate_is_filter. apply List.filter_ext_in. intros e He.
    apply parsed_call_fields in He as (Hk & Hd & Ha).
    destruct e as [d ty a ds| |]; try contradiction. simpl in Hd, Ha.
    unfold Spec.passes, Props.amount_is_number. simpl.
    destruct d; [|congruence]. destruct a; [reflexivity|congruence].
  - rewrite validate_is_filter. apply List.filter_ext_in. intros e He.
    apply parsed_dist_fields in He as (Hk & Hd & Ha).
    destruct e as [|d ty a r ds|]; try contradiction. simpl in Hd, Ha.
    unfold Spec.passes, Props.amount_is_number. simpl.
    destruct d; [|congruence]. destruct a; [reflexivity|congruence].
  - intros data ty. rewrite !validate_is_filter. apply filter_idem.
Qed.

(** X10.  Columns that are absent.  When no header matches the keywords of
    an optional column, every record takes the default of that field:
    call type "Standard Call", distribution type "Distribution", not
    recallable, adjustment type "Adjustment" with category "other" and no
    contribution flag, and an empty description. *)
Theorem absent_columns_take_defaults (t : table_info) :
  let hs := TableParser.normalize_headers (headers t) in
  (TableParser._find_column_index hs ["call number"; "type"; "call"] = None ->
   Forall (fun e => Props.entry_type e = "Standard Call")
          (TableParser.parse_capital_call_table t)) /\
  (TableParser._find_column_index hs ["type"; "distribution type"] = None ->
   Forall (fun e => Props.entry_type e = "Distribution")
          (TableParser.parse_distribution_table t)) /\
  (TableParser._find_column_index hs ["recallable"; "recall"] = None ->
   Forall (fun e => Props.entry_recallable e = false)
          (TableParser.parse_distribution_table t)) /\
  (TableParser._find_column_index hs ["type"; "adjustment type"] = None ->
   Forall Props.untyped_adjustment (TableParser.parse_adjustment_table t)) /\
  (TableParser._find_column_index hs ["description"; "desc"; "notes"] = None ->
   Forall (fun e => Props.entry_description e = EmptyString)
          (TableParser.parse_capital_call_table t ++
           TableParser.parse_distribution_table t ++
           TableParser.parse_adjustment_table t)).
Proof.
  unfold TableParser.parse_capital_call_table, TableParser.parse_distribution_table,
    TableParser.parse_adjustment_table. cbv zeta.
  repeat split; intros Hnone; rewrite ?Hnone.
  - apply Forall_forall. intros e He.
    apply list_elem_of_In, parse_rows_in in He as (row & _ & _ & _ & Hb & _).
    apply call_row_inv in Hb as (d & a & ct & ds & _ & _ & Hct & _ & ->).
    simpl in Hct. injection Hct as <-. reflexivity.
  - apply Forall_forall. intros e He.
    apply list_elem_of_In, parse_rows_in in He as (row & _ & _ & _ & Hb & _).
    apply dist_row_inv in Hb as (d & a & ty & rc & ds & _ & _ & Hty & _ & _ & ->).
    simpl in Hty. injection Hty as <-. reflexivity.
  - apply Forall_forall. intros e He.
    apply list_elem_of_In, parse_rows_in in He as (row & _ & _ & _ & Hb & _).
    apply dist_row_inv in Hb as (d & a & ty & rc & ds & _ & _ & _ & Hrc & _ & ->).
    simpl in Hrc. injection Hrc as <-. reflexivity.
  - apply Forall_forall. intros e He.
    apply list_elem_of_In, parse_rows_in in He as (row & _ & _ & _ & Hb & _).
    apply adj_row_inv in Hb as (d & a & low & ty & ds & _ & _ & Hlow & Hty & _ & ->).
    simpl in Hlow, Hty. injection Hlow as <-. injection Hty as <-.
    repeat split; reflexivity.
  - apply Forall_forall. intros e He.
    apply list_elem_of_In in He.
    apply in_app_or in He as [He|He]; [|apply in_app_or in He as [He|He]];
      apply parse_rows_in in He as (row & _ & _ & _ & Hb & _).
    + apply call_row_inv in Hb as (d & a & ct & ds & _ & _ & _ & Hds & ->).
      simpl in Hds. injection Hds as <-. reflexivity.
    + apply dist_row_inv in Hb as (d & a & ty & rc & ds & _ & _ & _ & _ & Hds & ->).
      simpl in Hds. injection Hds as <-. reflexivity.
    + apply adj_row_inv in Hb as (d & a & low & ty & ds & _ & _ & _ & _ & Hds & ->).
      simpl in Hds. injection Hds as <-. reflexivity.
Qed.

Lemma absent_columns_take_defaults_witness :
  Forall (fun e => Props.entry_type e = "Distribution")
         (TableParser.parse_distribution_table plain_distribution_table) /\
  Forall (fun e => Props.entry_recallable e = false)
         (TableParser.parse_distribution_table plain_distribution_table) /\
  length (TableParser.parse_distribution_table plain_distribution_table) = 2%nat.
Proof.
  destruct (absent_columns_take_defaults plain_distribution_table)
    as (_ & Hty & Hrc & _).
  split; [apply Hty; vm_compute; reflexivity|].
  split; [apply Hrc; vm_compute; reflexivity|].
  vm_compute. reflexivity.
Defined.

Section MoreAmountFacts.

Import PyStr Amount Props.

Lemma no_space_append (a b : string) :
  no_space (a +:+ b) = no_space a && no_space b.
Proof.
  induction a as [|c a IH]; [reflexivity|].
  rewrite append_cons. simpl. rewrite IH. now rewrite andb_assoc.
Qed.

Lemma no_space_rev (s : string) : no_space (rev s) = no_space s.
Proof.
  induction s as [|c s IH]; [reflexivity|].
  rewrite rev_cons, no_space_append, IH. simpl.
  rewrite andb_true_r. apply andb_comm.
Qed.

Lemma lstrip_no_space (s : string) : no_space s = true -> lstrip s = s.
Proof.
  destruct s as [|c s]; [reflexivity|]. simpl. intros H.
  apply andb_prop in H as [Hc _]. destruct (isspace c); [discriminate|reflexivity].
Qed.

Lemma strip_no_space (s : string) : no_space s = true -> strip s = s.
Proof.
  intros H. unfold strip, rstrip. rewrite (lstrip_no_space s H).
  rewrite lstrip_no_space by (rewrite no_space_rev; exact H).
  apply rev_involutive.
Qed.

Lemma remove_chars_no_space (p : ascii -> bool) (s : string) :
  no_space s = true -> no_space (remove_chars p s) = true.
Proof.
  induction s as [|c s IH]; [reflexivity|]. simpl. intros H.
  apply andb_prop in H as [Hc Hs]. destruct (p c); [auto|].
  simpl. rewrite Hc. simpl. auto.
Qed.

Lemma remove_chars_idem (p : ascii -> bool) (s : string) :
  remove_chars p (remove_chars p s) = remove_chars p s.
Proof.
  induction s as [|c s IH]; [reflexivity|]. simpl.
  destruct (p c) eqn:E; [exact IH|]. simpl. rewrite E, IH. reflexivity.
Qed.

Lemma remove_chars_head (p : ascii -> bool) (s r : string) (c : ascii) :
  remove_chars p s = String c r -> p c = false.
Proof.
  induction s as [|x s IH]; [discriminate|]. simpl.
  destruct (p x) eqn:E; [exact IH|]. intros H. injection H as <- _. exact E.
Qed.

Lemma remove_chars_append (p : ascii -> bool) (a b : string) :
  remove_chars p (a +:+ b) = remove_chars p a +:+ remove_chars p b.
Proof.
  induction a as [|c a IH]; [reflexivity|].
  rewrite append_cons. simpl. destruct (p c); [exact IH|].
  rewrite append_cons, IH. reflexivity.
Qed.

Lemma no_paren_after_removal (s : string) :
  startswith "(" (remove_chars is_amount_symbol s) = false.
Proof.
  destruct (remove_chars is_amount_symbol s) as [|c r] eqn:E; [reflexivity|].
  apply remove_chars_head in E.
  change (startswith "(" (String c r))
    with (Ascii.eqb "(" c && startswith EmptyString r).
  destruct (Ascii.eqb "(" c) eqn:Ec; [|reflexivity].
  apply Ascii.eqb_eq in Ec. subst c. discriminate E.
Qed.

Lemma parse_amount_stripped (s : string) :
  strip s = s -> s <> EmptyString ->
  _parse_amount (AStr s)
  = signed_read (startswith "(" s && endswith ")" s)
                (remove_chars is_amount_symbol s).
Proof.
  intros Hs Hne. unfold _parse_amount. rewrite Hs.
  destruct s as [|c s']; [congruence|]. reflexivity.
Qed.

Lemma endswith_close (b : string) : endswith ")" ("(" +:+ b +:+ ")") = true.
Proof.
  unfold endswith. rewrite !rev_append. reflexivity.
Qed.

End MoreAmountFacts.

(** X11.  Accounting parentheses read as a minus sign.  For every text
    [b] without white space whose characters other than "$", ",", "(" and
    ")" do not begin with a minus sign, [_parse_amount] gives the same
    result for "(b)" and for "-b". *)
Theorem parenthesised_amount_is_minus_amount (b : string) :
  Props.no_space b = true ->
  PyStr.startswith "-" (PyStr.remove_chars Amount.is_amount_symbol b) = false ->
  Amount._parse_amount (AStr ("(" +:+ b +:+ ")"))
  = Amount._parse_amount (AStr ("-" +:+ b)).
Proof.
  intros Hb Hm.
  rewrite !parse_amount_stripped.
  - rewrite endswith_close.
    rewrite !remove_chars_append.
    change (PyStr.remove_chars Amount.is_amount_symbol "(") with EmptyString.
    change (PyStr.remove_chars Amount.is_amount_symbol ")") with EmptyString.
    change (PyStr.remove_chars Amount.is_amount_symbol "-") with "-".
    rewrite append_nil_l, append_nil_r.
    unfold Props.signed_read. rewrite Hm.
    change (PyStr.startswith "-" ("-" +:+ PyStr.remove_chars Amount.is_amount_symbol b))
      with true.
    reflexivity.
  - apply strip_no_space. rewrite no_space_append. exact Hb.
  - discriminate.
  - apply strip_no_space. rewrite !no_space_append, Hb. reflexivity.
  - discriminate.
Qed.

Lemma parenthesised_amount_is_minus_amount_witness :
  Amount._parse_amount (AStr ("(" +:+ "$500,000" +:+ ")"))
  = Amount._parse_amount (AStr ("-" +:+ "$500,000")) /\
  Amount._parse_amount (AStr "($500,000)") = Some (PyDecimal.Finite true 500000 0).
Proof.
  split.
  - apply (parenthesised_amount_is_minus_amount "$500,000"); vm_compute; reflexivity.
  - vm_compute. reflexivity.
Defined.

(** X12.  Symbols are ignored.  For every text without white space that
    is not both opened by "(" and closed by ")", [_parse_amount] gives the
    same result as for the text with every "$", ",", "(" and ")" taken
    out. *)
Theorem amount_symbols_are_ignored (s : string) :
  Props.no_space s = true ->
  PyStr.startswith "(" s && PyStr.endswith ")" s = false ->
  Amount._parse_amount (AStr s)
  = Amount._parse_amount (AStr (PyStr.remove_chars Amount.is_amount_symbol s)).
Proof.
  intros Hs Hp.
  destruct s as [|c s'] eqn:Es; [reflexivity|]. rewrite <- Es in *.
  rewrite (parse_amount_stripped s); [|apply strip_no_space; exact Hs|congruence].
  rewrite Hp.
  destruct (PyStr.remove_chars Amount.is_amount_symbol s) as [|x r] eqn:Er;
    [reflexivity|]. rewrite <- Er.
  rewrite parse_amount_stripped.
  - rewrite no_paren_after_removal, remove_chars_idem. reflexivity.
  - apply strip_no_space, remove_chars_no_space, Hs.
  - congruence.
Qed.

Lemma amount_symbols_are_ignored_witness :
  Amount._parse_amount (AStr "$(1,250.50)")
  = Amount._parse_amount (AStr (PyStr.remove_chars Amount.is_amount_symbol "$(1,250.50)"))
  /\ Amount._parse_amount (AStr "$(1,250.50)") = Some (PyDecimal.Finite false 125050 (-2)).
Proof.
  split.
  - apply (amount_symbols_are_ignored "$(1,250.50)"); vm_compute; reflexivity.
  - vm_compute. reflexivity.
Defined.

(** ** More on the chunker *)

Section MoreChunkerFacts.

Import PyStr Chunker Spec Props.

Variables chunk_size chunk_overlap : Z.

Lemma split_sentences_nonempty (text s : string) :
  In s (_split_into_sentences text) -> s <> EmptyString.
Proof.
  unfold _split_into_sentences. rewrite in_flat_map. intros (x & _ & Hs).
  destruct (strip x); [destruct Hs|]. destruct Hs as [<-|[]]. discriminate.
Qed.

Lemma len_pos (s : string) : s <> EmptyString -> 1 <= len s.
Proof. destruct s; [congruence|]. unfold len. simpl. lia. Qed.

Lemma total_len_pos (g : list string) :
  g <> [] -> Forall (fun s => s <> EmptyString) g -> 1 <= total_len g.
Proof.
  destruct g as [|x g]; [congruence|]. intros _ H.
  apply Forall_cons in H as [Hx _]. simpl.
  pose proof (len_pos x Hx). pose proof (total_len_nonneg g). lia.
Qed.

Lemma last_default {A} (l : list A) (d d' : A) :
  l <> [] -> List.last l d = List.last l d'.
Proof.
  induction l as [|x l IH]; [congruence|]. intros _.
  destruct l as [|y l]; [reflexivity|].
  change (List.last (x :: y :: l) d) with (List.last (y :: l) d).
  change (List.last (x :: y :: l) d') with (List.last (y :: l) d').
  apply IH. discriminate.
Qed.

Lemma fresh_parts_snoc (prev : list string) (gs : list (list string))
      (g : list string) :
  fresh_parts chunk_overlap prev (gs ++ [g])
  = fresh_parts chunk_overlap prev gs
    ++ drop (length (overlap_of chunk_overlap (List.last gs prev))) g.
Proof.
  revert prev. induction gs as [|x gs IH]; intros prev.
  - simpl. now rewrite app_nil_r.
  - change ((x :: gs) ++ [g]) with (x :: (gs ++ [g])).
    cbn [fresh_parts]. rewrite IH, <- app_assoc. do 3 f_equal.
    destruct gs as [|y gs]; [reflexivity|].
    change (List.last (x :: y :: gs) prev) with (List.last (y :: gs) prev).
    do 2 f_equal. apply last_default. discriminate.
Qed.

Lemma last_snoc {A} (l : list A) (x d : A) : List.last (l ++ [x]) d = x.
Proof. apply List.last_last. Qed.

Lemma covers_nonempty (seen : list string) (st : group_state) :
  g_current st <> [] ->
  fresh_parts chunk_overlap [] (g_closed st ++ [g_current st]) = seen ->
  (length (overlap_of chunk_overlap (List.last (g_closed st) []))
   <= length (g_current st))%nat ->
  (length (g_closed st) + 1 <= length seen)%nat ->
  covers chunk_overlap seen st.
Proof.
  unfold covers. destruct (g_current st); [congruence|]. auto.
Qed.

Lemma covers_step (seen : list string) (st : group_state) (s : string) :
  covers chunk_overlap seen st ->
  covers chunk_overlap (seen ++ [s]) (group_step chunk_size chunk_overlap st s).
Proof.
  unfold covers at 1, group_step.
  destruct (g_current st) as [|c cr] eqn:Ecur.
  - intros [Hc ->]. apply covers_nonempty; simpl; rewrite ?Ecur, ?Hc; simpl.
    + discriminate.
    + reflexivity.
    + unfold overlap_of. simpl. lia.
    + lia.
  - intros (Hf & Ho & Hn).
    destruct (g_length st + len s >? chunk_size).
    + destruct (overlap_loop chunk_overlap (List.rev (c :: cr)) [] 0) as [o n] eqn:Eo.
      assert (Hov : overlap_of chunk_overlap (c :: cr) = o).
      { unfold overlap_of. rewrite Eo. reflexivity. }
      apply covers_nonempty; simpl.
      * destruct o; discriminate.
      * rewrite fresh_parts_snoc, Hf, last_snoc, Hov.
        rewrite drop_app_length. reflexivity.
      * rewrite last_snoc, Hov, length_app. lia.
      * rewrite !length_app. simpl. lia.
    + apply covers_nonempty; simpl; rewrite ?Ecur.
      * discriminate.
      * rewrite fresh_parts_snoc in Hf |- *. rewrite <- Hf.
        rewrite <- app_assoc. f_equal.
        change (c :: cr ++ [s]) with ((c :: cr) ++ [s]).
        rewrite drop_app_le by exact Ho. reflexivity.
      * simpl in Ho |- *. rewrite length_app. lia.
      * rewrite length_app. simpl. lia.
Qed.

Lemma covers_fold (rest seen : list string) (st : group_state) :
  covers chunk_overlap seen st ->
  covers chunk_overlap (seen ++ rest)
         (fold_left (group_step chunk_size chunk_overlap) rest st).
Proof.
  revert seen st. induction rest as [|s rest IH]; intros seen st H; simpl.
  - now rewrite app_nil_r.
  - replace (seen ++ s :: rest) with ((seen ++ [s]) ++ rest)
      by (rewrite <- app_assoc; reflexivity).
    apply IH, covers_step, H.
Qed.

(** The groups of a page give its sentences back, and are no more than
    the sentences. *)
Lemma groups_cover (sentences : list string) :
  fresh_parts chunk_overlap [] (sentence_groups chunk_size chunk_overlap sentences)
  = sentences /\
  (length (sentence_groups chunk_size chunk_overlap sentences)
   <= length sentences)%nat /\
  (sentences <> [] -> sentence_groups chunk_size chunk_overlap sentences <> []).
Proof.
  unfold sentence_groups.
  assert (H0 : covers chunk_overlap [] group_init)
    by (unfold covers; simpl; auto).
  pose proof (covers_fold sentences [] group_init H0) as H.
  change ([] ++ sentences) with sentences in H. unfold covers in H.
  destruct (g_current _) as [|c cr].
  - destruct H as [-> ->]. simpl. split; [reflexivity|]. split; [lia|congruence].
  - destruct H as (Hf & _ & Hn). split; [exact Hf|]. split.
    + rewrite length_app. simpl. exact Hn.
    + intros _. destruct (g_closed _); discriminate.
Qed.

Lemma map_text_number_chunks (p i : Z) (gs : list (list string)) :
  map text (number_chunks p i gs) = map (join " ") gs.
Proof.
  revert i. induction gs as [|g gs IH]; intros i; [reflexivity|].
  simpl. now rewrite IH.
Qed.

Lemma length_number_chunks (p i : Z) (gs : list (list string)) :
  length (number_chunks p i gs) = length gs.
Proof.
  revert i. induction gs as [|g gs IH]; intros i; [reflexivity|].
  simpl. now rewrite IH.
Qed.

End MoreChunkerFacts.

(** X13.  No sentence is lost.  The chunks of a page are its sentence
    groups joined by single spaces; leaving out of each group the overlap
    sentences carried over from the group before, the groups put end to
    end are the sentences of the page, in order. *)
Theorem chunks_cover_the_sentences (chunk_size chunk_overlap page_num : Z)
        (sentences : list string) :
  let groups := Chunker.sentence_groups chunk_size chunk_overlap sentences in
  map text (Chunker.chunk_sentences chunk_size chunk_overlap page_num sentences)
  = map (PyStr.join " ") groups /\
  Props.fresh_parts chunk_overlap [] groups = sentences.
Proof.
  cbv zeta. split.
  - rewrite chunk_sentences_groups. apply map_text_number_chunks.
  - apply groups_cover.
Qed.

(** X14.  How many chunks.  A page gives no more chunks than it has
    sentences and at least one chunk when it has a sentence; a page of
    white space only gives none. *)
Theorem chunk_count_bounds (chunk_size chunk_overlap : Z) (p : page_text) :
  let sentences := Chunker._split_into_sentences (pt_text p) in
  let chunks := Chunker.chunk_one_page chunk_size chunk_overlap p in
  (length chunks <= length sentences)%nat /\
  (sentences <> [] -> chunks <> []) /\
  (PyStr.all_space (pt_text p) = true -> chunks = []).
Proof.
  cbv zeta. unfold Chunker.chunk_one_page.
  rewrite chunk_sentences_groups.
  destruct (groups_cover chunk_size chunk_overlap
              (Chunker._split_into_sentences (pt_text p))) as (_ & Hle & Hne).
  split; [now rewrite length_number_chunks|]. split.
  - intros H. specialize (Hne H).
    destruct (Chunker.sentence_groups _ _ _); [congruence|discriminate].
  - intros H. unfold Chunker._split_into_sentences.
    rewrite re_split_all_space by exact H. simpl.
    rewrite append_nil_r, rev_involutive, strip_all_space by exact H.
    reflexivity.
Qed.

Lemma chunk_count_bounds_witness :
  (length (Chunker.chunk_one_page 10 3 three_sentences)
   <= length (Chunker._split_into_sentences (pt_text three_sentences)))%nat /\
  Chunker.chunk_one_page 10 3 three_sentences <> [].
Proof.
  destruct (chunk_count_bounds 10 3 three_sentences) as (Hle & Hne & _).
  split; [exact Hle|]. apply Hne. vm_compute. discriminate.
Defined.

Section ChunkBudget.

Import PyStr Chunker Spec Props.

Variables chunk_size chunk_overlap : Z.

(** The overlap kept from a closed chunk, as the loop computes it. *)
Lemma overlap_of_spec (cur : list string) :
  overlap_loop chunk_overlap (List.rev cur) [] 0
  = (overlap_of chunk_overlap cur, total_len (overlap_of chunk_overlap cur)) /\
  is_overlap chunk_overlap cur (overlap_of chunk_overlap cur).
Proof.
  destruct (overlap_of_chunk chunk_overlap cur) as (o & Hrun & Ho).
  unfold overlap_of. rewrite Hrun. auto.
Qed.

Lemma overlap_of_nil : overlap_of chunk_overlap [] = [].
Proof. reflexivity. Qed.

Lemma budgeted_snoc (prev : list string) (gs : list (list string))
      (g : list string) :
  budgeted chunk_size chunk_overlap prev (gs ++ [g]) <->
  budgeted chunk_size chunk_overlap prev gs /\
  fits chunk_size chunk_overlap (List.last gs prev) g.
Proof.
  revert prev. induction gs as [|x gs IH]; intros prev.
  - simpl. tauto.
  - change ((x :: gs) ++ [g]) with (x :: (gs ++ [g])). cbn [budgeted].
    rewrite IH.
    assert (Hl : List.last (x :: gs) prev = List.last gs x).
    { destruct gs as [|y gs]; [reflexivity|].
      change (List.last (x :: y :: gs) prev) with (List.last (y :: gs) prev).
      apply last_default. discriminate. }
    rewrite Hl. tauto.
Qed.

Lemma budgeted_lookup (prev : list string) (gs : list (list string))
      (k : nat) (g : list string) :
  budgeted chunk_size chunk_overlap prev gs ->
  gs !! k = Some g ->
  fits chunk_size chunk_overlap (previous_group prev gs k) g.
Proof.
  revert prev k. induction gs as [|x gs IH]; intros prev k Hb Hk;
    [rewrite lookup_nil in Hk; discriminate|].
  destruct Hb as [Hx Hb]. destruct k as [|k].
  - injection Hk as <-. exact Hx.
  - cbn in Hk. specialize (IH x k Hb Hk).
    unfold previous_group in *. destruct k as [|k]; [exact IH|].
    cbn. destruct (gs !! k) as [y|] eqn:Ey; [exact IH|].
    apply lookup_ge_None in Ey. apply lookup_lt_Some in Hk. lia.
Qed.

Lemma is_run_grow (g seen : list string) (s : string) :
  is_run g seen -> is_run g (seen ++ [s]).
Proof.
  intros (pre & post & ->). exists pre, (post ++ [s]).
  now rewrite <- !app_assoc.
Qed.

Lemma chunk_inv_init : chunk_inv chunk_size chunk_overlap [] group_init.
Proof.
  unfold chunk_inv, group_init. cbn. repeat split; auto.
  - exists []. reflexivity.
  - congruence.
Qed.

Lemma chunk_inv_step (seen : list string) (st : group_state) (s : string) :
  chunk_inv chunk_size chunk_overlap seen st ->
  chunk_inv chunk_size chunk_overlap (seen ++ [s])
            (group_step chunk_size chunk_overlap st s).
Proof.
  intros (Hlen & Hempty & (pre & Hpre) & Hruns & Hbud).
  assert (Hruns' : Forall (fun g => is_run g (seen ++ [s])) (g_closed st)).
  { eapply List.Forall_impl; [|exact Hruns]. intros g. apply is_run_grow. }
  unfold group_step.
  destruct (g_current st) as [|c cr] eqn:Ecur.
  - rewrite (Hempty eq_refl) in *.
    unfold chunk_inv. cbn [g_closed g_current g_length]. rewrite Ecur.
    split; [rewrite Hlen; cbn; lia|].
    split; [discriminate|].
    split; [exists seen; rewrite Hpre, app_nil_r; reflexivity|].
    split; [constructor|].
    intros _. cbn. split; [|exact I]. right. exists s. reflexivity.
  - specialize (Hbud ltac:(discriminate)).
    apply budgeted_snoc in Hbud as [Hclosed Hcur].
    destruct (Z.gtb_spec (g_length st + len s) chunk_size) as [Hbig|Hfit].
    + destruct (overlap_of_spec (c :: cr)) as [Hrun Hov].
      rewrite Hrun.
      remember (overlap_of chunk_overlap (c :: cr)) as o eqn:Ho.
      unfold chunk_inv. cbn [g_closed g_current g_length].
      split; [rewrite total_len_app; cbn; lia|].
      split; [intros H; destruct o; discriminate|].
      destruct Hov as (pre' & Hsplit & _).
      split.
      { exists (pre ++ pre'). rewrite Hpre, Hsplit, <- !app_assoc. reflexivity. }
      split.
      { apply Forall_app. split; [exact Hruns'|].
        constructor; [|constructor]. exists pre, [s].
        rewrite Hpre, <- app_assoc. reflexivity. }
      intros _. apply budgeted_snoc. split.
      * apply budgeted_snoc. split; assumption.
      * rewrite last_snoc. right. exists s. rewrite Ho. reflexivity.
    + unfold chunk_inv. cbn [g_closed g_current g_length]. rewrite Ecur.
      split; [rewrite Hlen; change (c :: cr ++ [s]) with ((c :: cr) ++ [s]);
              rewrite total_len_app; cbn; lia|].
      split; [discriminate|].
      split; [exists pre; rewrite Hpre, <- app_assoc; reflexivity|].
      split; [exact Hruns'|].
      intros _. apply budgeted_snoc. split; [exact Hclosed|].
      left. change (c :: cr ++ [s]) with ((c :: cr) ++ [s]).
      rewrite total_len_app, <- Hlen. change (total_len [s]) with (len s + 0). lia.
Qed.

Lemma chunk_inv_fold (rest seen : list string) (st : group_state) :
  chunk_inv chunk_size chunk_overlap seen st ->
  chunk_inv chunk_size chunk_overlap (seen ++ rest)
            (fold_left (group_step chunk_size chunk_overlap) rest st).
Proof.
  revert seen st. induction rest as [|s rest IH]; intros seen st H; simpl.
  - now rewrite app_nil_r.
  - replace (seen ++ s :: rest) with ((seen ++ [s]) ++ rest)
      by (rewrite <- app_assoc; reflexivity).
    apply IH, chunk_inv_step, H.
Qed.

(** Every group is a run of the sentences and fits with respect to the
    group before it. *)
Lemma groups_budgeted (sentences : list string) :
  budgeted chunk_size chunk_overlap []
           (sentence_groups chunk_size chunk_overlap sentences) /\
  Forall (fun g => is_run g sentences)
         (sentence_groups chunk_size chunk_overlap sentences).
Proof.
  unfold sentence_groups.
  pose proof (chunk_inv_fold sentences [] group_init chunk_inv_init) as H.
  change ([] ++ sentences) with sentences in H.
  destruct H as (_ & Hempty & (pre & Hpre) & Hruns & Hbud).
  destruct (g_current _) as [|c cr] eqn:Ecur.
  - rewrite (Hempty eq_refl). split; constructor.
  - split; [apply Hbud; discriminate|].
    apply Forall_app. split; [exact Hruns|].
    constructor; [|constructor]. exists pre, []. now rewrite app_nil_r.
Qed.

End ChunkBudget.

(** C3, amended.  Every chunk is a non-empty run of consecutive sentences
    of its page joined by single spaces, so its [char_count] is the sum of
    the sentence lengths plus one per joint.  The sum of the sentence
    lengths is at most the chunk size, unless the chunk is the overlap
    carried over from the chunk before it on the page (the longest run of
    its trailing sentences within the overlap budget, possibly none, and
    none for the first chunk) followed by exactly one sentence; a lone
    sentence over the budget is the case of an empty overlap. *)
Theorem chunk_sentence_total_within_budget
        (chunk_size chunk_overlap : Z) (text_content : list page_text) (c : chunk) :
  In c (Chunker._chunk_text chunk_size chunk_overlap text_content) ->
  exists (p : page_text) (k : nat) (g : list string),
    let sentences := Chunker._split_into_sentences (pt_text p) in
    let groups := Chunker.sentence_groups chunk_size chunk_overlap sentences in
    let carried :=
      Props.overlap_of chunk_overlap (Props.previous_group [] groups k) in
    In p text_content /\
    groups !! k = Some g /\
    c = Chunker.make_chunk (pt_page p) (Z.of_nat k) g /\
    g <> [] /\
    Props.is_run g sentences /\
    text c = PyStr.join " " g /\
    char_count c = Chunker.total_len g + (Z.of_nat (length g) - 1) /\
    Spec.is_overlap chunk_overlap (Props.previous_group [] groups k) carried /\
    (k = 0%nat -> carried = []) /\
    (Chunker.total_len g <= chunk_size \/
     exists s : string, g = carried ++ [s]).
Proof.
  intros Hin. unfold Chunker._chunk_text in Hin.
  apply in_flat_map in Hin as (p & Hp & Hc).
  apply list_elem_of_In, list_elem_of_lookup in Hc as [k Hk].
  destruct (chunk_of_page_group _ _ _ _ _ Hk) as (g & Hg & ->).
  destruct (sentence_groups_spec chunk_size chunk_overlap
              (Chunker._split_into_sentences (pt_text p))) as [Hall _].
  destruct (groups_budgeted chunk_size chunk_overlap
              (Chunker._split_into_sentences (pt_text p))) as [Hbud Hruns].
  rewrite Forall_forall in Hall, Hruns.
  assert (Hg' : g ∈ Chunker.sentence_groups chunk_size chunk_overlap
                      (Chunker._split_into_sentences (pt_text p))).
  { apply list_elem_of_lookup. eauto. }
  destruct (Hall g Hg') as [Hne _].
  exists p, k, g. cbv zeta.
  split; [exact Hp|]. split; [exact Hg|]. split; [reflexivity|].
  split; [exact Hne|]. split; [apply Hruns; exact Hg'|].
  split; [reflexivity|]. split; [simpl; now apply len_join|].
  split; [apply overlap_of_spec|]. split; [intros ->; reflexivity|].
  exact (budgeted_lookup chunk_size chunk_overlap [] _ k g Hbud Hg).
Qed.

Lemma chunk_sentence_total_within_budget_witness :
  exists (p : page_text) (k : nat) (g : list string),
    let sentences := Chunker._split_into_sentences (pt_text p) in
    let groups := Chunker.sentence_groups 10 5 sentences in
    let carried := Props.overlap_of 5 (Props.previous_group [] groups k) in
    In p [three_sentences] /\
    groups !! k = Some g /\
    {| text := "bbbb. cccccccc."; chunk_page := 1; chunk_index := 1; char_count := 15 |}
      = Chunker.make_chunk (pt_page p) (Z.of_nat k) g /\
    g <> [] /\
    Props.is_run g sentences /\
    "bbbb. cccccccc." = PyStr.join " " g /\
    15 = Chunker.total_len g + (Z.of_nat (length g) - 1) /\
    Spec.is_overlap 5 (Props.previous_group [] groups k) carried /\
    (k = 0%nat -> carried = []) /\
    (Chunker.total_len g <= 10 \/
     exists s : string, g = carried ++ [s]).
Proof.
  apply (chunk_sentence_total_within_budget 10 5 [three_sentences]
           {| text := "bbbb. cccccccc."; chunk_page := 1; chunk_index := 1;
              char_count := 15 |}).
  vm_compute. auto.
Defined.

(** ** More on the vector store *)

Section MoreVectorStoreFacts.

Import PyStr VectorStore VectorStoreMaintenance SearchProps.

Variable env : environment.

Lemma substring_prefix (n : nat) (s : string) :
  exists rest : string,
    s = String.substring 0 n s +:+ rest /\
    (String.length (String.substring 0 n s) <= n)%nat.
Proof.
  revert n. induction s as [|c s IH]; intros n.
  - exists EmptyString. destruct n; simpl; split; auto; lia.
  - destruct n as [|n].
    + exists (String c s). simpl. split; [reflexivity|lia].
    + destruct (IH n) as (rest & Hs & Hl). exists rest. simpl. split.
      * rewrite append_cons. f_equal. exact Hs.
      * lia.
Qed.

Lemma truncated_prefix (text : string) :
  len (truncated text) <= 8000 /\
  exists rest : string, text = truncated text +:+ rest.
Proof.
  unfold truncated.
  destruct (Z.gtb_spec (len text) 8000) as [Hbig|Hfit].
  - unfold prefix_chars.
    destruct (substring_prefix (Z.to_nat 8000) text) as (rest & Hs & Hl).
    split; [unfold len; lia | exists rest; exact Hs].
  - split; [exact Hfit|]. exists EmptyString. now rewrite append_nil_r.
Qed.

(** The formatting loop leaves the world alone; it returns the rows,
    each with its score, or raises on a row whose score is NULL. *)
Lemma format_rows_cases (rows : list search_row) (w : world) :
  (exists results : list search_result,
     map_m format_row rows w = (Ok results, w) /\
     map row_of_result results = rows) \/
  (exists e : string,
     map_m format_row rows w = (Raise e, w) /\
     Exists (fun r => sr_score r = None) rows).
Proof.
  induction rows as [|r rows IH].
  - left. exists []. auto.
  - cbn [map_m].
    destruct (sr_score r) as [sc|] eqn:Esc.
    + assert (Hr : format_row r w
                   = (Ok {| res_id := sr_id r; res_document_id := sr_document_id r;
                            res_fund_id := sr_fund_id r; res_content := sr_content r;
                            res_metadata := sr_metadata r; res_score := sc |}, w))
        by (unfold format_row; rewrite Esc; reflexivity).
      rewrite (bind_ok _ _ _ _ _ Hr).
      destruct IH as [(results & Hm & Hmap)|(e & Hm & Hex)].
      * rewrite (bind_ok _ _ _ _ _ Hm). left. eexists. split; [reflexivity|].
        simpl. rewrite Hmap. f_equal. unfold row_of_result. simpl.
        destruct r; simpl in *. congruence.
      * rewrite (bind_raise _ _ _ _ _ Hm). right. exists e.
        split; [reflexivity|]. now apply Exists_cons_tl.
    + assert (Hr : format_row r w
                   = (Raise "float() argument must be a string or a real number, not 'NoneType'", w))
        by (unfold format_row; rewrite Esc; reflexivity).
      rewrite (bind_raise _ _ _ _ _ Hr). right. eexists.
      split; [reflexivity|]. apply Exists_cons_hd. exact Esc.
Qed.

End MoreVectorStoreFacts.

(** X15.  What [add_document] stores.  When the embedding call, the
    INSERT and the commit go through, [add_document] returns the id taken
    from the sequence and the embeddings table durably holds one more row,
    last, with that id, the document and fund of the metadata, the whole
    content and the embedding of the content cut to its first 8000
    characters; nothing else of the open transaction is changed and the
    transaction is committed. *)
Theorem add_document_stores_the_chunk (env : environment) (content : string)
        (md : metadata) (w : world) :
  fault env (clock w) (OpEmbed (VectorStore.truncated content)) = None ->
  fault env (S (clock w)) OpDbExecute = None ->
  fault env (S (S (clock w))) OpDbCommit = None ->
  let r := VectorStore.add_document env content md w in
  fst r = Ok (next_id w) /\
  next_id (snd r) = next_id w + 1 /\
  document_embeddings (committed (snd r))
  = document_embeddings (session w) ++ [SearchProps.new_row env content md w] /\
  documents (committed (snd r)) = documents (session w) /\
  transactions (committed (snd r)) = transactions (session w) /\
  session (snd r) = committed (snd r) /\
  PyStr.len (VectorStore.truncated content) <= 8000 /\
  exists rest : string, content = VectorStore.truncated content +:+ rest.
Proof.
  intros He Hx Hc. cbv zeta.
  assert (Hrun : VectorStore.add_document env content md w
                 = (Ok (next_id w),
                    commit_world
                      (tick (VectorStore.insert_row content
                               (embed_query env (VectorStore.truncated content)) md
                               (tick (tick w)))))).
  { unfold VectorStore.add_document.
    apply try_catch_ok.
    rewrite (bind_ok _ _ _ _ _ (get_embedding_returns env content w He)).
    unfold VectorStore.insert_embedding, db_commit, call, mbind, M_bind, get, modify,
      mret, M_ret.
    cbn [clock tick]. rewrite Hx. cbn [clock tick VectorStore.insert_row].
    rewrite Hc. reflexivity. }
  rewrite Hrun. cbn [fst snd].
  destruct (truncated_prefix content) as [Hlen Hrest].
  repeat split; try reflexivity; assumption.
Qed.

Lemma add_document_stores_the_chunk_witness :
  fst (VectorStore.add_document env_ok "Capital calls of the fund." metadata0 world0)
  = Ok 1 /\
  document_embeddings
    (committed (snd (VectorStore.add_document env_ok "Capital calls of the fund."
                       metadata0 world0)))
  = [SearchProps.new_row env_ok "Capital calls of the fund." metadata0 world0].
Proof.
  destruct (add_document_stores_the_chunk env_ok "Capital calls of the fund."
              metadata0 world0 eq_refl eq_refl eq_refl) as (Hr & _ & Hrows & _).
  split; [exact Hr | exact Hrows].
Defined.

Section SearchRun.

Import VectorStore SearchProps.

Variable env : environment.

Lemma ticks_keep (n : nat) (w : world) :
  committed (Nat.iter n tick w) = committed w /\
  session (Nat.iter n tick w) = session w /\
  next_id (Nat.iter n tick w) = next_id w /\
  trace (Nat.iter n tick w) = trace w.
Proof.
  induction n as [|n IH]; [auto|]. simpl. exact IH.
Qed.

(** The run of a search: the clock advances, and the result is empty or
    the rows answered. *)
Lemma search_run (query : string) (k : Z)
      (flt : option (list (string * option Z))) (w : world) :
  let rows := db_select env (session w) (embed_query env (truncated query))
                (filter_conditions flt) k in
  exists (results : list search_result) (n : nat),
    similarity_search env query k flt w = (Ok results, Nat.iter n tick w) /\
    (results = [] \/ map row_of_result results = rows) /\
    (fault env (clock w) (OpEmbed (truncated query)) = None ->
     fault env (S (clock w)) OpDbExecute = None ->
     Forall (fun row => sr_score row <> None) rows ->
     map row_of_result results = rows) /\
    (Exists (fun row => sr_score row = None) rows -> results = []).
Proof.
  cbv zeta. unfold similarity_search.
  destruct (fault env (clock w) (OpEmbed (truncated query))) as [e|] eqn:He.
  - exists [], 1%nat. split; [|repeat split; auto; congruence].
    rewrite (try_catch_raise _ _ _ _ _
               (bind_raise _ _ _ _ _ (get_embedding_raises env query e w He))).
    reflexivity.
  - destruct (fault env (S (clock w)) OpDbExecute) as [e|] eqn:Hx.
    + exists [], 2%nat. split; [|repeat split; auto; congruence].
      unfold try_catch.
      rewrite (bind_ok _ _ _ _ _ (get_embedding_returns env query w He)).
      unfold call, mbind, M_bind. cbn [clock tick]. rewrite Hx. reflexivity.
    + destruct (format_rows_cases
                  (db_select env (session w) (embed_query env (truncated query))
                     (filter_conditions flt) k) (tick (tick w)))
        as [(results & Hm & Hmap)|(e & Hm & Hex)].
      * exists results, 2%nat. split; [|repeat split; auto].
        -- unfold try_catch.
           rewrite (bind_ok _ _ _ _ _ (get_embedding_returns env query w He)).
           unfold call, mbind, M_bind, get. cbn [clock tick]. rewrite Hx.
           cbn [session tick]. rewrite Hm. reflexivity.
        -- intros Hnull. rewrite <- Hmap in Hnull.
           apply Exists_exists in Hnull as (row & Hin & Hrow).
           apply list_elem_of_In, in_map_iff in Hin as (res & <- & _).
           discriminate Hrow.
      * exists [], 2%nat. split; [|repeat split; auto].
        -- unfold try_catch.
           rewrite (bind_ok _ _ _ _ _ (get_embedding_returns env query w He)).
           unfold call, mbind, M_bind, get. cbn [clock tick]. rewrite Hx.
           cbn [session tick]. rewrite Hm. reflexivity.
        -- intros _ _ Hall. exfalso.
           apply Exists_exists in Hex as (row & Hin & Hrow).
           rewrite Forall_forall in Hall. exact (Hall row Hin Hrow).
Qed.

End SearchRun.

(** X16.  [similarity_search] only reads.  Whatever the collaborators do,
    the call leaves the durable state, the open transaction, the id
    sequence and the recorded calls as they were, and returns either
    nothing or every row the database answered, in the database's order,
    each with its score.  It returns all the rows when the embedding call
    and the query go through and no score is NULL; one NULL score makes
    the whole result empty. *)
Theorem similarity_search_only_reads (env : environment) (query : string) (k : Z)
        (flt : option (list (string * option Z))) (w : world) :
  let r := VectorStore.similarity_search env query k flt w in
  let rows := db_select env (session w)
                (embed_query env (VectorStore.truncated query))
                (VectorStore.filter_conditions flt) k in
  committed (snd r) = committed w /\ session (snd r) = session w /\
  next_id (snd r) = next_id w /\ trace (snd r) = trace w /\
  exists results : list search_result,
    fst r = Ok results /\
    (results = [] \/ map SearchProps.row_of_result results = rows) /\
    (fault env (clock w) (OpEmbed (VectorStore.truncated query)) = None ->
     fault env (S (clock w)) OpDbExecute = None ->
     Forall (fun row => sr_score row <> None) rows ->
     map SearchProps.row_of_result results = rows) /\
    (Exists (fun row => sr_score row = None) rows -> results = []).
Proof.
  cbv zeta.
  destruct (search_run env query k flt w) as (results & n & Hrun & H1 & H2 & H3).
  rewrite Hrun. cbn [fst snd].
  destruct (ticks_keep n w) as (Hc & Hs & Hn & Ht).
  repeat split; try assumption.
  exists results. auto.
Qed.

Lemma similarity_search_only_reads_witness :
  exists results : list search_result,
    fst (VectorStore.similarity_search env_found "capital calls" 5
           (Some [("fund_id", Some 3)]) world0) = Ok results /\
    map SearchProps.row_of_result results = found_rows.
Proof.
  destruct (similarity_search_only_reads env_found "capital calls" 5
              (Some [("fund_id", Some 3)]) world0)
    as (_ & _ & _ & _ & results & Hr & _ & Hall & _).
  exists results. split; [exact Hr|].
  apply Hall; try reflexivity.
  repeat constructor; discriminate.
Defined.

Section ClearRun.

Import VectorStoreMaintenance.

Variable env : environment.

Lemma clear_run (fund_id : option Z) (w : world) :
  match fault env (clock w) OpDbExecute, fault env (S (clock w)) OpDbCommit with
  | None, None =>
      clear env fund_id w
      = (Ok tt, commit_world
                  (tick (set_session (delete_embeddings fund_id) (tick w))))
  | None, Some _ =>
      clear env fund_id w
      = (Ok tt, rollback_world
                  (tick (set_session (delete_embeddings fund_id) (tick w))))
  | Some _, _ => clear env fund_id w = (Ok tt, rollback_world (tick w))
  end.
Proof.
  unfold clear, try_catch, db_commit, db_rollback, call, mbind, M_bind, modify.
  destruct (fault env (clock w) OpDbExecute) as [e|] eqn:Hx; [reflexivity|].
  cbn [clock tick set_session].
  destruct (fault env (S (clock w)) OpDbCommit) as [e|] eqn:Hc; reflexivity.
Qed.

Lemma delete_keeps_other_tables (fund_id : option Z) (s : store) :
  documents (delete_embeddings fund_id s) = documents s /\
  transactions (delete_embeddings fund_id s) = transactions s.
Proof. split; reflexivity. Qed.

Lemma delete_by_fund (f : Z) (s : store) (row : embedding_row) :
  f <> 0 ->
  In row (document_embeddings (delete_embeddings (Some f) s)) <->
  In row (document_embeddings s) /\ er_fund_id row <> Some f.
Proof.
  intros Hf. unfold delete_embeddings. cbn [document_embeddings].
  destruct (Z.eqb_spec f 0) as [|_]; [contradiction|].
  rewrite List.filter_In. unfold fund_is.
  split; intros [Hin Hr]; (split; [exact Hin|]).
  - destruct (er_fund_id row) as [g|]; [|discriminate].
    destruct (Z.eqb_spec g f); [discriminate Hr|congruence].
  - destruct (er_fund_id row) as [g|]; [|reflexivity].
    destruct (Z.eqb_spec g f); [congruence|reflexivity].
Qed.

End ClearRun.

(** X17.  [clear] is all or nothing and never raises.  Whatever the
    database does, [clear] returns; afterwards nothing is left pending in
    the session, and the durable state is either what it was (a failure,
    rolled back) or the open transaction with the embeddings deleted. *)
Theorem clear_is_all_or_nothing (env : environment) (fund_id : option Z)
        (w : world) :
  let r := VectorStoreMaintenance.clear env fund_id w in
  fst r = Ok tt /\
  session (snd r) = committed (snd r) /\
  next_id (snd r) = next_id w /\ trace (snd r) = trace w /\
  (committed (snd r) = committed w \/
   committed (snd r) = VectorStoreMaintenance.delete_embeddings fund_id (session w)).
Proof.
  cbv zeta. pose proof (clear_run env fund_id w) as H.
  destruct (fault env (clock w) OpDbExecute);
    [|destruct (fault env (S (clock w)) OpDbCommit)]; rewrite H; cbn; auto 10.
Qed.

(** X18.  Which embeddings [clear] removes.  When the DELETE and the
    commit go through, the documents and the transactions are untouched;
    with no fund, or with fund 0, every embedding is deleted; with another
    fund, exactly the embeddings of that fund are deleted. *)
Theorem clear_removes_the_rows_of_the_fund (env : environment)
        (fund_id : option Z) (w : world) :
  fault env (clock w) OpDbExecute = None ->
  fault env (S (clock w)) OpDbCommit = None ->
  let s' := committed (snd (VectorStoreMaintenance.clear env fund_id w)) in
  documents s' = documents (session w) /\
  transactions s' = transactions (session w) /\
  (fund_id = None \/ fund_id = Some 0 -> document_embeddings s' = []) /\
  (forall f : Z, fund_id = Some f -> f <> 0 ->
   forall row : embedding_row,
     In row (document_embeddings s') <->
     In row (document_embeddings (session w)) /\ er_fund_id row <> Some f).
Proof.
  intros Hx Hc. cbv zeta. pose proof (clear_run env fund_id w) as H.
  rewrite Hx, Hc in H. rewrite H.
  cbn [snd committed commit_world session tick set_session].
  split; [reflexivity|]. split; [reflexivity|]. split.
  - intros [->| ->]; reflexivity.
  - intros f -> Hf row. apply delete_by_fund. exact Hf.
Qed.

Lemma clear_removes_the_rows_of_the_fund_witness :
  document_embeddings
    (committed (snd (VectorStoreMaintenance.clear env_ok (Some 0) world_two_funds)))
  = [] /\
  (In (row_of_fund 2 (Some 4))
      (document_embeddings
         (committed (snd (VectorStoreMaintenance.clear env_ok (Some 3)
                            world_two_funds)))) <->
   In (row_of_fund 2 (Some 4)) (document_embeddings (session world_two_funds)) /\
   er_fund_id (row_of_fund 2 (Some 4)) <> Some 3).
Proof.
  split.
  - destruct (clear_removes_the_rows_of_the_fund env_ok (Some 0) world_two_funds
                eq_refl eq_refl) as (_ & _ & Hall & _).
    apply Hall. right. reflexivity.
  - destruct (clear_removes_the_rows_of_the_fund env_ok (Some 3) world_two_funds
                eq_refl eq_refl) as (_ & _ & _ & Hsome).
    apply (Hsome 3); [reflexivity | lia].
Defined.

(** X19.  [_ensure_extension] never raises and is all or nothing.  When
    its statements and the commit go through, the extension and the table
    exist, the index exists exactly when the table holds more than 100
    rows (an index that existed is dropped otherwise) and what the session
    held is durable; when one of them fails, the catalog and the durable
    state are as before.  In both cases nothing is left pending. *)
Theorem ensure_extension_is_all_or_nothing (env : environment) (w : world)
        (c : schema) :
  let r := VectorStoreMaintenance._ensure_extension env (w, c) in
  let count := Z.of_nat (length (document_embeddings (session w))) in
  let ready := {| has_extension := true; has_table := true;
                  has_index := count >? 100 |} in
  fst r = Ok tt /\
  cat_session (snd (snd r)) = cat_committed (snd (snd r)) /\
  session (fst (snd r)) = committed (fst (snd r)) /\
  (SetupProps.setup_goes_through env w = true ->
   cat_committed (snd (snd r)) = ready /\
   committed (fst (snd r)) = session w) /\
  (SetupProps.setup_goes_through env w = false ->
   cat_committed (snd (snd r)) = cat_committed c /\
   committed (fst (snd r)) = committed w).
Proof.
  cbv zeta.
  destruct (VectorStoreMaintenance._ensure_extension env (w, c)) as [r [w' c']] eqn:Hrun.
  cbn [fst snd].
  unfold VectorStoreMaintenance._ensure_extension, try_catch,
    VectorStoreMaintenance.ddl, VectorStoreMaintenance.count_embeddings,
    VectorStoreMaintenance.commit_all, VectorStoreMaintenance.rollback_all,
    VectorStoreMaintenance.on_world, db_commit, db_rollback, call,
    mbind, M_bind, modify, get, mret, M_ret in Hrun.
  cbn [clock tick fst snd session] in Hrun.
  unfold SetupProps.setup_goes_through, SetupProps.answered.
  repeat match type of Hrun with
         | context [fault env ?n ?op] =>
             let Hf := fresh "Hf" in
             destruct (fault env n op) eqn:Hf;
             cbn [clock tick fst snd session commit_world rollback_world] in Hrun;
             [ injection Hrun as <- <- <-; cbn;
               repeat split; auto; congruence | ]
         | context [Z.of_nat ?n >? 100] =>
             destruct (Z.of_nat n >? 100) eqn:Hcount;
             cbn [clock tick fst snd session commit_world rollback_world] in Hrun
         end.
  - injection Hrun as <- <- <-. cbn. repeat split; auto; congruence.
  - injection Hrun as <- <- <-. cbn. repeat split; auto; congruence.
Qed.

Lemma ensure_extension_is_all_or_nothing_witness :
  (cat_committed (snd (snd (VectorStoreMaintenance._ensure_extension env_ok
                             (world_two_funds, schema0))))
   = {| has_extension := true; has_table := true; has_index := false |} /\
   committed (fst (snd (VectorStoreMaintenance._ensure_extension env_ok
                          (world_two_funds, schema0))))
   = session world_two_funds) /\
  (cat_committed (snd (snd (VectorStoreMaintenance._ensure_extension
                             env_commit_refused (world_two_funds, schema0))))
   = cat_committed schema0 /\
   committed (fst (snd (VectorStoreMaintenance._ensure_extension
                          env_commit_refused (world_two_funds, schema0))))
   = committed world_two_funds).
Proof.
  split.
  - destruct (ensure_extension_is_all_or_nothing env_ok world_two_funds schema0)
      as (_ & _ & _ & Hgo & _).
    apply Hgo. reflexivity.
  - destruct (ensure_extension_is_all_or_nothing env_commit_refused
                world_two_funds schema0) as (_ & _ & _ & _ & Hfail).
    apply Hfail. reflexivity.
Defined.

(** ** More on the run of [process_document] *)

Section After.

Context {S : Type}.

(** A property reached by the first part of a computation and kept by
    what follows holds at the end. *)
Lemma after_bind {A B} (Q : S -> Prop) (m : M S A) (k : A -> M S B) (s : S) :
  Q (snd (m s)) -> (forall a, Spec.stable Q (k a)) -> Q (snd ((m ≫= k) s)).
Proof.
  intros Hm Hk. unfold mbind, M_bind.
  destruct (m s) as [[a|e] s1]; simpl in *; [now apply Hk | exact Hm].
Qed.

Lemma after_try_catch {A} (Q : S -> Prop) (m : M S A) (h : string -> M S A) (s : S) :
  Q (snd (m s)) -> (forall e, Spec.stable Q (h e)) -> Q (snd (try_catch m h s)).
Proof.
  intros Hm Hh. unfold try_catch.
  destruct (m s) as [[a|e] s1]; simpl in *; [exact Hm | now apply Hh].
Qed.

End After.

Section FallbackCalls.

Import Spec DocumentProcessor RunProps.

Variable env : environment.

(** The text fallback records its call, once. *)
Lemma extract_data_trace (path : string) (w : world) :
  trace (snd (extract_data_from_text env path w))
  = trace w ++ [EvTextFallback path].
Proof.
  unfold extract_data_from_text, record_event.
  apply (after_bind (fun w' => trace w' = trace w ++ [EvTextFallback path])).
  - reflexivity.
  - intros _. destruct (negb (llm_client env)); [apply stable_ret|].
    repeat first [apply stable_call | apply stable_full_text_of | stable_step];
      auto.
Qed.

Lemma text_fallback_trace (path : string) (fund : Z) (s : run_state) :
  trace (fst (snd (text_fallback env path fund s)))
  = trace (fst s) ++ [EvTextFallback path].
Proof.
  unfold text_fallback. cbv zeta.
  apply (after_try_catch
           (fun s' : run_state => trace (fst s') = trace (fst s) ++ [EvTextFallback path]));
    [|intros e; apply (stable_update_stats_world
                         (fun w' => trace w' = trace (fst s) ++ [EvTextFallback path]))].
  apply (after_bind
           (fun s' : run_state => trace (fst s') = trace (fst s) ++ [EvTextFallback path])).
  - destruct s as [w st]. unfold lift.
    pose proof (extract_data_trace path w) as H.
    destruct (extract_data_from_text env path w) as [r w']. exact H.
  - intros [calls dists]. simpl.
    repeat first
      [ apply (stable_lift_world
                 (fun w' => trace w' = trace (fst s) ++ [EvTextFallback path]));
        first [ apply stable_save_capital_calls
              | apply stable_save_distributions ]; auto
      | apply (stable_update_stats_world
                 (fun w' => trace w' = trace (fst s) ++ [EvTextFallback path]))
      | stable_step ].
Qed.

(** Steps 1 to 5 record the call of the text fallback when it is due,
    and nothing else. *)
Lemma ingest_trace (path : string) (id fund : Z) (s : run_state) :
  trace (fst (snd (ingest env path id fund s)))
  = trace (fst s) ++ fallback_due path (process_tables env path fund s).
Proof.
  assert (Ht : trace (fst (snd (process_tables env path fund s))) = trace (fst s)).
  { apply (stable_process_tables_world env (fun w' => trace w' = trace (fst s)));
      auto. }
  unfold ingest.
  destruct (process_tables env path fund s) as [[[]|e] [w1 st1]] eqn:Hpt;
    cbn [fst snd] in Ht; unfold fallback_due.
  - rewrite (bind_ok _ _ _ _ _ Hpt).
    set (target := trace (fst s)
                   ++ (if needs_fallback st1 then [EvTextFallback path] else [])).
    apply (after_bind (fun s' : run_state => trace (fst s') = target)).
    + unfold fallback_if_needed, get_stats, mbind, M_bind.
      destruct (needs_fallback st1) eqn:Hn; unfold target.
      * rewrite text_fallback_trace. cbn [fst]. now rewrite Ht.
      * cbn. now rewrite app_nil_r.
    + intros _. apply (stable_index_text_world env (fun w' => trace w' = target));
        auto.
  - rewrite (bind_raise _ _ _ _ _ Hpt). cbn [fst snd]. now rewrite app_nil_r.
Qed.

End FallbackCalls.

(** The calls of the text fallback in a whole run. *)
Lemma run_fallback_calls (env : environment) (path : string)
        (id fund : Z) (w : world) :
  fallback_calls (trace (snd (DocumentProcessor.process_document env path id fund w)))
  = fallback_calls (trace w)
    ++ RunProps.fallback_due path
         (DocumentProcessor.process_tables env path fund
            (w, DocumentProcessor.stats0)).
Proof.
  pose proof (process_document_cases env path id fund w) as Hcases.
  pose proof (ingest_trace env path id fund (w, DocumentProcessor.stats0)) as Htr.
  cbn [fst] in Htr.
  assert (Hdue : fallback_calls
                   (RunProps.fallback_due path
                      (DocumentProcessor.process_tables env path fund
                         (w, DocumentProcessor.stats0)))
                 = RunProps.fallback_due path
                     (DocumentProcessor.process_tables env path fund
                        (w, DocumentProcessor.stats0))).
  { unfold RunProps.fallback_due.
    destruct (DocumentProcessor.process_tables env path fund _) as [[[]|e] [w1 st1]];
      [destruct (DocumentProcessor.needs_fallback st1)|]; reflexivity. }
  destruct (DocumentProcessor.ingest env path id fund (w, DocumentProcessor.stats0))
    as [[[]|e] [w1 st]]; cbn [fst snd] in Htr;
    destruct Hcases as (w' & Hu & ->); cbn [snd];
    [ destruct (update_status_runs env id "completed" None w1) as (w2 & Hu2 & Ht2 & _)
    | destruct (update_status_runs env id "failed"
                  (Some (DocumentProcessor.fatal_message path e)) w1)
        as (w2 & Hu2 & Ht2 & _) ];
    rewrite Hu in Hu2; injection Hu2 as <-;
    rewrite Ht2, Htr; unfold fallback_calls;
    rewrite !List.filter_app; cbn [List.filter is_fallback];
    rewrite app_nil_r; f_equal; exact Hdue.
Qed.

(** X20.  When the text fallback is called.  In a run of
    [process_document] the text fallback [extract_data_from_text] is
    called once, with the file of the run, when the extraction of the
    tables returned and the table step ended with no table found or with
    no capital call and no distribution counted; it is not called
    otherwise, and never twice. *)
Theorem fallback_called_exactly_when_due (env : environment) (path : string)
        (id fund : Z) (w : world) :
  fallback_calls (trace (snd (DocumentProcessor.process_document env path id fund w)))
  = fallback_calls (trace w)
    ++ RunProps.fallback_due path
         (DocumentProcessor.process_tables env path fund
            (w, DocumentProcessor.stats0)).
Proof.
  apply run_fallback_calls.
Qed.

Section TableStep.

Import Spec Props DocumentProcessor RunProps.

Variable env : environment.

Lemma stage_keeps (fund : Z) (data : list entry) (w : world) :
  clock (stage fund data w) = clock w /\
  committed (stage fund data w) = committed w /\
  transactions (session (stage fund data w))
  = transactions (session w) ++ map (pair fund) data.
Proof.
  unfold stage. revert w. induction data as [|e data IH]; intros w; simpl.
  - now rewrite app_nil_r.
  - destruct (IH (set_session (add_transaction fund e) w)) as (Hc & Hm & Ht).
    rewrite Hc, Hm, Ht. simpl. rewrite <- app_assoc. auto.
Qed.

Lemma add_calls_stage (data : list entry) (fund : Z) (w : world) :
  Forall is_call data ->
  for_each data (fun e => match e with
                          | CallEntry _ _ _ _ => db_add fund e
                          | _ => raise "'call_date'"
                          end) w = (Ok tt, stage fund data w).
Proof.
  intros H. revert w. induction H as [|e data He _ IH]; intros w; [reflexivity|].
  destruct e; try contradiction. cbn [for_each].
  unfold mbind, M_bind, db_add, modify. rewrite IH. reflexivity.
Qed.

Lemma add_dists_stage (data : list entry) (fund : Z) (w : world) :
  Forall is_dist data ->
  for_each data (fun e => match e with
                          | DistEntry _ _ _ _ _ => db_add fund e
                          | _ => raise "'distribution_date'"
                          end) w = (Ok tt, stage fund data w).
Proof.
  intros H. revert w. induction H as [|e data He _ IH]; intros w; [reflexivity|].
  destruct e; try contradiction. cbn [for_each].
  unfold mbind, M_bind, db_add, modify. rewrite IH. reflexivity.
Qed.

Lemma add_adjs_stage (data : list entry) (fund : Z) (w : world) :
  Forall is_adj data ->
  for_each data (fun e => match e with
                          | AdjEntry _ _ _ _ _ _ => db_add fund e
                          | _ => raise "'adjustment_date'"
                          end) w = (Ok tt, stage fund data w).
Proof.
  intros H. revert w. induction H as [|e data He _ IH]; intros w; [reflexivity|].
  destruct e; try contradiction. cbn [for_each].
  unfold mbind, M_bind, db_add, modify. rewrite IH. reflexivity.
Qed.

(** The commit that ends a save. *)
Lemma commit_after_stage (fund : Z) (data : list entry) (w : world) :
  db_commit env (stage fund data w)
  = match fault env (clock w) OpDbCommit with
    | None => (Ok tt, commit_world (tick (stage fund data w)))
    | Some e => (Raise e, tick (stage fund data w))
    end.
Proof.
  unfold db_commit, call, mbind, M_bind, modify.
  destruct (stage_keeps fund data w) as (-> & _ & _).
  destruct (fault env (clock w) OpDbCommit); reflexivity.
Qed.

Lemma validated_kinds (ty : table_type) (t : table_info) :
  Forall (match ty with
          | CapitalCalls => is_call
          | Distributions => is_dist
          | Adjustments => is_adj
          end) (records_of ty t).
Proof.
  unfold records_of. destruct ty; rewrite validate_is_filter;
    apply Forall_forall; intros e He;
    apply list_elem_of_In, filter_In in He as [He _].
  - apply parsed_call_fields in He. tauto.
  - apply parsed_dist_fields in He. tauto.
  - apply parsed_adj_fields in He as (Hc & _). destruct e; try contradiction. exact I.
Qed.

(** One table of a known type: the save, then the count or the report. *)
Lemma process_table_run (fund : Z) (t : table_info) (ty : table_type)
      (w : world) (st : stats) :
  Classifier.classify_table_type t = Some ty ->
  process_table env fund t (w, st)
  = match fault env (clock w) OpDbCommit with
    | None =>
        (Ok tt, (commit_world (tick (stage fund (records_of ty t) w)),
                 counted ty (llen (records_of ty t)) st))
    | Some e =>
        (Ok tt, (tick (stage fund (records_of ty t) w),
                 append_error (table_error t e) st))
    end.
Proof.
  intros Hty. unfold process_table.
  rewrite Hty.
  pose proof (validated_kinds ty t) as Hk.
  pose proof (commit_after_stage fund (records_of ty t) w) as Hc.
  destruct ty; unfold records_of in *; cbv zeta;
    unfold try_catch, mbind at 1, M_bind at 1, lift,
      _save_capital_calls, _save_distributions, _save_adjustments.
  - rewrite (bind_ok _ _ _ _ _ (add_calls_stage _ fund w Hk)), Hc.
    destruct (fault env (clock w) OpDbCommit); reflexivity.
  - rewrite (bind_ok _ _ _ _ _ (add_dists_stage _ fund w Hk)), Hc.
    destruct (fault env (clock w) OpDbCommit); reflexivity.
  - rewrite (bind_ok _ _ _ _ _ (add_adjs_stage _ fund w Hk)), Hc.
    destruct (fault env (clock w) OpDbCommit); reflexivity.
Qed.

End TableStep.

(** X21.  One table of step 2.  Processing a table never raises.  A
    table of no known type changes nothing.  For a table of a known type,
    when the commit of its rows goes through, the counter of that type
    grows by the number of validated records and these records are durably
    stored for the fund, after what the open transaction held, in table
    order; when the commit fails, no counter changes and one message
    "Error processing table on page N: e" is appended to the errors. *)
Theorem process_table_counts_or_reports (env : environment) (fund : Z)
        (t : table_info) (w : world) (st : stats) :
  let r := DocumentProcessor.process_table env fund t (w, st) in
  fst r = Ok tt /\
  match Classifier.classify_table_type t with
  | None => snd r = (w, st)
  | Some ty =>
      let data := RunProps.records_of ty t in
      match fault env (clock w) OpDbCommit with
      | None =>
          snd (snd r) = RunProps.counted ty (DocumentProcessor.llen data) st /\
          transactions (committed (fst (snd r)))
          = transactions (session w) ++ map (pair fund) data
      | Some e =>
          snd (snd r)
          = DocumentProcessor.append_error (RunProps.table_error t e) st
      end
  end.
Proof.
  cbv zeta.
  destruct (Classifier.classify_table_type t) as [ty|] eqn:Hty.
  - rewrite (process_table_run env fund t ty w st Hty).
    destruct (fault env (clock w) OpDbCommit) as [e|]; cbn [fst snd].
    + auto.
    + split; [reflexivity|]. split; [reflexivity|].
      cbn [committed commit_world session tick].
      apply stage_keeps.
  - unfold DocumentProcessor.process_table. rewrite Hty. split; reflexivity.
Qed.

Section FallbackStep.

Import Spec DocumentProcessor RunProps.

Variable env : environment.

(** A [try] whose body reaches [P] and whose handler leads from [P] to
    [Q] ends in [Q], when [P] is within [Q]. *)
Lemma try_catch_post {S A} (P Q : S -> Prop) (m : M S A) (h : string -> M S A)
      (s : S) :
  P (snd (m s)) ->
  (forall s1, P s1 -> Q s1) ->
  (forall e s1, P s1 -> Q (snd (h e s1))) ->
  Q (snd (try_catch m h s)).
Proof.
  intros Hm Hpq Hh. unfold try_catch.
  destruct (m s) as [[a|e] s1]; simpl in *; auto.
Qed.

Lemma llen_nonneg {A} (l : list A) : 0 <= llen l.
Proof. unfold llen. lia. Qed.

Lemma text_fallback_returns (path : string) (fund : Z) (s : run_state) :
  fst (text_fallback env path fund s) = Ok tt.
Proof.
  unfold text_fallback, try_catch. cbv zeta.
  match goal with |- context [(?m ≫= ?k) s] => destruct ((m ≫= k) s) as [[[]|e] s1] end;
    reflexivity.
Qed.

Lemma text_fallback_stats (path : string) (fund : Z) (w : world) (st : stats) :
  let st' := snd (snd (text_fallback env path fund (w, st))) in
  only_calls_and_distributions_grew st st' /\
  (errors st' = errors st \/
   exists e, errors st' = errors st ++ [fallback_error e]).
Proof.
  cbv zeta. unfold text_fallback. cbv zeta.
  apply (try_catch_post
           (fun s1 : run_state =>
              only_calls_and_distributions_grew st (snd s1) /\
              errors (snd s1) = errors st)).
  - apply (after_bind
             (fun s1 : run_state =>
                only_calls_and_distributions_grew st (snd s1) /\
                errors (snd s1) = errors st)).
    + unfold lift. destruct (extract_data_from_text env path w) as [r w1].
      cbn. unfold only_calls_and_distributions_grew. repeat split; lia.
    + intros [calls dists]. cbn [fst snd].
      repeat first
        [ apply (stable_lift_stats
                   (fun st1 => only_calls_and_distributions_grew st st1 /\
                               errors st1 = errors st))
        | apply (stable_update_stats
                   (fun st1 => only_calls_and_distributions_grew st st1 /\
                               errors st1 = errors st));
          intros st1 [(H1 & H2 & H3 & H4 & H5 & H6) He];
          split; [|exact He];
          unfold only_calls_and_distributions_grew; cbn;
          match goal with
          | |- context [llen ?l] => pose proof (llen_nonneg l)
          end; repeat split; first [assumption | lia]
        | stable_step ].
  - intros [w1 st1] [H He]. cbn [snd] in *. auto.
  - intros e [w1 st1] [H He]. cbn in *. split; [exact H|].
    right. exists e. rewrite He. reflexivity.
Qed.

Lemma text_fallback_without_client (path : string) (fund : Z) (w : world)
      (st : stats) :
  llm_client env = false ->
  text_fallback env path fund (w, st)
  = (Ok tt, (log_event (EvTextFallback path) w, st)).
Proof.
  intros Hc. unfold text_fallback, try_catch, lift, extract_data_from_text,
    record_event, modify, mbind, M_bind.
  rewrite Hc. reflexivity.
Qed.

End FallbackStep.

(** X22.  The text fallback of step 2.5 never fails the run.  It always
    returns; it can only raise the counters of capital calls and of
    distributions (the adjustments and the other counters stay as they
    were) and appends at most one message, "Error in LLM-based text
    extraction: e", to the errors.  Without an LLM client it does nothing
    but record that it was called: no file is read, nothing is stored and
    the statistics are unchanged. *)
Theorem text_fallback_never_fails_the_run (env : environment) (path : string)
        (fund : Z) (w : world) (st : stats) :
  let r := DocumentProcessor.text_fallback env path fund (w, st) in
  fst r = Ok tt /\
  RunProps.only_calls_and_distributions_grew st (snd (snd r)) /\
  (errors (snd (snd r)) = errors st \/
   exists e, errors (snd (snd r)) = errors st ++ [RunProps.fallback_error e]) /\
  (llm_client env = false ->
   snd r = (log_event (EvTextFallback path) w, st)).
Proof.
  cbv zeta. split; [apply text_fallback_returns|].
  destruct (text_fallback_stats env path fund w st) as [Hg He].
  split; [exact Hg|]. split; [exact He|].
  intros Hc. now rewrite text_fallback_without_client.
Qed.

Lemma text_fallback_never_fails_the_run_witness :
  snd (DocumentProcessor.text_fallback env_no_llm "report.pdf" 3
         (world0, DocumentProcessor.stats0))
  = (log_event (EvTextFallback "report.pdf") world0, DocumentProcessor.stats0).
Proof.
  destruct (text_fallback_never_fails_the_run env_no_llm "report.pdf" 3 world0
              DocumentProcessor.stats0) as (_ & _ & _ & H).
  apply H. reflexivity.
Defined.

Section UnreadablePdf.

Import Spec DocumentProcessor RunProps.

Variable env : environment.

Lemma extract_tables_unreadable (path e : string) (w : world) :
  fault env (clock w) (OpOpenPdf path) = Some e ->
  extract_tables_from_pdf env path w = (Raise e, tick w).
Proof.
  intros H. unfold extract_tables_from_pdf, try_catch, mbind, M_bind, call.
  rewrite H. reflexivity.
Qed.

Lemma process_tables_unreadable (path e : string) (fund : Z) (w : world)
      (st : stats) :
  fault env (clock w) (OpOpenPdf path) = Some e ->
  process_tables env path fund (w, st) = (Raise e, (tick w, st)).
Proof.
  intros H. unfold process_tables, mbind, M_bind, lift.
  rewrite (extract_tables_unreadable path e w H). reflexivity.
Qed.

End UnreadablePdf.

(** X23.  A PDF that cannot be opened.  When opening the file raises
    [e], the run returns a failure whose statistics are all zero, with the
    single error "Fatal error processing document <path>: <e>", and the
    text fallback is not called. *)
Theorem unreadable_pdf_fails_the_run (env : environment) (path e : string)
        (id fund : Z) (w : world) :
  fault env (clock w) (OpOpenPdf path) = Some e ->
  let msg := DocumentProcessor.fatal_message path e in
  let r := DocumentProcessor.process_document env path id fund w in
  fst r = Ok {| success := false;
                out_stats := {| capital_calls := 0; distributions := 0;
                                adjustments := 0; text_chunks := 0;
                                tables_found := 0; pages_processed := 0;
                                errors := [msg] |};
                error := Some msg |} /\
  fallback_calls (trace (snd r)) = fallback_calls (trace w).
Proof.
  intros Hf. cbv zeta.
  pose proof (process_tables_unreadable env path e fund w
                DocumentProcessor.stats0 Hf) as Hpt.
  split.
  - pose proof (process_document_cases env path id fund w) as Hcases.
    unfold DocumentProcessor.ingest in Hcases.
    rewrite (bind_raise _ _ _ _ _ Hpt) in Hcases.
    destruct Hcases as (w' & _ & ->). reflexivity.
  - rewrite run_fallback_calls, Hpt. cbn. now rewrite app_nil_r.
Qed.

Lemma unreadable_pdf_fails_the_run_witness :
  fst (DocumentProcessor.process_document env_no_file "missing.pdf" 7 3 world0)
  = Ok {| success := false;
          out_stats := {| capital_calls := 0; distributions := 0;
                          adjustments := 0; text_chunks := 0;
                          tables_found := 0; pages_processed := 0;
                          errors := [DocumentProcessor.fatal_message "missing.pdf"
                                       "No such file or directory"] |};
          error := Some (DocumentProcessor.fatal_message "missing.pdf"
                           "No such file or directory") |}.
Proof.
  apply (unreadable_pdf_fails_the_run env_no_file "missing.pdf"
           "No such file or directory" 7 3 world0).
  reflexivity.
Defined.

(** ** Reading the PDF *)

Section ReaderFacts.

Import PyStr PdfReader DocumentProcessor ReaderProps.

Variable env : environment.

Lemma tables_of_page_spec (k n : Z) (tabs : list (list (list cell))) :
  Forall (fun t => rows t <> [] /\ page t = k /\ n <= table_number t /\
                   tabs !! Z.to_nat (table_number t - n)
                   = Some (headers t :: rows t))
         (tables_of_page k n tabs).
Proof.
  revert n. induction tabs as [|raw tabs IH]; intros n; [constructor|].
  assert (Htail : Forall (fun t => rows t <> [] /\ page t = k /\ n <= table_number t /\
                                   (raw :: tabs) !! Z.to_nat (table_number t - n)
                                   = Some (headers t :: rows t))
                         (tables_of_page k (n + 1) tabs)).
  { eapply List.Forall_impl; [|apply IH].
    intros t (Hr & Hp & Hn & Hl). repeat split; [exact Hr|exact Hp|lia|].
    replace (Z.to_nat (table_number t - n))
      with (Datatypes.S (Z.to_nat (table_number t - (n + 1)))) by lia.
    exact Hl. }
  cbn [tables_of_page]. destruct raw as [|hs [|r rs]]; try exact Htail.
  constructor; [|exact Htail]. cbn.
  repeat split; [discriminate|lia|].
  replace (n - n) with 0 by lia. reflexivity.
Qed.

Lemma sorted_app (R : Z -> Z -> Prop) (a b : list Z) :
  StronglySorted R a -> StronglySorted R b ->
  (forall x y, In x a -> In y b -> R x y) ->
  StronglySorted R (a ++ b).
Proof.
  intros Ha Hb Hab. induction Ha as [|x a Ha IH Hx]; [exact Hb|].
  simpl. constructor.
  - apply IH. intros u v Hu Hv. apply Hab; [right; exact Hu | exact Hv].
  - apply Forall_app. split; [exact Hx|].
    apply Forall_forall. intros y Hy. apply Hab; [left; reflexivity|].
    apply list_elem_of_In. exact Hy.
Qed.

Lemma sorted_constant (k : Z) (l : list Z) :
  Forall (fun x => x = k) l -> StronglySorted Z.le l.
Proof.
  induction 1 as [|x l Hx Hl IH]; constructor; [exact IH|].
  eapply List.Forall_impl; [|exact Hl]. intros y ->. lia.
Qed.

Lemma tables_of_pages_spec (k : Z) (pages : list pdf_page) (w w' : world)
      (ts : list table_info) :
  tables_of_pages env k pages w = (Ok ts, w') ->
  Forall (table_of_pdf k pages) ts /\ StronglySorted Z.le (map page ts).
Proof.
  revert k w w' ts. induction pages as [|p pages IH]; intros k w w' ts H.
  - injection H as <- _. split; constructor.
  - cbn [tables_of_pages] in H. unfold mbind, M_bind, call in H.
    destruct (fault env (clock w) (OpExtractTables k)); [discriminate|].
    destruct (tables_of_pages env (k + 1) pages (tick w)) as [[ts1|e] w1] eqn:Hrest;
      [|discriminate].
    injection H as <- _.
    destruct (IH _ _ _ _ Hrest) as [Hall Hsort].
    pose proof (tables_of_page_spec k 1 (page_tables p)) as Hhere.
    split.
    + apply Forall_app. split.
      * eapply List.Forall_impl; [|exact Hhere].
        intros t (Hr & Hp & Hn & Hl). unfold table_of_pdf.
        repeat split; [exact Hr|lia|exact Hn|].
        exists p. rewrite Hp. replace (k - k) with 0 by lia. auto.
      * eapply List.Forall_impl; [|exact Hall].
        intros t (Hr & Hp & Hn & q & Hq & Hl). unfold table_of_pdf.
        repeat split; [exact Hr|lia|exact Hn|].
        exists q. split; [|exact Hl].
        replace (Z.to_nat (page t - k))
          with (Datatypes.S (Z.to_nat (page t - (k + 1)))) by lia.
        exact Hq.
    + rewrite map_app. apply sorted_app.
      * apply (sorted_constant k). apply Forall_map.
        eapply List.Forall_impl; [|exact Hhere]. intros t (_ & Hp & _). exact Hp.
      * exact Hsort.
      * intros x y Hx Hy.
        apply in_map_iff in Hx as (t1 & <- & Ht1).
        apply in_map_iff in Hy as (t2 & <- & Ht2).
        rewrite Forall_forall in Hhere, Hall.
        apply list_elem_of_In in Ht1, Ht2.
        destruct (Hhere t1 Ht1) as (_ & -> & _).
        destruct (Hall t2 Ht2) as (_ & Hge & _). lia.
Qed.

Lemma text_of_pages_spec (k total : Z) (pages : list pdf_page) (w w' : world)
      (ps : list page_text) :
  text_of_pages env k total pages w = (Ok ps, w') ->
  Forall (text_of_pdf k total pages) ps /\ StronglySorted Z.lt (map pt_page ps).
Proof.
  revert k w w' ps. induction pages as [|p pages IH]; intros k w w' ps H.
  - injection H as <- _. split; constructor.
  - cbn [text_of_pages] in H. unfold mbind, M_bind, call in H.
    destruct (fault env (clock w) (OpExtractText k)); [discriminate|].
    destruct (text_of_pages env (k + 1) total pages (tick w)) as [[ps1|e] w1] eqn:Hrest;
      [|discriminate].
    injection H as <- _.
    destruct (IH _ _ _ _ Hrest) as [Hall Hsort].
    assert (Hshift : Forall (text_of_pdf k total (p :: pages)) ps1).
    { eapply List.Forall_impl; [|exact Hall].
      intros t (Hp & Ht & Hs & q & Hq & Hl). unfold text_of_pdf.
      repeat split; [lia|exact Ht|exact Hs|].
      exists q. split; [|exact Hl].
      replace (Z.to_nat (pt_page t - k))
        with (Datatypes.S (Z.to_nat (pt_page t - (k + 1)))) by lia.
      exact Hq. }
    destruct (page_text_of p) as [t|] eqn:Hp; [|auto].
    destruct t as [|c t]; [auto|].
    destruct (strip (String c t)) as [|c' t'] eqn:Hs; [auto|].
    split.
    + constructor; [|exact Hshift]. unfold text_of_pdf.
      cbn [pt_page pt_text pt_total_pages].
      repeat split; [lia|rewrite Hs; discriminate|].
      exists p. replace (k - k) with 0 by lia. auto.
    + cbn. constructor; [exact Hsort|].
      apply Forall_map. eapply List.Forall_impl; [|exact Hall].
      intros q (Hq & _). lia.
Qed.

End ReaderFacts.

(** X24.  The tables read from a PDF.  When [extract_tables_from_pdf]
    returns, every table it reports has at least one data row and is the
    table found at position [table_number] (from 1) on page [page] (from
    1) of the file, its first row taken as the headers and the rest as the
    rows; tables with fewer than two rows are left out, and the tables
    come in page order. *)
Theorem extracted_tables_come_from_the_pdf (env : environment) (path : string)
        (w w' : world) (tables : list table_info) :
  PdfReader.extract_tables_from_pdf env path w = (Ok tables, w') ->
  Forall (ReaderProps.table_of_pdf 1 (pdf_pages env path)) tables /\
  StronglySorted Z.le (map page tables).
Proof.
  unfold PdfReader.extract_tables_from_pdf, try_catch, mbind, M_bind, call.
  destruct (fault env (clock w) (OpOpenPdf path)); [discriminate|].
  destruct (PdfReader.tables_of_pages env 1 (pdf_pages env path) (tick w))
    as [[ts|e] w1] eqn:Hrun; [|discriminate].
  intros H. injection H as <- _.
  eapply tables_of_pages_spec. exact Hrun.
Qed.

Lemma extracted_tables_come_from_the_pdf_witness :
  Forall (ReaderProps.table_of_pdf 1 (pdf_pages env_ok "report.pdf")) [call_table] /\
  StronglySorted Z.le (map page [call_table]).
Proof.
  apply (extracted_tables_come_from_the_pdf env_ok "report.pdf" world0
           (tick (tick (tick world0))) [call_table]).
  vm_compute. reflexivity.
Defined.

(** X25.  The text read from a PDF.  When [_extract_text_content]
    returns, every page it reports carries the text of the page of that
    number (from 1) of the file, which is not blank, and the number of
    pages of the file; pages without text or with blank text are left out,
    and the pages come in strictly increasing page order. *)
Theorem extracted_text_comes_from_the_pdf (env : environment) (path : string)
        (w w' : world) (pages : list page_text) :
  DocumentProcessor._extract_text_content env path w = (Ok pages, w') ->
  Forall (ReaderProps.text_of_pdf 1
            (DocumentProcessor.llen (pdf_pages env path)) (pdf_pages env path))
         pages /\
  StronglySorted Z.lt (map pt_page pages).
Proof.
  unfold DocumentProcessor._extract_text_content, try_catch, mbind, M_bind, call.
  destruct (fault env (clock w) (OpOpenPdf path)); [discriminate|].
  cbv zeta.
  destruct (DocumentProcessor.text_of_pages env 1 _ (pdf_pages env path) (tick w))
    as [[ps|e] w1] eqn:Hrun; [|discriminate].
  intros H. injection H as <- _.
  eapply text_of_pages_spec. exact Hrun.
Qed.

Lemma extracted_text_comes_from_the_pdf_witness :
  exists pages : list page_text,
    map pt_page pages = [1; 2] /\
    Forall (ReaderProps.text_of_pdf 1 2 report_pages) pages /\
    StronglySorted Z.lt (map pt_page pages).
Proof.
  eexists. split; [|
    apply (extracted_text_comes_from_the_pdf env_ok "report.pdf" world0
             (tick (tick (tick world0)))); vm_compute; reflexivity].
  reflexivity.
Defined.

(** ** Pages and chunks in the statistics *)

Section PagesAndChunks.

Import PyStr Chunker DocumentProcessor.

Variable env : environment.

Lemma all_space_lstrip (s : string) : all_space (lstrip s) = all_space s.
Proof.
  induction s as [|c s IH]; [reflexivity|]. simpl.
  destruct (isspace c) eqn:Hc; [exact IH|]. simpl. now rewrite Hc.
Qed.

Lemma strip_empty_all_space (s : string) :
  strip s = EmptyString -> all_space s = true.
Proof.
  unfold strip, rstrip. intros H.
  apply (f_equal rev) in H. rewrite rev_involutive in H.
  change (rev EmptyString) with EmptyString in H.
  apply lstrip_empty_all_space in H.
  rewrite all_space_rev, all_space_lstrip in H. exact H.
Qed.

(** When every piece of the split is blank, so is the text. *)
Lemma re_split_pieces_blank (s cur : string) (after_term in_sep : bool) :
  Forall (fun x => all_space x = true) (re_split s cur after_term in_sep) ->
  all_space (rev cur) = true /\ all_space s = true.
Proof.
  revert cur after_term in_sep.
  induction s as [|c s IH]; intros cur after_term in_sep H.
  - apply Forall_cons in H as [H _]. auto.
  - cbn [re_split] in H. cbn [all_space].
    destruct (in_sep && isspace c) eqn:E1.
    + apply andb_prop in E1 as [_ Hc]. rewrite Hc.
      apply IH in H. exact H.
    + destruct (after_term && isspace c) eqn:E2.
      * apply andb_prop in E2 as [_ Hc]. rewrite Hc.
        apply Forall_cons in H as [Hcur H]. apply IH in H as [_ Hs]. auto.
      * apply IH in H as [Hcur Hs].
        rewrite rev_cons, all_space_append in Hcur.
        apply andb_prop in Hcur as [Hcur Hc]. simpl in Hc.
        rewrite andb_true_r in Hc. rewrite Hc, Hs. auto.
Qed.

(** A text that is not blank has a sentence. *)
Lemma non_blank_has_sentence (text : string) :
  strip text <> EmptyString -> _split_into_sentences text <> [].
Proof.
  intros Hne Hnil. apply Hne. apply strip_all_space.
  apply (re_split_pieces_blank text EmptyString false false).
  unfold _split_into_sentences in Hnil.
  induction (re_split text EmptyString false false) as [|x l IH]; [constructor|].
  simpl in Hnil. apply app_eq_nil in Hnil as [Hx Hl].
  constructor; [|exact (IH Hl)].
  apply strip_empty_all_space. destruct (strip x); [reflexivity|discriminate].
Qed.

Lemma chunk_text_covers_pages (size overlap : Z) (pages : list page_text) :
  Forall (fun p => strip (pt_text p) <> EmptyString) pages ->
  (length pages <= length (_chunk_text size overlap pages))%nat.
Proof.
  unfold _chunk_text. induction 1 as [|p pages Hp _ IH]; [simpl; lia|].
  simpl. rewrite length_app.
  assert (chunk_one_page size overlap p <> []).
  { unfold chunk_one_page. rewrite chunk_sentences_groups.
    destruct (groups_cover size overlap (_split_into_sentences (pt_text p)))
      as (_ & _ & Hne).
    specialize (Hne (non_blank_has_sentence _ Hp)).
    destruct (sentence_groups _ _ _); [congruence|discriminate]. }
  destruct (chunk_one_page size overlap p); [congruence|]. simpl. lia.
Qed.

Lemma text_of_pages_length (k total : Z) (pages : list pdf_page) (w w' : world)
      (ps : list page_text) :
  text_of_pages env k total pages w = (Ok ps, w') ->
  (length ps <= length pages)%nat.
Proof.
  revert k w w' ps. induction pages as [|p pages IH]; intros k w w' ps H.
  - injection H as <- _. simpl. lia.
  - cbn [text_of_pages] in H. unfold mbind, M_bind, call in H.
    destruct (fault env (clock w) (OpExtractText k)); [discriminate|].
    destruct (text_of_pages env (k + 1) total pages (tick w)) as [[ps1|e] w1] eqn:Hrest;
      [|discriminate].
    injection H as <- _. apply IH in Hrest.
    destruct (page_text_of p) as [[|c t]|]; simpl; try lia.
    destruct (strip (String c t)); simpl; lia.
Qed.

(** The statistics after a text index that went through. *)
Lemma index_text_ok (path : string) (id fund : Z) (w w' : world) (st st' : stats) :
  index_text env path id fund (w, st) = (Ok tt, (w', st')) ->
  exists (pages : list page_text) (w1 : world),
    _extract_text_content env path w = (Ok pages, w1) /\
    st' = set_text_chunks (llen (chunk_configured env pages))
            (set_pages_processed (llen pages) st).
Proof.
  unfold index_text. cbv zeta. unfold mbind at 1, M_bind at 1, lift at 1.
  destruct (_extract_text_content env path w) as [[pages|e] w1] eqn:Hx;
    [|discriminate].
  unfold mbind at 1, M_bind at 1, update_stats at 1, modify at 1.
  unfold mbind at 1, M_bind at 1, update_stats at 1, modify at 1.
  intros H. exists pages, w1. split; [reflexivity|].
  set (st2 := set_text_chunks (llen (chunk_configured env pages))
                (set_pages_processed (llen pages) st)) in *.
  assert (Hs : snd (snd (for_each (chunk_configured env pages)
                           (store_chunk env path id fund) (w1, st2))) = st2).
  { apply (stable_for_each (fun s : run_state => snd s = st2)); [|reflexivity].
    intros c. unfold store_chunk.
    apply stable_bind; [apply (stable_lift_stats (fun s => s = st2))|].
    intros _. apply stable_ret. }
  rewrite H in Hs. exact Hs.
Qed.

Lemma extracted_text_pages (path : string) (w w' : world) (pages : list page_text) :
  _extract_text_content env path w = (Ok pages, w') ->
  Forall (fun p => strip (pt_text p) <> EmptyString) pages /\
  (length pages <= length (pdf_pages env path))%nat.
Proof.
  unfold _extract_text_content, try_catch, mbind, M_bind, call.
  destruct (fault env (clock w) (OpOpenPdf path)); [discriminate|].
  cbv zeta.
  destruct (text_of_pages env 1 _ (pdf_pages env path) (tick w))
    as [[ps|e] w1] eqn:Hrun; [|discriminate].
  intros H. injection H as <- _. split.
  - destruct (text_of_pages_spec env _ _ _ _ _ _ Hrun) as [Hall _].
    eapply List.Forall_impl; [|exact Hall]. intros p (_ & _ & Hs & _). exact Hs.
  - eapply text_of_pages_length. exact Hrun.
Qed.

Lemma ingest_ok (path : string) (id fund : Z) (s s' : run_state) :
  ingest env path id fund s = (Ok tt, s') ->
  exists s2 : run_state, index_text env path id fund s2 = (Ok tt, s').
Proof.
  unfold ingest, mbind, M_bind.
  destruct (process_tables env path fund s) as [[[]|e] s1]; [|discriminate].
  destruct (fallback_if_needed env path fund s1) as [[[]|e] s2]; [|discriminate].
  intros H. exists s2. exact H.
Qed.

End PagesAndChunks.

(** X26.  Pages and chunks of a successful run.  When [process_document]
    reports success, [pages_processed] is the number of pages whose text
    is not blank, which is at most the number of pages of the file, and
    [text_chunks] is at least [pages_processed]: every such page gives at
    least one chunk. *)
Theorem successful_run_chunks_every_page (env : environment) (path : string)
        (id fund : Z) (w w' : world) (out : outcome) :
  DocumentProcessor.process_document env path id fund w = (Ok out, w') ->
  success out = true ->
  0 <= pages_processed (out_stats out) <= text_chunks (out_stats out) /\
  pages_processed (out_stats out) <= DocumentProcessor.llen (pdf_pages env path).
Proof.
  intros Hrun Hok.
  pose proof (process_document_cases env path id fund w) as Hcases.
  destruct (DocumentProcessor.ingest env path id fund (w, DocumentProcessor.stats0))
    as [[[]|e] [w1 st]] eqn:Hing;
    destruct Hcases as (w2 & _ & Hpd); rewrite Hpd in Hrun;
    injection Hrun as <- _; [|discriminate Hok].
  cbn [out_stats].
  apply ingest_ok in Hing as ([w0 st0] & Hidx).
  apply index_text_ok in Hidx as (pages & w3 & Hx & ->).
  cbn [pages_processed text_chunks DocumentProcessor.set_text_chunks
         DocumentProcessor.set_pages_processed].
  destruct (extracted_text_pages env path w0 w3 pages Hx) as [Hnb Hlen].
  pose proof (chunk_text_covers_pages (CHUNK_SIZE env) (CHUNK_OVERLAP env) pages Hnb).
  unfold DocumentProcessor.llen, DocumentProcessor.chunk_configured in *. lia.
Qed.

Lemma successful_run_chunks_every_page_witness :
  exists (out : outcome) (w' : world),
    DocumentProcessor.process_document env_ok "report.pdf" 7 3 world0 = (Ok out, w') /\
    0 <= pages_processed (out_stats out) <= text_chunks (out_stats out).
Proof.
  assert (Hs : match fst (DocumentProcessor.process_document env_ok "report.pdf" 7 3
                            world0) with
               | Ok out => success out = true
               | Raise _ => False
               end) by (vm_compute; reflexivity).
  destruct (DocumentProcessor.process_document env_ok "report.pdf" 7 3 world0)
    as [[out|e] w'] eqn:H; [|destruct Hs].
  exists out, w'. split; [reflexivity|].
  apply (successful_run_chunks_every_page env_ok "report.pdf" 7 3 world0 w' out H Hs).
Defined.

(** ** Storing the chunks *)

Section StoreChunks.

Import Spec VectorStore DocumentProcessor RunProps SearchProps.

Variable env : environment.

(** [add_document] from a session with nothing pending: the row is
    durable, or nothing changed. *)
Lemma add_document_clean (content : string) (md : metadata) (w : world) :
  session w = committed w ->
  (exists w',
     add_document env content md w = (Ok (next_id w), w') /\
     session w' = committed w' /\
     gained [new_row env content md w] (committed w) (committed w')) \/
  (exists e w',
     add_document env content md w = (Raise e, w') /\
     session w' = committed w' /\ committed w' = committed w).
Proof.
  intros Hclean. unfold add_document.
  destruct (fault env (clock w) (OpEmbed (truncated content))) as [e|] eqn:He.
  - right. exists e. eexists.
    rewrite (try_catch_raise _ _ _ _ _
               (bind_raise _ _ _ _ _ (get_embedding_raises env content e w He))).
    unfold db_rollback, modify, raise, mbind, M_bind. cbn. auto.
  - unfold try_catch.
    rewrite (bind_ok _ _ _ _ _ (get_embedding_returns env content w He)).
    unfold insert_embedding, db_commit, db_rollback, call, mbind, M_bind, get,
      modify, mret, M_ret, raise.
    cbn [clock tick].
    destruct (fault env (Datatypes.S (clock w)) OpDbExecute) as [e|] eqn:Hx.
    + right. exists e. eexists. cbn. auto.
    + cbn [clock tick insert_row].
      destruct (fault env (Datatypes.S (Datatypes.S (clock w))) OpDbCommit) as [e|] eqn:Hc.
      * right. exists e. eexists. cbn. auto.
      * left. eexists. split; [reflexivity|]. cbn. split; [reflexivity|].
        unfold gained. cbn. rewrite Hclean. auto.
Qed.

Lemma gained_trans (r1 r2 : list embedding_row) (s1 s2 s3 : store) :
  gained r1 s1 s2 -> gained r2 s2 s3 -> gained (r1 ++ r2) s1 s3.
Proof.
  intros (H1 & H2 & H3) (H4 & H5 & H6). unfold gained.
  rewrite H4, H1, H5, H2, H6, H3, app_assoc. auto.
Qed.

(** The loop of step 5: the chunks are stored in order, each durably
    before the next; a failure leaves the chunks stored before it, and is
    the failure of the chunk that comes next. *)
Lemma store_chunks_run (path : string) (id fund : Z) (chunks : list chunk)
      (w : world) (st : stats) :
  session w = committed w ->
  let r := for_each chunks (store_chunk env path id fund) (w, st) in
  exists (stored rest : list chunk) (rows : list embedding_row) (mid : run_state),
    chunks = stored ++ rest /\
    Forall2 (row_of_chunk env path id fund) stored rows /\
    for_each stored (store_chunk env path id fund) (w, st) = (Ok tt, mid) /\
    gained rows (committed w) (committed (fst (snd r))) /\
    session (fst (snd r)) = committed (fst (snd r)) /\
    match fst r with
    | Ok _ => rest = []
    | Raise e =>
        exists (c : chunk) (rest' : list chunk),
          rest = c :: rest' /\
          fst (store_chunk env path id fund c mid) = Raise e
    end.
Proof.
  cbv zeta. revert w. induction chunks as [|c chunks IH]; intros w Hclean.
  - exists [], [], [], (w, st). cbn. unfold gained. rewrite app_nil_r.
    repeat split; auto.
  - cbn [for_each].
    set (md := {| md_document_id := Some id; md_fund_id := Some fund;
                  md_page := chunk_page c; md_chunk_index := chunk_index c;
                  md_source := path |}).
    destruct (add_document_clean (text c) md w Hclean)
      as [(w1 & Hadd & Hc1 & Hg1)|(e & w1 & Hadd & Hc1 & Hsame)].
    + assert (Hbody : store_chunk env path id fund c (w, st) = (Ok tt, (w1, st))).
      { unfold store_chunk, lift, mbind, M_bind. fold md. rewrite Hadd. reflexivity. }
      rewrite (bind_ok _ _ _ _ _ Hbody).
      destruct (IH w1 Hc1)
        as (stored & rest & rows & mid & Hsplit & Hrows & Hrun & Hg & Hc & Hend).
      exists (c :: stored), rest, (new_row env (text c) md w :: rows), mid.
      split; [rewrite Hsplit; reflexivity|].
      split; [constructor; [|exact Hrows]; unfold row_of_chunk, new_row; cbn; auto|].
      split; [cbn [for_each]; rewrite (bind_ok _ _ _ _ _ Hbody); exact Hrun|].
      split; [exact (gained_trans [_] rows _ _ _ Hg1 Hg)|].
      split; [exact Hc | exact Hend].
    + assert (Hbody : store_chunk env path id fund c (w, st) = (Raise e, (w1, st))).
      { unfold store_chunk, lift, mbind, M_bind. fold md. rewrite Hadd. reflexivity. }
      rewrite (bind_raise _ _ _ _ _ Hbody).
      exists [], (c :: chunks), [], (w, st). cbn [fst snd].
      split; [reflexivity|]. split; [constructor|]. split; [reflexivity|].
      split; [unfold gained; rewrite Hsame, app_nil_r; auto|].
      split; [exact Hc1|].
      exists c, chunks. rewrite Hbody. auto.
Qed.

Lemma extract_text_keeps_store (path : string) (w : world) :
  session (snd (_extract_text_content env path w)) = session w /\
  committed (snd (_extract_text_content env path w)) = committed w.
Proof.
  apply (stable_extract_text_content env
           (fun w' => session w' = session w /\ committed w' = committed w));
    auto.
Qed.

End StoreChunks.

(** X27.  What the text index stores.  Started with nothing pending in
    the session, steps 3 to 5 add to the embeddings table, durably and in
    chunk order, one row per stored chunk (its text, the embedding of its
    text, the document, the fund, the page, the chunk index and the file),
    and change nothing else in the store.  The stored chunks are the
    chunks of the text up to the first one whose storing raises: all of
    them when the steps end normally; when storing a chunk raises [e], the
    chunks before it, each of which was stored without an exception, the
    failing chunk being the next one and [e] the exception of its storing;
    and none when the text cannot be read. *)
Theorem index_text_stores_chunks_in_order (env : environment) (path : string)
        (id fund : Z) (w : world) (st : stats) :
  session w = committed w ->
  let r := DocumentProcessor.index_text env path id fund (w, st) in
  let read := DocumentProcessor._extract_text_content env path w in
  exists (stored : list chunk) (rows : list embedding_row),
    Forall2 (RunProps.row_of_chunk env path id fund) stored rows /\
    RunProps.gained rows (committed w) (committed (fst (snd r))) /\
    session (fst (snd r)) = committed (fst (snd r)) /\
    match fst read with
    | Ok pages =>
        exists (rest : list chunk) (st2 : stats) (mid : DocumentProcessor.run_state),
          DocumentProcessor.chunk_configured env pages = stored ++ rest /\
          for_each stored (DocumentProcessor.store_chunk env path id fund)
                   (snd read, st2) = (Ok tt, mid) /\
          match fst r with
          | Ok _ => rest = []
          | Raise e =>
              exists (c : chunk) (rest' : list chunk),
                rest = c :: rest' /\
                fst (DocumentProcessor.store_chunk env path id fund c mid) = Raise e
          end
    | Raise e => stored = [] /\ fst r = Raise e
    end.
Proof.
  intros Hclean. cbv zeta.
  destruct (extract_text_keeps_store env path w) as [Hs Hc].
  destruct (DocumentProcessor._extract_text_content env path w) as [[pages|e] w1] eqn:Hx;
    cbn [fst snd] in *.
  - assert (Hrun : DocumentProcessor.index_text env path id fund (w, st)
                   = for_each (DocumentProcessor.chunk_configured env pages)
                       (DocumentProcessor.store_chunk env path id fund)
                       (w1, DocumentProcessor.set_text_chunks
                              (DocumentProcessor.llen
                                 (DocumentProcessor.chunk_configured env pages))
                              (DocumentProcessor.set_pages_processed
                                 (DocumentProcessor.llen pages) st))).
    { unfold DocumentProcessor.index_text. cbv zeta.
      unfold mbind at 1, M_bind at 1, DocumentProcessor.lift at 1.
      rewrite Hx. reflexivity. }
    rewrite Hrun.
    assert (Hclean1 : session w1 = committed w1) by congruence.
    match goal with
    | |- context [for_each ?cs ?body (w1, ?st2)] =>
        destruct (store_chunks_run env path id fund cs w1 st2 Hclean1)
          as (stored & rest & rows & mid & Hsplit & Hrows & Hst & Hg & Hcl & Hend);
        exists stored, rows; rewrite <- Hc;
        split; [exact Hrows|]; split; [exact Hg|]; split; [exact Hcl|];
        exists rest, st2, mid
    end.
    split; [exact Hsplit|]. split; [exact Hst | exact Hend].
  - assert (Hrun : DocumentProcessor.index_text env path id fund (w, st)
                   = (Raise e, (w1, st))).
    { unfold DocumentProcessor.index_text. cbv zeta.
      unfold mbind at 1, M_bind at 1, DocumentProcessor.lift at 1.
      rewrite Hx. reflexivity. }
    rewrite Hrun. cbn [fst snd].
    exists [], []. split; [constructor|]. split; [|split; [congruence|auto]].
    unfold RunProps.gained. rewrite Hc, app_nil_r. auto.
Qed.

Lemma index_text_stores_chunks_in_order_witness :
  fst (DocumentProcessor.index_text env_embed_fails_on_second_page "report.pdf" 7 3
         (world0, DocumentProcessor.stats0))
  = Raise "embedding provider unavailable" /\
  exists (stored : list chunk) (rows : list embedding_row),
    Forall2 (RunProps.row_of_chunk env_embed_fails_on_second_page "report.pdf" 7 3)
            stored rows /\
    RunProps.gained rows (committed world0)
      (committed (fst (snd (DocumentProcessor.index_text
                              env_embed_fails_on_second_page "report.pdf" 7 3
                              (world0, DocumentProcessor.stats0))))) /\
    length stored = 1%nat.
Proof.
  split; [vm_compute; reflexivity|].
  destruct (index_text_stores_chunks_in_order env_embed_fails_on_second_page
              "report.pdf" 7 3 world0 DocumentProcessor.stats0 eq_refl)
    as (stored & rows & Hrows & Hg & _).
  exists stored, rows. split; [exact Hrows|]. split; [exact Hg|].
  rewrite (Forall2_length _ _ _ Hrows).
  destruct Hg as (He & _). apply (f_equal (@length embedding_row)) in He.
  rewrite length_app in He.
  assert (Hl : length (document_embeddings
                         (committed (fst (snd (DocumentProcessor.index_text
                            env_embed_fails_on_second_page "report.pdf" 7 3
                            (world0, DocumentProcessor.stats0))))))
               = 1%nat) by (vm_compute; reflexivity).
  rewrite Hl in He. cbn in He. lia.
Defined.

(** X28.  The status update is all or nothing and never raises.  When
    the query fails, or the commit fails, the session is rolled back and
    the durable state is as before; when the document row does not exist,
    nothing is written and nothing is rolled back; otherwise the row
    durably takes the status and the message, together with whatever the
    session held pending.  In every case the call is recorded once. *)
Theorem update_document_status_is_all_or_nothing (env : environment) (id : Z)
        (status : string) (msg : option string) (w : world) :
  let r := DocumentProcessor._update_document_status env id status msg w in
  let w' := snd r in
  fst r = Ok tt /\
  trace w' = trace w ++ [EvStatus id status msg] /\
  match fault env (clock w) OpDbQuery, documents (session w) !! id,
        fault env (S (clock w)) OpDbCommit with
  | None, Some _, None =>
      committed w' = DocumentProcessor.set_document id status msg (session w) /\
      session w' = committed w'
  | None, None, _ =>
      committed w' = committed w /\ session w' = session w
  | _, _, _ =>
      committed w' = committed w /\ session w' = committed w
  end.
Proof.
  cbv zeta.
  unfold DocumentProcessor._update_document_status, record_event, try_catch,
    db_commit, db_rollback, call, mbind, M_bind, modify, get.
  cbn [clock log_event tick session].
  destruct (fault env (clock w) OpDbQuery) as [e|] eqn:Eq; [cbn; auto|].
  cbn [clock log_event tick session].
  destruct (documents (session w) !! id) as [d|] eqn:Ed; [|cbn; auto].
  cbn [clock log_event tick session set_session].
  destruct (fault env (S (clock w)) OpDbCommit) as [e|] eqn:Ec; cbn; auto.
Qed.

(** ** The background task *)

Section TaskFacts.

Import VectorStoreMaintenance DocumentTasks.

Variable env : environment.
Variable embeddings_fault : option string.

Lemma mark_failed_returns (id : Z) (e : string) (w : world) :
  exists w', mark_failed env id e w = (Ok tt, w').
Proof.
  unfold mark_failed.
  destruct (try_catch_total
              (call env OpDbQuery ;;
               w0 ← get;
               match documents (session w0) !! id with
               | Some _ =>
                   modify (set_session
                             (DocumentProcessor.set_document id "failed" (Some e))) ;;
                   db_commit env
               | None => mret tt
               end)
              (fun _ => mret tt)
              (fun e' s => ex_intro _ tt (ex_intro _ s eq_refl)) w)
    as ([] & w' & H).
  exists w'. exact H.
Qed.

Lemma close_leaves_nothing_pending (s : setup_state) :
  session (fst (snd (db_close s))) = committed (fst (snd (db_close s))) /\
  cat_session (snd (snd (db_close s))) = cat_committed (snd (snd (db_close s))).
Proof. destruct s as [w c]. split; reflexivity. Qed.

End TaskFacts.

(** X29.  When the background task fails.  [process_document_task]
    raises exactly when marking the document as processing or building the
    services raises, and then raises that exception [e], after trying to
    mark the document as failed: the session it closes is the one left by
    that attempt, and when the document row exists and the query and the
    commit of the attempt are answered, the row durably holds the status
    'failed' and the message [e].  Once [process_document] is reached the
    task returns what [process_document] returns, also when that result
    reports a failure.  In both cases the session is closed with nothing
    pending. *)
Theorem task_raises_only_before_processing (env : environment)
        (embeddings_fault : option string) (id fund : Z) (path : string)
        (s : VectorStoreMaintenance.setup_state) :
  let r := DocumentTasks.process_document_task env embeddings_fault id fund path s in
  session (fst (snd r)) = committed (fst (snd r)) /\
  cat_session (snd (snd r)) = cat_committed (snd (snd r)) /\
  match DocumentTasks.prepare env embeddings_fault id s with
  | (Ok _, (w1, _)) =>
      exists out : outcome,
        fst (DocumentProcessor.process_document env path id fund w1) = Ok out /\
        fst r = Ok out
  | (Raise e, (w1, _)) =>
      fst r = Raise e /\
      fst (snd r) = rollback_world (snd (DocumentTasks.mark_failed env id e w1)) /\
      (is_Some (documents (session w1) !! id) ->
       fault env (clock w1) OpDbQuery = None ->
       fault env (S (clock w1)) OpDbCommit = None ->
       documents (committed (fst (snd r))) !! id
       = Some {| parsing_status := "failed"; error_message := Some e |})
  end.
Proof.
  cbv zeta. unfold DocumentTasks.process_document_task.
  destruct (try_catch _ _ s) as [r s1] eqn:Htry.
  pose proof (close_leaves_nothing_pending s1) as [Hs Hc].
  assert (Hclose : fst (snd (DocumentTasks.db_close s1)) = rollback_world (fst s1))
    by (destruct s1; reflexivity).
  destruct (DocumentTasks.db_close s1) as [u s2]. cbn [fst snd] in *.
  split; [exact Hs|]. split; [exact Hc|].
  unfold try_catch in Htry.
  destruct (DocumentTasks.prepare env embeddings_fault id s) as [[[]|e] [w1 c1]] eqn:Hp.
  - rewrite (bind_ok _ _ _ _ _ Hp) in Htry.
    unfold VectorStoreMaintenance.on_world in Htry.
    pose proof (process_document_cases env path id fund w1) as Hcases.
    destruct (DocumentProcessor.ingest env path id fund (w1, DocumentProcessor.stats0))
      as [[[]|e] [w2 st]]; destruct Hcases as (w3 & _ & Hpd);
      rewrite Hpd in Htry |- *; injection Htry as <- _; eexists; split; reflexivity.
  - rewrite (bind_raise _ _ _ _ _ Hp) in Htry.
    unfold mbind, M_bind, VectorStoreMaintenance.on_world, raise in Htry.
    destruct (mark_failed_returns env id e w1) as (w2 & Hm).
    rewrite Hm in Htry. injection Htry as <- <-. cbn [fst snd] in Hclose.
    split; [reflexivity|]. rewrite Hclose, Hm. cbn [snd].
    split; [reflexivity|].
    intros [d Hd] Hq Hcm.
    unfold DocumentTasks.mark_failed, try_catch, db_commit, call, mbind, M_bind,
      modify, get in Hm.
    rewrite Hq in Hm. cbn [clock tick session] in Hm. rewrite Hd in Hm.
    cbn [clock tick session set_session] in Hm. rewrite Hcm in Hm.
    injection Hm as <-. cbn. apply lookup_insert_eq.
Qed.

Lemma task_raises_only_before_processing_witness :
  fst (DocumentTasks.process_document_task env_ok (Some "model not found") 7 3
         "report.pdf" (world0, schema0))
  = Raise "model not found" /\
  documents (committed (fst (snd (DocumentTasks.process_document_task env_ok
                                    (Some "model not found") 7 3 "report.pdf"
                                    (world0, schema0))))) !! 7
  = Some {| parsing_status := "failed"; error_message := Some "model not found" |}.
Proof.
  destruct (task_raises_only_before_processing env_ok (Some "model not found") 7 3
              "report.pdf" (world0, schema0)) as (_ & _ & H).
  destruct (DocumentTasks.prepare env_ok (Some "model not found") 7 (world0, schema0))
    as [[[]|e] [w1 c1]] eqn:Hp; vm_compute in Hp; [discriminate Hp|].
  injection Hp as <- <- <-.
  destruct H as (Hr & _ & Hrow). split; [exact Hr|].
  apply Hrow; [vm_compute; eauto | reflexivity | reflexivity].
Defined.
